(** * imt: HID multi-touch digitizer driver (src/imt.c)

    A shallow embedding of the descriptor analyser ([wmt_hid_parse]), the
    report size calculator ([wmt_hid_report_size]), the feature refinement
    ([wmt_cont_max_parse]), the mode selector ([imt_set_input_mode]) and the
    interrupt-path report decoder ([imt_intr]), followed by the properties
    the specification states about them.

    C integers are [Z]; every place where the C type truncates is written
    out with [to_uint32].  Fixed-size arrays ([ai], [locs], [slot_data]) are
    total maps from indices. *)

From Stdlib Require Import ZArith List Bool Lia Permutation.
Import ListNotations.
Local Open Scope Z_scope.

(** ** Machine integers *)

Definition to_uint32 (z : Z) : Z := z mod 2 ^ 32.

(** Conversion of an out-of-range value to [int32_t] (two's complement). *)
Definition to_int32 (z : Z) : Z := (z + 2 ^ 31) mod 2 ^ 32 - 2 ^ 31.

(** C truth value of a comparison. *)
Definition c_bool (b : bool) : Z := if b then 1 else 0.

(** C logical negation [!x]. *)
Definition c_not (x : Z) : Z := c_bool (x =? 0).

Definition MIN (a b : Z) : Z := if a <? b then a else b.
Definition MAX (a b : Z) : Z := if a >? b then a else b.

(** ** HID items (the fields of [struct hid_item] that imt.c reads) *)

Inductive hid_kind :=
  | hid_input | hid_output | hid_feature | hid_collection | hid_endcollection.

Definition hid_kind_eqb (a b : hid_kind) : bool :=
  match a, b with
  | hid_input, hid_input | hid_output, hid_output
  | hid_feature, hid_feature | hid_collection, hid_collection
  | hid_endcollection, hid_endcollection => true
  | _, _ => false
  end.

Record hid_location := mk_loc {
  size : Z;   (* uint32_t, bits *)
  count : Z;  (* uint32_t *)
  pos : Z     (* uint32_t, bit offset *)
}.

Definition loc_zero : hid_location := mk_loc 0 0 0.

Record hid_item := mk_item {
  kind : hid_kind;
  collevel : Z;
  usage : Z;              (* int32_t *)
  report_ID : Z;          (* uint8_t *)
  flags : Z;
  logical_minimum : Z;    (* int32_t *)
  logical_maximum : Z;    (* int32_t *)
  loc : hid_location
}.

(** ** Evdev event codes and the event sink

    [ABS_MT_*] are the codes of the table [wmt_hid_map]; [WMT_NO_CODE]
    ([ABS_MAX + 10]) is the value that marks a channel without a code. *)

Inductive abs_code :=
  | ABS_MT_SLOT | ABS_MT_TOUCH_MAJOR | ABS_MT_TOUCH_MINOR | ABS_MT_ORIENTATION
  | ABS_MT_POSITION_X | ABS_MT_POSITION_Y | ABS_MT_TRACKING_ID
  | ABS_MT_PRESSURE | ABS_MT_DISTANCE | ABS_MT_TOOL_X | ABS_MT_TOOL_Y
  | WMT_NO_CODE.

Definition abs_code_eqb (a b : abs_code) : bool :=
  match a, b with
  | ABS_MT_SLOT, ABS_MT_SLOT | ABS_MT_TOUCH_MAJOR, ABS_MT_TOUCH_MAJOR
  | ABS_MT_TOUCH_MINOR, ABS_MT_TOUCH_MINOR
  | ABS_MT_ORIENTATION, ABS_MT_ORIENTATION
  | ABS_MT_POSITION_X, ABS_MT_POSITION_X | ABS_MT_POSITION_Y, ABS_MT_POSITION_Y
  | ABS_MT_TRACKING_ID, ABS_MT_TRACKING_ID | ABS_MT_PRESSURE, ABS_MT_PRESSURE
  | ABS_MT_DISTANCE, ABS_MT_DISTANCE | ABS_MT_TOOL_X, ABS_MT_TOOL_X
  | ABS_MT_TOOL_Y, ABS_MT_TOOL_Y | WMT_NO_CODE, WMT_NO_CODE => true
  | _, _ => false
  end.

(** What the driver hands to the evdev device: [evdev_push_abs] and
    [evdev_sync] calls, oldest first. *)
Inductive evdev_event :=
  | EvAbs (code : abs_code) (value : Z)
  | EvSync.

Definition evdev_dev := list evdev_event.

Definition evdev_push_abs (evdev : evdev_dev) (code : abs_code) (value : Z)
  : evdev_dev := evdev ++ [EvAbs code value].

Definition evdev_sync (evdev : evdev_dev) : evdev_dev := evdev ++ [EvSync].

Definition is_sync (e : evdev_event) : bool :=
  match e with EvSync => true | EvAbs _ _ => false end.

(** Number of sync signals the sink has received. *)
Definition sync_count (evdev : evdev_dev) : nat :=
  length (filter is_sync evdev).

(** ** Transport calls made by the mode selector *)

Inductive iichid_call :=
  | GetReport (len type id : Z)
  | SetReport (data : list Z) (len type id : Z).

(** ** External interfaces

    The constants and functions of <dev/usb/usbhid.h>, of evdev and of the
    iichid transport are not part of imt.c; the driver is modelled over any
    implementation of them. *)

Class UsbHid := {
  HID_USAGE2 : Z -> Z -> Z;
  HUP_GENERIC_DESKTOP : Z;
  HUP_DIGITIZERS : Z;
  HUP_MICROSOFT : Z;
  HUG_X : Z;
  HUG_Y : Z;
  HUD_TOUCHSCREEN : Z;
  HUD_TOUCHPAD : Z;
  HUD_CONFIG : Z;
  HUD_FINGER : Z;
  HUD_TIP_PRESSURE : Z;
  HUD_IN_RANGE : Z;
  HUD_TIP_SWITCH : Z;
  HUD_CONFIDENCE : Z;
  HUD_WIDTH : Z;
  HUD_HEIGHT : Z;
  HUD_CONTACTID : Z;
  HUD_INPUT_MODE : Z;
  HUD_CONTACTCOUNT : Z;
  HUD_CONTACT_MAX : Z;
  HUD_SCAN_TIME : Z;
  HIO_CONST : Z;
  HIO_VARIABLE : Z;
  HIO_RELATIVE : Z;
  (* numeric value of an [enum hid_kind] member, for [1 << k] *)
  hid_kind_code : hid_kind -> Z;
  (* the report descriptor behind [const void *d_ptr] *)
  hid_descriptor : Type;
  (* the items that successive [hid_get_item] calls return after
     [hid_start_parse(d_ptr, d_len, kindset)] *)
  hid_start_parse : hid_descriptor -> Z -> Z -> list hid_item;
  hid_item_resolution : hid_item -> Z;
  hid_get_data_unsigned : list Z -> Z -> hid_location -> Z;
  hid_put_data_unsigned : list Z -> Z -> hid_location -> Z -> list Z
}.

Class Evdev := {
  MAX_MT_SLOTS : Z;
  (* the slot allocator; it sees everything pushed so far; -1 is overflow *)
  evdev_get_mt_slot_by_tracking_id : evdev_dev -> Z -> Z
}.

Class Iichid := {
  EINVAL : Z;
  I2C_HID_REPORT_TYPE_FEATURE : Z;
  (* error code and the bytes read, given the calls made so far *)
  iichid_get_report : list iichid_call -> list Z -> Z -> Z -> Z -> Z * list Z;
  (* error code of the write *)
  iichid_set_report : list iichid_call -> list Z -> Z -> Z -> Z -> Z
}.

(** ** Channels *)

Definition WMT_BSIZE : Z := 1024.

Definition IMT_INPUT_MODE_MOUSE : Z := 0.
Definition IMT_INPUT_MODE_MT_TOUCHSCREEN : Z := 2.
Definition IMT_INPUT_MODE_MT_TOUCHPAD : Z := 3.

Definition WMT_TIP_SWITCH : nat := 0.
Definition WMT_SLOT : nat := WMT_TIP_SWITCH.
Definition WMT_WIDTH : nat := 1.
Definition WMT_MAJOR : nat := WMT_WIDTH.
Definition WMT_HEIGHT : nat := 2.
Definition WMT_MINOR : nat := WMT_HEIGHT.
Definition WMT_ORIENTATION : nat := 3.
Definition WMT_X : nat := 4.
Definition WMT_Y : nat := 5.
Definition WMT_CONTACTID : nat := 6.
Definition WMT_PRESSURE : nat := 7.
Definition WMT_IN_RANGE : nat := 8.
Definition WMT_CONFIDENCE : nat := 9.
Definition WMT_TOOL_X : nat := 10.
Definition WMT_TOOL_Y : nat := 11.
Definition WMT_N_USAGES : nat := 12.

Definition WMT_NO_USAGE : Z := -1.
Definition HUMS_THQA_CERT : Z := 0xC5.

Record wmt_hid_map_item := mk_map_item {
  map_usage : Z;         (* HID usage *)
  map_code : abs_code;   (* Evdev event code *)
  map_required : bool    (* Required for MT Digitizers *)
}.

Record wmt_absinfo := mk_absinfo {
  ai_min : Z;
  ai_max : Z;
  ai_res : Z
}.

(** [USAGE_SUPPORTED(caps, usage)]: [(caps) & (1 << (usage))], as a test. *)
Definition USAGE_SUPPORTED (caps : Z) (usage : nat) : bool :=
  negb (Z.land caps (Z.shiftl 1 (Z.of_nat usage)) =? 0).

Definition caps_set (caps : Z) (usage : nat) : Z :=
  Z.lor caps (Z.shiftl 1 (Z.of_nat usage)).

(** ** The driver state ([struct imt_softc]) *)

Record imt_softc := mk_softc {
  sc_type : Z;
  sc_ai : nat -> wmt_absinfo;                 (* ai[WMT_N_USAGES] *)
  sc_locs : nat -> nat -> hid_location;       (* locs[MAX_MT_SLOTS][WMT_N_USAGES] *)
  sc_cont_count_loc : hid_location;
  sc_slot_data : nat -> Z;                    (* slot_data[WMT_N_USAGES] *)
  sc_caps : Z;
  sc_isize : Z;
  sc_nconts_per_report : Z;
  sc_nconts_todo : Z;
  sc_report_id : Z;
  sc_cont_max_loc : hid_location;
  sc_cont_max_rlen : Z;
  sc_cont_max_rid : Z;
  sc_thqa_cert_rlen : Z;
  sc_thqa_cert_rid : Z;
  sc_input_mode_loc : hid_location;
  sc_input_mode_rlen : Z;
  sc_input_mode_rid : Z;
  sc_buf : list Z
}.

(** Assignment to one element of an array. *)
Definition upd {A} (f : nat -> A) (i : nat) (v : A) : nat -> A :=
  fun j => if Nat.eqb j i then v else f j.

Definition upd2 {A} (f : nat -> nat -> A) (c i : nat) (v : A)
  : nat -> nat -> A :=
  fun c' j => if Nat.eqb c' c && Nat.eqb j i then v else f c' j.

(** Assignments to the fields of [*sc]. *)
Definition set_ai (s : imt_softc) (v : nat -> wmt_absinfo) : imt_softc :=
  mk_softc (sc_type s) v (sc_locs s) (sc_cont_count_loc s) (sc_slot_data s)
    (sc_caps s) (sc_isize s) (sc_nconts_per_report s) (sc_nconts_todo s)
    (sc_report_id s) (sc_cont_max_loc s) (sc_cont_max_rlen s)
    (sc_cont_max_rid s) (sc_thqa_cert_rlen s) (sc_thqa_cert_rid s)
    (sc_input_mode_loc s) (sc_input_mode_rlen s) (sc_input_mode_rid s)
    (sc_buf s).

Definition set_locs (s : imt_softc) (v : nat -> nat -> hid_location)
  : imt_softc :=
  mk_softc (sc_type s) (sc_ai s) v (sc_cont_count_loc s) (sc_slot_data s)
    (sc_caps s) (sc_isize s) (sc_nconts_per_report s) (sc_nconts_todo s)
    (sc_report_id s) (sc_cont_max_loc s) (sc_cont_max_rlen s)
    (sc_cont_max_rid s) (sc_thqa_cert_rlen s) (sc_thqa_cert_rid s)
    (sc_input_mode_loc s) (sc_input_mode_rlen s) (sc_input_mode_rid s)
    (sc_buf s).

Definition set_cont_count_loc (s : imt_softc) (v : hid_location)
  : imt_softc :=
  mk_softc (sc_type s) (sc_ai s) (sc_locs s) v (sc_slot_data s)
    (sc_caps s) (sc_isize s) (sc_nconts_per_report s) (sc_nconts_todo s)
    (sc_report_id s) (sc_cont_max_loc s) (sc_cont_max_rlen s)
    (sc_cont_max_rid s) (sc_thqa_cert_rlen s) (sc_thqa_cert_rid s)
    (sc_input_mode_loc s) (sc_input_mode_rlen s) (sc_input_mode_rid s)
    (sc_buf s).

Definition set_slot_data (s : imt_softc) (v : nat -> Z) : imt_softc :=
  mk_softc (sc_type s) (sc_ai s) (sc_locs s) (sc_cont_count_loc s) v
    (sc_caps s) (sc_isize s) (sc_nconts_per_report s) (sc_nconts_todo s)
    (sc_report_id s) (sc_cont_max_loc s) (sc_cont_max_rlen s)
    (sc_cont_max_rid s) (sc_thqa_cert_rlen s) (sc_thqa_cert_rid s)
    (sc_input_mode_loc s) (sc_input_mode_rlen s) (sc_input_mode_rid s)
    (sc_buf s).

Definition set_nconts_todo (s : imt_softc) (v : Z) : imt_softc :=
  mk_softc (sc_type s) (sc_ai s) (sc_locs s) (sc_cont_count_loc s)
    (sc_slot_data s) (sc_caps s) (sc_isize s) (sc_nconts_per_report s) v
    (sc_report_id s) (sc_cont_max_loc s) (sc_cont_max_rlen s)
    (sc_cont_max_rid s) (sc_thqa_cert_rlen s) (sc_thqa_cert_rid s)
    (sc_input_mode_loc s) (sc_input_mode_rlen s) (sc_input_mode_rid s)
    (sc_buf s).

Definition set_cont_max_loc (s : imt_softc) (v : hid_location) : imt_softc :=
  mk_softc (sc_type s) (sc_ai s) (sc_locs s) (sc_cont_count_loc s)
    (sc_slot_data s) (sc_caps s) (sc_isize s) (sc_nconts_per_report s)
    (sc_nconts_todo s) (sc_report_id s) v (sc_cont_max_rlen s)
    (sc_cont_max_rid s) (sc_thqa_cert_rlen s) (sc_thqa_cert_rid s)
    (sc_input_mode_loc s) (sc_input_mode_rlen s) (sc_input_mode_rid s)
    (sc_buf s).

Definition set_input_mode_loc (s : imt_softc) (v : hid_location)
  : imt_softc :=
  mk_softc (sc_type s) (sc_ai s) (sc_locs s) (sc_cont_count_loc s)
    (sc_slot_data s) (sc_caps s) (sc_isize s) (sc_nconts_per_report s)
    (sc_nconts_todo s) (sc_report_id s) (sc_cont_max_loc s)
    (sc_cont_max_rlen s) (sc_cont_max_rid s) (sc_thqa_cert_rlen s)
    (sc_thqa_cert_rid s) v (sc_input_mode_rlen s) (sc_input_mode_rid s)
    (sc_buf s).

Definition set_buf (s : imt_softc) (v : list Z) : imt_softc :=
  mk_softc (sc_type s) (sc_ai s) (sc_locs s) (sc_cont_count_loc s)
    (sc_slot_data s) (sc_caps s) (sc_isize s) (sc_nconts_per_report s)
    (sc_nconts_todo s) (sc_report_id s) (sc_cont_max_loc s)
    (sc_cont_max_rlen s) (sc_cont_max_rid s) (sc_thqa_cert_rlen s)
    (sc_thqa_cert_rid s) (sc_input_mode_loc s) (sc_input_mode_rlen s)
    (sc_input_mode_rid s) v.

(** [bzero(buf + off, n)]: bytes of the buffer from [off] on, [n] of them,
    become zero.  A write past the end of the list (past the memory the
    caller handed over) is not represented. *)
Fixpoint bzero (buf : list Z) (off n : nat) : list Z :=
  match buf with
  | [] => []
  | b :: rest =>
      match off with
      | S off' => b :: bzero rest off' n
      | O => match n with
             | S n' => 0 :: bzero rest O n'
             | O => b :: rest
             end
      end
  end.

(** ** The local variables of [wmt_hid_parse] *)

Record parse_locals := mk_locals {
  cont : nat;               (* size_t *)
  type : Z;
  caps : Z;                 (* uint32_t *)
  cont_count_max : Z;       (* int32_t *)
  report_id : Z;
  cont_max_rid : Z;
  thqa_cert_rid : Z;
  input_mode_rid : Z;
  touch_coll : bool;
  finger_coll : bool;
  conf_coll : bool;
  cont_count_found : bool;
  scan_time_found : bool
}.

Definition locals_init : parse_locals :=
  mk_locals 0 0 0 0 0 0 0 0 false false false false false.

Definition set_cont (l : parse_locals) (v : nat) :=
  mk_locals v (type l) (caps l) (cont_count_max l) (report_id l)
    (cont_max_rid l) (thqa_cert_rid l) (input_mode_rid l) (touch_coll l)
    (finger_coll l) (conf_coll l) (cont_count_found l) (scan_time_found l).
Definition set_type (l : parse_locals) (v : Z) :=
  mk_locals (cont l) v (caps l) (cont_count_max l) (report_id l)
    (cont_max_rid l) (thqa_cert_rid l) (input_mode_rid l) (touch_coll l)
    (finger_coll l) (conf_coll l) (cont_count_found l) (scan_time_found l).
Definition set_caps (l : parse_locals) (v : Z) :=
  mk_locals (cont l) (type l) v (cont_count_max l) (report_id l)
    (cont_max_rid l) (thqa_cert_rid l) (input_mode_rid l) (touch_coll l)
    (finger_coll l) (conf_coll l) (cont_count_found l) (scan_time_found l).
Definition set_cont_count_max (l : parse_locals) (v : Z) :=
  mk_locals (cont l) (type l) (caps l) v (report_id l)
    (cont_max_rid l) (thqa_cert_rid l) (input_mode_rid l) (touch_coll l)
    (finger_coll l) (conf_coll l) (cont_count_found l) (scan_time_found l).
Definition set_report_id (l : parse_locals) (v : Z) :=
  mk_locals (cont l) (type l) (caps l) (cont_count_max l) v
    (cont_max_rid l) (thqa_cert_rid l) (input_mode_rid l) (touch_coll l)
    (finger_coll l) (conf_coll l) (cont_count_found l) (scan_time_found l).
Definition set_cont_max_rid (l : parse_locals) (v : Z) :=
  mk_locals (cont l) (type l) (caps l) (cont_count_max l) (report_id l)
    v (thqa_cert_rid l) (input_mode_rid l) (touch_coll l)
    (finger_coll l) (conf_coll l) (cont_count_found l) (scan_time_found l).
Definition set_thqa_cert_rid (l : parse_locals) (v : Z) :=
  mk_locals (cont l) (type l) (caps l) (cont_count_max l) (report_id l)
    (cont_max_rid l) v (input_mode_rid l) (touch_coll l)
    (finger_coll l) (conf_coll l) (cont_count_found l) (scan_time_found l).
Definition set_input_mode_rid (l : parse_locals) (v : Z) :=
  mk_locals (cont l) (type l) (caps l) (cont_count_max l) (report_id l)
    (cont_max_rid l) (thqa_cert_rid l) v (touch_coll l)
    (finger_coll l) (conf_coll l) (cont_count_found l) (scan_time_found l).
Definition set_touch_coll (l : parse_locals) (v : bool) :=
  mk_locals (cont l) (type l) (caps l) (cont_count_max l) (report_id l)
    (cont_max_rid l) (thqa_cert_rid l) (input_mode_rid l) v
    (finger_coll l) (conf_coll l) (cont_count_found l) (scan_time_found l).
Definition set_finger_coll (l : parse_locals) (v : bool) :=
  mk_locals (cont l) (type l) (caps l) (cont_count_max l) (report_id l)
    (cont_max_rid l) (thqa_cert_rid l) (input_mode_rid l) (touch_coll l)
    v (conf_coll l) (cont_count_found l) (scan_time_found l).
Definition set_conf_coll (l : parse_locals) (v : bool) :=
  mk_locals (cont l) (type l) (caps l) (cont_count_max l) (report_id l)
    (cont_max_rid l) (thqa_cert_rid l) (input_mode_rid l) (touch_coll l)
    (finger_coll l) v (cont_count_found l) (scan_time_found l).
Definition set_cont_count_found (l : parse_locals) (v : bool) :=
  mk_locals (cont l) (type l) (caps l) (cont_count_max l) (report_id l)
    (cont_max_rid l) (thqa_cert_rid l) (input_mode_rid l) (touch_coll l)
    (finger_coll l) (conf_coll l) v (scan_time_found l).
Definition set_scan_time_found (l : parse_locals) (v : bool) :=
  mk_locals (cont l) (type l) (caps l) (cont_count_max l) (report_id l)
    (cont_max_rid l) (thqa_cert_rid l) (input_mode_rid l) (touch_coll l)
    (finger_coll l) (conf_coll l) (cont_count_found l) v.

Section Driver.

Context {usbhid : UsbHid} {evdev_if : Evdev} {iichid_if : Iichid}.

(** ** The channel table [wmt_hid_map] *)

Definition wmt_hid_map (i : nat) : wmt_hid_map_item :=
  match i with
  | 0%nat => (* WMT_TIP_SWITCH, WMT_SLOT *)
      mk_map_item (HID_USAGE2 HUP_DIGITIZERS HUD_TIP_SWITCH) ABS_MT_SLOT true
  | 1%nat => (* WMT_WIDTH, WMT_MAJOR *)
      mk_map_item (HID_USAGE2 HUP_DIGITIZERS HUD_WIDTH) ABS_MT_TOUCH_MAJOR
        false
  | 2%nat => (* WMT_HEIGHT, WMT_MINOR *)
      mk_map_item (HID_USAGE2 HUP_DIGITIZERS HUD_HEIGHT) ABS_MT_TOUCH_MINOR
        false
  | 3%nat => (* WMT_ORIENTATION *)
      mk_map_item WMT_NO_USAGE ABS_MT_ORIENTATION false
  | 4%nat => (* WMT_X *)
      mk_map_item (HID_USAGE2 HUP_GENERIC_DESKTOP HUG_X) ABS_MT_POSITION_X
        true
  | 5%nat => (* WMT_Y *)
      mk_map_item (HID_USAGE2 HUP_GENERIC_DESKTOP HUG_Y) ABS_MT_POSITION_Y
        true
  | 6%nat => (* WMT_CONTACTID *)
      mk_map_item (HID_USAGE2 HUP_DIGITIZERS HUD_CONTACTID)
        ABS_MT_TRACKING_ID true
  | 7%nat => (* WMT_PRESSURE *)
      mk_map_item (HID_USAGE2 HUP_DIGITIZERS HUD_TIP_PRESSURE)
        ABS_MT_PRESSURE false
  | 8%nat => (* WMT_IN_RANGE *)
      mk_map_item (HID_USAGE2 HUP_DIGITIZERS HUD_IN_RANGE) ABS_MT_DISTANCE
        false
  | 9%nat => (* WMT_CONFIDENCE *)
      mk_map_item (HID_USAGE2 HUP_DIGITIZERS HUD_CONFIDENCE) WMT_NO_CODE
        false
  | 10%nat => (* WMT_TOOL_X, shares HID usage with WMT_X *)
      mk_map_item (HID_USAGE2 HUP_GENERIC_DESKTOP HUG_X) ABS_MT_TOOL_X false
  | 11%nat => (* WMT_TOOL_Y, shares HID usage with WMT_Y *)
      mk_map_item (HID_USAGE2 HUP_GENERIC_DESKTOP HUG_Y) ABS_MT_TOOL_Y false
  | _ => mk_map_item WMT_NO_USAGE WMT_NO_CODE false
  end.

(** ** Report Size Calculator: [wmt_hid_report_size] *)

(** One turn of the loop over the items; the accumulator is [(hpos, lpos)]. *)
Definition report_size_item (k : hid_kind) (id : Z) (acc : Z * Z)
  (h : hid_item) : Z * Z :=
  let '(hpos, lpos) := acc in
  if hid_kind_eqb (kind h) k && (report_ID h =? id) then
    (* compute minimum *)
    let lpos := if lpos >? pos (loc h) then pos (loc h) else lpos in
    (* compute end position *)
    let temp :=
      to_uint32 (pos (loc h) + to_uint32 (size (loc h) * count (loc h))) in
    (* compute maximum *)
    let hpos := if hpos <? temp then temp else hpos in
    (hpos, lpos)
  else acc.

Definition report_size_of_items (items : list hid_item) (k : hid_kind)
  (id : Z) : Z :=
  let '(hpos, lpos) :=
    fold_left (report_size_item k id) items (0, 0xFFFFFFFF) in
  (* safety check - can happen in case of corrupt descriptors *)
  let temp := if lpos >? hpos then 0 else to_uint32 (hpos - lpos) in
  (* return length in bytes rounded up *)
  to_uint32 (temp + 7) / 8.

Definition wmt_hid_report_size (buf : hid_descriptor) (len : Z)
  (k : hid_kind) (id : Z) : Z :=
  report_size_of_items
    (hid_start_parse buf len (Z.shiftl 1 (hid_kind_code k))) k id.

(** ** Descriptor Analyzer: [wmt_hid_parse] *)

Definition WMT_HI_ABSOLUTE (hi : hid_item) : bool :=
  Z.land (flags hi) (Z.lor (Z.lor HIO_CONST HIO_VARIABLE) HIO_RELATIVE)
  =? HIO_VARIABLE.

(** Body of the first [while (hid_get_item(hd, &hi))] loop (features). *)
Definition parse_feature_item (sc : option imt_softc) (l : parse_locals)
  (hi : hid_item) : option imt_softc * parse_locals :=
  match kind hi with
  | hid_collection =>
      let l :=
        if (collevel hi =? 1)
           && (usage hi =? HID_USAGE2 HUP_DIGITIZERS HUD_TOUCHSCREEN)
        then set_touch_coll l true else l in
      let l :=
        if (collevel hi =? 1)
           && (usage hi =? HID_USAGE2 HUP_DIGITIZERS HUD_TOUCHPAD)
        then set_touch_coll l true else l in
      let l :=
        if (collevel hi =? 1)
           && (usage hi =? HID_USAGE2 HUP_DIGITIZERS HUD_CONFIG)
        then set_conf_coll l true else l in
      (sc, l)
  | hid_endcollection =>
      let l :=
        if (collevel hi =? 0) && touch_coll l
        then set_touch_coll l false else l in
      (* break; the test of conf_coll that follows it is never executed *)
      (sc, l)
  | hid_feature =>
      if (collevel hi =? 1) && touch_coll l
         && (usage hi =? HID_USAGE2 HUP_MICROSOFT HUMS_THQA_CERT)
      then (sc, set_thqa_cert_rid l (report_ID hi))
      else
        let '(sc, l) :=
          if (collevel hi =? 1) && touch_coll l && WMT_HI_ABSOLUTE hi
             && (usage hi =? HID_USAGE2 HUP_DIGITIZERS HUD_CONTACT_MAX)
          then
            (option_map (fun s => set_cont_max_loc s (loc hi)) sc,
             set_cont_max_rid
               (set_cont_count_max l (logical_maximum hi)) (report_ID hi))
          else (sc, l) in
        if conf_coll l && WMT_HI_ABSOLUTE hi
           && (usage hi =? HID_USAGE2 HUP_DIGITIZERS HUD_INPUT_MODE)
        then
          (option_map (fun s => set_input_mode_loc s (loc hi)) sc,
           set_input_mode_rid l (report_ID hi))
        else (sc, l)
  | _ => (sc, l)
  end.

(** The [for (i = 0; i < WMT_N_USAGES; i++)] loop that binds an input item
    to a channel; [idx] are the indices still to visit. *)
Fixpoint wmt_bind_usage (sc : option imt_softc) (l : parse_locals)
  (hi : hid_item) (idx : list nat) : option imt_softc * parse_locals :=
  match idx with
  | [] => (sc, l)
  | i :: rest =>
      if usage hi =? map_usage (wmt_hid_map i) then
        match sc with
        | None =>
            if USAGE_SUPPORTED (caps l) i
            then wmt_bind_usage sc l hi rest               (* continue *)
            else (None, set_caps l (caps_set (caps l) i))  (* break *)
        | Some s =>
            if negb (size (sc_locs s (cont l) i) =? 0)
            then wmt_bind_usage sc l hi rest               (* continue *)
            else
              let s := set_locs s (upd2 (sc_locs s) (cont l) i (loc hi)) in
              if (0 <? cont l)%nat then (Some s, l)        (* break *)
              else
                (Some (set_ai s
                         (upd (sc_ai s) i
                            (mk_absinfo (logical_minimum hi)
                               (logical_maximum hi)
                               (hid_item_resolution hi)))),
                 set_caps l (caps_set (caps l) i))         (* break *)
        end
      else wmt_bind_usage sc l hi rest
  end.

(** [MAX_MT_SLOTS] converted for the comparison with the [size_t] [cont]. *)
Definition to_size_t (z : Z) : Z := z mod 2 ^ 64.

(** Body of the second loop (inputs). *)
Definition parse_input_item (sc : option imt_softc) (l : parse_locals)
  (hi : hid_item) : option imt_softc * parse_locals :=
  match kind hi with
  | hid_collection =>
      let l :=
        if (collevel hi =? 1)
           && (usage hi =? HID_USAGE2 HUP_DIGITIZERS HUD_TOUCHSCREEN)
        then set_type (set_touch_coll l true) HUD_TOUCHSCREEN else l in
      if (collevel hi =? 1)
         && (usage hi =? HID_USAGE2 HUP_DIGITIZERS HUD_TOUCHPAD)
      then (sc, set_type (set_touch_coll l true) HUD_TOUCHPAD)
      else if touch_coll l && (collevel hi =? 2)
              && ((report_id l =? 0) || (report_id l =? report_ID hi))
              && (usage hi =? HID_USAGE2 HUP_DIGITIZERS HUD_FINGER)
      then (sc, set_finger_coll l true)
      else (sc, l)
  | hid_endcollection =>
      if (collevel hi =? 1) && finger_coll l
      then (sc, set_cont (set_finger_coll l false) (S (cont l)))
      else if (collevel hi =? 0) && touch_coll l
      then (sc, set_touch_coll l false)
      else (sc, l)
  | hid_input =>
      (* Ensure that all usages are located within the same report and
         proper collection. *)
      if WMT_HI_ABSOLUTE hi && touch_coll l
         && ((report_id l =? 0) || (report_id l =? report_ID hi))
      then
        let l := set_report_id l (report_ID hi) in
        if (collevel hi =? 1)
           && (usage hi =? HID_USAGE2 HUP_DIGITIZERS HUD_CONTACTCOUNT)
        then
          (option_map (fun s => set_cont_count_loc s (loc hi)) sc,
           set_cont_count_found l true)
        else if (collevel hi =? 1)
                && (usage hi =? HID_USAGE2 HUP_DIGITIZERS HUD_SCAN_TIME)
        then (sc, set_scan_time_found l true)
        else if negb (finger_coll l) || negb (collevel hi =? 2)
        then (sc, l)
        else if match sc with None => (0 <? cont l)%nat | Some _ => false end
        then (sc, l)
        else if Z.of_nat (cont l) >=? to_size_t MAX_MT_SLOTS
        then (sc, l)
        else wmt_bind_usage sc l hi (seq 0 WMT_N_USAGES)
      else (sc, l)
  | _ => (sc, l)
  end.

Definition parse_items
  (step : option imt_softc -> parse_locals -> hid_item ->
          option imt_softc * parse_locals)
  (items : list hid_item) (sc : option imt_softc) (l : parse_locals)
  : option imt_softc * parse_locals :=
  fold_left (fun acc hi => step (fst acc) (snd acc) hi) items (sc, l).

(** The first pass: [Parse features for maximum contact count]. *)
Definition wmt_parse_features (sc : option imt_softc) (d_ptr : hid_descriptor)
  (d_len : Z) : option imt_softc * parse_locals :=
  parse_items parse_feature_item
    (hid_start_parse d_ptr d_len (Z.shiftl 1 (hid_kind_code hid_feature)))
    sc locals_init.

(** The second pass: [Parse input for other parameters]. *)
Definition wmt_parse_inputs (sc : option imt_softc) (l : parse_locals)
  (d_ptr : hid_descriptor) (d_len : Z) : option imt_softc * parse_locals :=
  parse_items parse_input_item
    (hid_start_parse d_ptr d_len (Z.shiftl 1 (hid_kind_code hid_input)))
    sc (set_touch_coll l false).

(** The loop [Check for required HID Usages]. *)
Definition wmt_required_present (caps : Z) : bool :=
  forallb
    (fun i => negb (map_required (wmt_hid_map i) && negb (USAGE_SUPPORTED caps i)))
    (seq 0 WMT_N_USAGES).

Definition wmt_found_all (l : parse_locals) : bool :=
  negb (negb (cont_count_found l) || negb (scan_time_found l)
        || (cont l =? 0)%nat).

(** The contact count maximum taken from the descriptor: the default when
    it is below 1, the cap to [MAX_MT_SLOTS]. *)
Definition wmt_descr_cont_max (l : parse_locals) : Z :=
  let cont_count_max :=
    if cont_count_max l <? 1 then to_int32 (Z.of_nat (cont l))
    else cont_count_max l in
  if cont_count_max >? MAX_MT_SLOTS then MAX_MT_SLOTS else cont_count_max.

(** What [wmt_hid_parse] stores in [*sc] once the descriptor has passed the
    checks (attach only). *)
Definition wmt_hid_publish (s : imt_softc) (l : parse_locals)
  (d_ptr : hid_descriptor) (d_len : Z) : imt_softc :=
  let cont_count_max := wmt_descr_cont_max l in
  (* Set number of MT protocol type B slots *)
  let ai := upd (sc_ai s) WMT_SLOT (mk_absinfo 0 (cont_count_max - 1) 0) in
  (* Report touch orientation if both width and height are supported *)
  let orient :=
    USAGE_SUPPORTED (caps l) WMT_WIDTH && USAGE_SUPPORTED (caps l) WMT_HEIGHT in
  let caps := if orient then caps_set (caps l) WMT_ORIENTATION else caps l in
  let ai :=
    if orient
    then upd ai WMT_ORIENTATION
           (mk_absinfo (ai_min (ai WMT_ORIENTATION)) 1
              (ai_res (ai WMT_ORIENTATION)))
    else ai in
  mk_softc (sc_type s) ai (sc_locs s) (sc_cont_count_loc s) (sc_slot_data s)
    caps
    (to_uint32 (wmt_hid_report_size d_ptr d_len hid_input (report_id l)))
    (to_uint32 (Z.of_nat (cont l)))
    (sc_nconts_todo s)
    (report_id l)
    (sc_cont_max_loc s)
    (to_uint32 (wmt_hid_report_size d_ptr d_len hid_feature (cont_max_rid l)))
    (cont_max_rid l)
    (if thqa_cert_rid l >? 0
     then to_uint32
            (wmt_hid_report_size d_ptr d_len hid_feature (thqa_cert_rid l))
     else sc_thqa_cert_rlen s)
    (thqa_cert_rid l)
    (sc_input_mode_loc s)
    (if input_mode_rid l >? 0
     then to_uint32
            (wmt_hid_report_size d_ptr d_len hid_feature (input_mode_rid l))
     else sc_input_mode_rlen s)
    (input_mode_rid l)
    (sc_buf s).

(** [wmt_hid_parse(sc, d_ptr, d_len)]: [sc] is [None] for the probe
    ([sc == NULL]); the result is the returned type (0 on rejection) and
    what [*sc] holds afterwards. *)
Definition wmt_hid_parse (sc : option imt_softc) (d_ptr : hid_descriptor)
  (d_len : Z) : Z * option imt_softc :=
  let '(sc, l) := wmt_parse_features sc d_ptr d_len in
  (* Maximum contact count is required usage *)
  if cont_max_rid l =? 0 then (0, sc) else
  let '(sc, l) := wmt_parse_inputs sc l d_ptr d_len in
  (* Check for required HID Usages *)
  if negb (wmt_found_all l) then (0, sc) else
  if negb (wmt_required_present (caps l)) then (0, sc) else
  match sc with
  | None => (type l, None)                 (* Stop probing here *)
  | Some s => (type l, Some (wmt_hid_publish s l d_ptr d_len))
  end.

(** ** Feature Refinement: [wmt_cont_max_parse] *)

(** The decoded feature value after the clamp to [MAX_MT_SLOTS]
    ([cont_count_max] is [uint32_t], so the constant is converted). *)
Definition wmt_feature_cont_max (sc : imt_softc) (r_ptr : list Z) (r_len : Z)
  : Z :=
  let cont_count_max :=
    to_uint32 (hid_get_data_unsigned r_ptr r_len (sc_cont_max_loc sc)) in
  if cont_count_max >? to_uint32 MAX_MT_SLOTS
  then to_uint32 MAX_MT_SLOTS else cont_count_max.

Definition wmt_cont_max_parse (sc : imt_softc) (r_ptr : list Z) (r_len : Z)
  : imt_softc :=
  let cont_count_max := wmt_feature_cont_max sc r_ptr r_len in
  (* Feature report is a primary source of 'Contact Count Maximum' *)
  if (cont_count_max >? 0)
     && negb (cont_count_max =? to_uint32 (ai_max (sc_ai sc WMT_SLOT) + 1))
  then
    set_ai sc
      (upd (sc_ai sc) WMT_SLOT
         (mk_absinfo (ai_min (sc_ai sc WMT_SLOT))
            (to_int32 (cont_count_max - 1))
            (ai_res (sc_ai sc WMT_SLOT))))
  else sc.

(** ** Mode Selector: [imt_set_input_mode]

    The result is the returned error code, [*sc] afterwards and the
    transport calls made so far ([io], oldest first). *)

Definition imt_input_mode_guard (sc : imt_softc) : bool :=
  (sc_input_mode_rlen sc =? 0) && (sc_input_mode_rlen sc >? WMT_BSIZE).

Definition imt_set_input_mode (sc : imt_softc) (io : list iichid_call)
  (mode : Z) : Z * imt_softc * list iichid_call :=
  if imt_input_mode_guard sc then (EINVAL, sc, io) else
  (* Input Mode report is not strictly required to be readable *)
  let '(error, buf) :=
    iichid_get_report io (sc_buf sc) (sc_input_mode_rlen sc)
      I2C_HID_REPORT_TYPE_FEATURE (sc_input_mode_rid sc) in
  let io :=
    io ++ [GetReport (sc_input_mode_rlen sc) I2C_HID_REPORT_TYPE_FEATURE
             (sc_input_mode_rid sc)] in
  let buf :=
    if negb (error =? 0)
    then bzero buf 0 (Z.to_nat (sc_input_mode_rlen sc)) else buf in
  let buf :=
    hid_put_data_unsigned buf (sc_input_mode_rlen sc) (sc_input_mode_loc sc)
      mode in
  let error :=
    iichid_set_report io buf (sc_input_mode_rlen sc)
      I2C_HID_REPORT_TYPE_FEATURE (sc_input_mode_rid sc) in
  (error, set_buf sc buf,
   io ++ [SetReport buf (sc_input_mode_rlen sc) I2C_HID_REPORT_TYPE_FEATURE
            (sc_input_mode_rid sc)]).

(** ** Report Decoder: [imt_intr] *)

(** [slot_data] after the [bzero] and the [WMT_FOREACH_USAGE] loop that
    decodes the fields of contact [cont]. *)
Definition imt_slot_data (sc : imt_softc) (buf : list Z) (len : Z)
  (cont : nat) : nat -> Z :=
  fun usage =>
    if (usage <? WMT_N_USAGES)%nat && USAGE_SUPPORTED (sc_caps sc) usage
       && (size (sc_locs sc cont usage) >? 0)
    then to_uint32 (hid_get_data_unsigned buf len (sc_locs sc cont usage))
    else 0.

(** The liveness test of a contact. *)
Definition imt_contact_active (sc : imt_softc) (slot_data : nat -> Z)
  : bool :=
  negb (slot_data WMT_TIP_SWITCH =? 0)
  && negb (USAGE_SUPPORTED (sc_caps sc) WMT_CONFIDENCE
           && (slot_data WMT_CONFIDENCE =? 0)).

(** The scratch values of a contact in proximity of the sensor. *)
Definition imt_active_slot_data (slot_data : nat -> Z) (slot : Z)
  : nat -> Z :=
  let slot_data := upd slot_data WMT_SLOT (to_uint32 slot) in
  let slot_data :=
    upd slot_data WMT_IN_RANGE (c_not (slot_data WMT_IN_RANGE)) in
  (* Divided by two to match visual scale of touch *)
  let width := Z.shiftr (slot_data WMT_WIDTH) 1 in
  let height := Z.shiftr (slot_data WMT_HEIGHT) 1 in
  let slot_data := upd slot_data WMT_ORIENTATION (c_bool (width >? height)) in
  let slot_data := upd slot_data WMT_MAJOR (MAX width height) in
  upd slot_data WMT_MINOR (MIN width height).

(** The last [WMT_FOREACH_USAGE] loop: one event per supported channel with
    a code. *)
Definition imt_push_slot (caps : Z) (slot_data : nat -> Z)
  (evdev : evdev_dev) : evdev_dev :=
  fold_left
    (fun ev usage =>
       if USAGE_SUPPORTED caps usage
          && negb (abs_code_eqb (map_code (wmt_hid_map usage)) WMT_NO_CODE)
       then evdev_push_abs ev (map_code (wmt_hid_map usage))
              (to_int32 (slot_data usage))
       else ev)
    (seq 0 WMT_N_USAGES) evdev.

(** Body of [for (cont = 0; cont < cont_count; cont++)]. *)
Definition imt_intr_contact (buf : list Z) (len : Z)
  (st : imt_softc * evdev_dev) (cont : nat) : imt_softc * evdev_dev :=
  let '(sc, evdev) := st in
  let slot_data := imt_slot_data sc buf len cont in
  let slot :=
    evdev_get_mt_slot_by_tracking_id evdev
      (to_int32 (slot_data WMT_CONTACTID)) in
  if slot =? -1 then (set_slot_data sc slot_data, evdev)   (* continue *)
  else if imt_contact_active sc slot_data then
    (* This finger is in proximity of the sensor *)
    let slot_data := imt_active_slot_data slot_data slot in
    (set_slot_data sc slot_data, imt_push_slot (sc_caps sc) slot_data evdev)
  else
    (set_slot_data sc slot_data,
     evdev_push_abs (evdev_push_abs evdev ABS_MT_SLOT slot)
       ABS_MT_TRACKING_ID (-1)).

(** The buffer as decoded: a report shorter than [isize] is zero-extended. *)
Definition imt_intr_buf (sc : imt_softc) (buf : list Z) (len : Z) : list Z :=
  if to_uint32 len <? sc_isize sc
  then bzero buf (Z.to_nat len) (Z.to_nat (to_uint32 (sc_isize sc - len)))
  else buf.

(** The contact count field of a report. *)
Definition imt_cont_count (sc : imt_softc) (buf : list Z) (len : Z) : Z :=
  to_uint32
    (hid_get_data_unsigned (imt_intr_buf sc buf len) len
       (sc_cont_count_loc sc)).

(** [nconts_todo] once the contact count field has been looked at. *)
Definition imt_nconts_todo (sc : imt_softc) (buf : list Z) (len : Z) : Z :=
  if negb (imt_cont_count sc buf len =? 0)
  then imt_cont_count sc buf len else sc_nconts_todo sc.

(** The number of contacts reported in the current report: the bound of the
    loop over the contacts. *)
Definition imt_nconts (sc : imt_softc) (buf : list Z) (len : Z) : Z :=
  MIN (imt_nconts_todo sc buf len) (sc_nconts_per_report sc).

Definition imt_intr (sc : imt_softc) (evdev : evdev_dev) (buf : list Z)
  (len : Z) (id : Z) : imt_softc * evdev_dev :=
  (* Ignore irrelevant reports *)
  if negb (sc_report_id sc =? id) then (sc, evdev) else
  let sc' := set_nconts_todo sc (imt_nconts_todo sc buf len) in
  (* Find the number of contacts reported in current report *)
  let cont_count := imt_nconts sc buf len in
  (* Use protocol Type B for reporting events *)
  let '(sc', evdev) :=
    fold_left (imt_intr_contact (imt_intr_buf sc buf len) len)
      (seq 0 (Z.to_nat cont_count)) (sc', evdev) in
  let sc' :=
    set_nconts_todo sc' (to_uint32 (sc_nconts_todo sc' - cont_count)) in
  if sc_nconts_todo sc' =? 0 then (sc', evdev_sync evdev) else (sc', evdev).

(** ** Notions used to state the properties of the analyzer *)

(** The fields of [*sc] that the two walks never write: everything but
    [ai], [locs] and the three locations recorded on the way. *)
Definition same_published (s s' : imt_softc) : Prop :=
  sc_type s' = sc_type s /\ sc_slot_data s' = sc_slot_data s
  /\ sc_caps s' = sc_caps s /\ sc_isize s' = sc_isize s
  /\ sc_nconts_per_report s' = sc_nconts_per_report s
  /\ sc_nconts_todo s' = sc_nconts_todo s
  /\ sc_report_id s' = sc_report_id s
  /\ sc_cont_max_rlen s' = sc_cont_max_rlen s
  /\ sc_cont_max_rid s' = sc_cont_max_rid s
  /\ sc_thqa_cert_rlen s' = sc_thqa_cert_rlen s
  /\ sc_thqa_cert_rid s' = sc_thqa_cert_rid s
  /\ sc_input_mode_rlen s' = sc_input_mode_rlen s
  /\ sc_input_mode_rid s' = sc_input_mode_rid s
  /\ sc_buf s' = sc_buf s.

Definition nothing_published (sc sc' : option imt_softc) : Prop :=
  match sc, sc' with
  | None, None => True
  | Some s, Some s' => same_published s s'
  | _, _ => False
  end.

(** The input items that the second walk meets at depth 2 while it is
    inside a finger collection. *)
Fixpoint finger_fields_seen (sc : option imt_softc) (l : parse_locals)
  (items : list hid_item) : list hid_item :=
  match items with
  | [] => []
  | hi :: rest =>
      (if hid_kind_eqb (kind hi) hid_input && finger_coll l
          && (collevel hi =? 2)
       then [hi] else [])
      ++ finger_fields_seen (fst (parse_input_item sc l hi))
           (snd (parse_input_item sc l hi)) rest
  end.

Definition wmt_finger_fields (sc : option imt_softc) (d_ptr : hid_descriptor)
  (d_len : Z) : list hid_item :=
  let '(sc1, l1) := wmt_parse_features sc d_ptr d_len in
  finger_fields_seen sc1 (set_touch_coll l1 false)
    (hid_start_parse d_ptr d_len (Z.shiftl 1 (hid_kind_code hid_input))).

(** The locals of [wmt_hid_parse] when the second walk is over. *)
Definition wmt_parse_walks (sc : option imt_softc) (d_ptr : hid_descriptor)
  (d_len : Z) : option imt_softc * parse_locals :=
  let '(sc1, l1) := wmt_parse_features sc d_ptr d_len in
  wmt_parse_inputs sc1 l1 d_ptr d_len.

(** The contact count maximum the descriptor declares. *)
Definition wmt_declared_cont_max (sc : option imt_softc)
  (d_ptr : hid_descriptor) (d_len : Z) : Z :=
  cont_count_max (snd (wmt_parse_features sc d_ptr d_len)).

(** The number of finger collections the descriptor encloses. *)
Definition wmt_finger_collections (sc : option imt_softc)
  (d_ptr : hid_descriptor) (d_len : Z) : nat :=
  cont (snd (wmt_parse_walks sc d_ptr d_len)).

(** Channel [i] is the first entry of [wmt_hid_map] with its usage code. *)
Definition usage_first (i : nat) : bool :=
  forallb
    (fun j => negb (map_usage (wmt_hid_map j) =? map_usage (wmt_hid_map i)))
    (seq 0 i).

(** No required channel shares its usage code with an earlier entry of the
    table (X and Y come before TOOL_X and TOOL_Y). *)
Definition wmt_required_first : bool :=
  forallb (fun i => negb (map_required (wmt_hid_map i)) || usage_first i)
    (seq 0 WMT_N_USAGES).

(** The first walk leaves the location table and the published fields alone
    and does not turn a probe into an attach. *)
Definition features_frame (sc sc' : option imt_softc) : Prop :=
  match sc, sc' with
  | None, None => True
  | Some s, Some s' => same_published s s' /\ sc_locs s' = sc_locs s
  | _, _ => False
  end.

(** The attach and the probe in step: the same locals but for [caps], and
    the same capability bit for every channel that is first for its usage,
    whose location is still empty while the bit is clear. *)
Definition probe_sim (a b : option imt_softc * parse_locals) : Prop :=
  exists s,
    fst a = Some s /\ fst b = None
    /\ snd a = set_caps (snd b) (caps (snd a))
    /\ forall i, usage_first i = true ->
         USAGE_SUPPORTED (caps (snd a)) i = USAGE_SUPPORTED (caps (snd b)) i
         /\ (USAGE_SUPPORTED (caps (snd a)) i = false ->
             size (sc_locs s 0 i) = 0).

(** The attach and the probe in lockstep: the same locals, [caps] too, and
    a capability bit for exactly the channels whose location for the first
    finger is not empty. *)
Definition probe_sim_full (a b : option imt_softc * parse_locals) : Prop :=
  exists s,
    fst a = Some s /\ fst b = None /\ snd a = snd b
    /\ forall i,
         USAGE_SUPPORTED (caps (snd a)) i
         = negb (size (sc_locs s 0 i) =? 0).

(** ** Notions used to state the properties of the decoder *)

(** The values the sink has received for one event code, oldest first. *)
Definition abs_values (c : abs_code) (evdev : evdev_dev) : list Z :=
  flat_map
    (fun e => match e with
              | EvAbs c' v => if abs_code_eqb c' c then [v] else []
              | EvSync => []
              end) evdev.

(** What one contact adds to the sink: [EvAbs] events only. *)
Definition only_abs (l : evdev_dev) : Prop := filter is_sync l = [].

(** One contact changes [slot_data] only and pushes [EvAbs] events only. *)
Definition decoder_frame (sc sc' : imt_softc) : Prop :=
  sc_nconts_todo sc' = sc_nconts_todo sc
  /\ sc_nconts_per_report sc' = sc_nconts_per_report sc
  /\ sc_report_id sc' = sc_report_id sc
  /\ sc_isize sc' = sc_isize sc
  /\ sc_cont_count_loc sc' = sc_cont_count_loc sc
  /\ sc_caps sc' = sc_caps sc
  /\ sc_locs sc' = sc_locs sc.

End Driver.

(** ** The specification's report size

    The size as section 4.1 words it, over unbounded integers: the span from
    the minimum starting bit to the maximum of [offset + width*count] over
    the items of the kind and report id, in bytes, rounded up. *)

Definition item_matches (k : hid_kind) (id : Z) (h : hid_item) : bool :=
  hid_kind_eqb (kind h) k && (report_ID h =? id).

Definition matching_items (items : list hid_item) (k : hid_kind) (id : Z)
  : list hid_item := filter (item_matches k id) items.

Definition item_start (h : hid_item) : Z := pos (loc h).
Definition item_end (h : hid_item) : Z :=
  pos (loc h) + size (loc h) * count (loc h).

Definition min_start (m : list hid_item) : Z :=
  match m with
  | [] => 0
  | h :: t => fold_left Z.min (map item_start t) (item_start h)
  end.

Definition max_end (m : list hid_item) : Z :=
  match m with
  | [] => 0
  | h :: t => fold_left Z.max (map item_end t) (item_end h)
  end.

(** [ceil(n / d)] with the floor division of [Z]. *)
Definition ceil_div (n d : Z) : Z := - ((- n) / d).

Definition spec_report_size (items : list hid_item) (k : hid_kind) (id : Z)
  : Z :=
  match matching_items items k id with
  | [] => 0
  | m => if max_end m <? min_start m then 0
         else ceil_div (max_end m - min_start m) 8
  end.

(** What the 32-bit arithmetic of the calculator needs to be exact on an
    item: a field that ends at most at bit [2^32 - 8]. *)
Definition item_in_range (h : hid_item) : Prop :=
  0 <= pos (loc h) /\ 0 <= size (loc h) /\ 0 <= count (loc h)
  /\ item_end h <= 2 ^ 32 - 8.

(** ** A sample environment

    One implementation of the three interfaces, used to run the driver on
    concrete descriptors and reports: the usage codes of the USB HID usage
    tables, a descriptor that is already a list of items, little-endian bit
    fields, an allocator that gives contact [id] the slot [id], and a
    transport that always succeeds. *)

Definition sample_kind_code (k : hid_kind) : Z :=
  match k with
  | hid_input => 0 | hid_output => 1 | hid_feature => 2
  | hid_collection => 3 | hid_endcollection => 4
  end.

(** Modelled from the spec: the Descriptor Item Stream of section 6
    ([hid_start_parse] and [hid_get_item] are not part of imt.c), here over
    a descriptor that is already tokenized.  Collection items are always
    returned, the others when their kind is in [kindset]. *)
Definition sample_start_parse (d : list hid_item) (len kindset : Z)
  : list hid_item :=
  filter
    (fun h =>
       match kind h with
       | hid_collection | hid_endcollection => true
       | k => Z.testbit kindset (sample_kind_code k)
       end) d.

Fixpoint le_value (bytes : list Z) : Z :=
  match bytes with
  | [] => 0
  | b :: rest => b mod 256 + 256 * le_value rest
  end.

Fixpoint le_bytes (n : nat) (v : Z) : list Z :=
  match n with
  | O => []
  | S n' => v mod 256 :: le_bytes n' (v / 256)
  end.

(** Modelled from the spec: the bit-exact decoding of an unsigned field at
    an arbitrary bit offset and width (section 6; [hid_get_data_unsigned]
    is not part of imt.c), little-endian, over the first [len] bytes. *)
Definition sample_get_data (buf : list Z) (len : Z) (l : hid_location) : Z :=
  Z.shiftr (le_value (firstn (Z.to_nat len) buf)) (pos l)
  mod 2 ^ Z.min (size l) 32.

(** Modelled from the spec: the store of the mode into its field of the
    feature report (section 4.5; [hid_put_data_unsigned] is not part of
    imt.c). *)
Definition sample_put_data (buf : list Z) (len : Z) (l : hid_location)
  (value : Z) : list Z :=
  let v := le_value buf in
  let field := Z.shiftl (Z.ones (size l)) (pos l) in
  le_bytes (length buf)
    (Z.lor (Z.land v (Z.lnot field))
       (Z.land (Z.shiftl value (pos l)) field)).

Definition sample_usbhid : UsbHid := {|
  HID_USAGE2 := fun page usage => Z.lor (Z.shiftl page 16) usage;
  HUP_GENERIC_DESKTOP := 0x0001;
  HUP_DIGITIZERS := 0x000d;
  HUP_MICROSOFT := 0xff00;
  HUG_X := 0x30;
  HUG_Y := 0x31;
  HUD_TOUCHSCREEN := 0x04;
  HUD_TOUCHPAD := 0x05;
  HUD_CONFIG := 0x0e;
  HUD_FINGER := 0x22;
  HUD_TIP_PRESSURE := 0x30;
  HUD_IN_RANGE := 0x32;
  HUD_TIP_SWITCH := 0x42;
  HUD_CONFIDENCE := 0x47;
  HUD_WIDTH := 0x48;
  HUD_HEIGHT := 0x49;
  HUD_CONTACTID := 0x51;
  HUD_INPUT_MODE := 0x52;
  HUD_CONTACTCOUNT := 0x54;
  HUD_CONTACT_MAX := 0x55;
  HUD_SCAN_TIME := 0x56;
  HIO_CONST := 0x001;
  HIO_VARIABLE := 0x002;
  HIO_RELATIVE := 0x004;
  hid_kind_code := sample_kind_code;
  hid_descriptor := list hid_item;
  hid_start_parse := sample_start_parse;
  hid_item_resolution := fun _ => 0;
  hid_get_data_unsigned := sample_get_data;
  hid_put_data_unsigned := sample_put_data
|}.

Definition sample_evdev : Evdev := {|
  MAX_MT_SLOTS := 16;
  evdev_get_mt_slot_by_tracking_id :=
    fun _ id => if (0 <=? id) && (id <? 16) then id else -1
|}.

Definition sample_iichid : Iichid := {|
  EINVAL := 22;
  I2C_HID_REPORT_TYPE_FEATURE := 3;
  iichid_get_report := fun _ buf len _ _ => (0, buf);
  iichid_set_report := fun _ _ _ _ _ => 0
|}.

(** Usage codes of the sample environment. *)
Definition U_TOUCHSCREEN : Z := 0x000d0004.
Definition U_TOUCHPAD : Z := 0x000d0005.
Definition U_CONFIG : Z := 0x000d000e.
Definition U_FINGER : Z := 0x000d0022.
Definition U_TIP_SWITCH : Z := 0x000d0042.
Definition U_IN_RANGE : Z := 0x000d0032.
Definition U_CONTACTID : Z := 0x000d0051.
Definition U_INPUT_MODE : Z := 0x000d0052.
Definition U_CONTACTCOUNT : Z := 0x000d0054.
Definition U_CONTACT_MAX : Z := 0x000d0055.
Definition U_SCAN_TIME : Z := 0x000d0056.
Definition U_X : Z := 0x00010030.
Definition U_Y : Z := 0x00010031.

(** Items of sample descriptors: a collection, its end, a variable field. *)
Definition coll (level usage id : Z) : hid_item :=
  mk_item hid_collection level usage id 0 0 0 loc_zero.
Definition endcoll (level : Z) : hid_item :=
  mk_item hid_endcollection level 0 0 0 0 0 loc_zero.
Definition field (k : hid_kind) (level usage id lmax bits bitpos : Z) : hid_item :=
  mk_item k level usage id 0x002 0 lmax (mk_loc bits 1 bitpos).

(** A driver state with every field zero, as a softc is at attach. *)
Definition softc_zero : imt_softc :=
  mk_softc 0 (fun _ => mk_absinfo 0 0 0) (fun _ _ => loc_zero) loc_zero
    (fun _ => 0) 0 0 0 0 0 loc_zero 0 0 0 0 loc_zero 0 0 [].

(** A touchscreen with [n] as declared contact count maximum and one finger
    collection holding the fields of [fields]. *)
Definition touch_descriptor (n : Z) (fields : list hid_item) : list hid_item :=
  [coll 1 U_TOUCHSCREEN 0;
   field hid_feature 1 U_CONTACT_MAX 2 n 8 0;
   field hid_input 1 U_CONTACTCOUNT 1 16 8 0;
   field hid_input 1 U_SCAN_TIME 1 65535 16 8;
   coll 2 U_FINGER 1] ++ fields ++ [endcoll 1; endcoll 0].

Definition finger_fields : list hid_item :=
  [field hid_input 2 U_TIP_SWITCH 1 1 1 24;
   field hid_input 2 U_IN_RANGE 1 1 1 25;
   field hid_input 2 U_CONTACTID 1 15 4 28;
   field hid_input 2 U_X 1 4095 16 32;
   field hid_input 2 U_Y 1 4095 16 48].

Definition sample_parse (sc : option imt_softc) (d : list hid_item) :=
  @wmt_hid_parse sample_usbhid sample_evdev sc d 0.

(** The softc that the attach fills for the sample touchscreen: one contact
    per report, report id 1, reports of 8 bytes. *)
Definition sample_softc : imt_softc :=
  match snd (sample_parse (Some softc_zero)
               (touch_descriptor 5 finger_fields)) with
  | Some s => s
  | None => softc_zero
  end.

(** An input report of the sample touchscreen: the contact count, the scan
    time, then tip switch, in-range flag, contact id, X and Y of the one
    contact. *)
Definition sample_report (n tip in_range id x y : Z) : list Z :=
  [n; 0; 0; tip + 2 * in_range + 16 * id;
   x mod 256; x / 256; y mod 256; y / 256].

Definition sample_intr (st : imt_softc * evdev_dev) (buf : list Z)
  : imt_softc * evdev_dev :=
  @imt_intr sample_usbhid sample_evdev (fst st) (snd st) buf 8 1.

(** A finger collection whose X field is declared twice with zero width. *)
Definition zero_width_fields : list hid_item :=
  [field hid_input 2 U_TIP_SWITCH 1 1 1 24;
   field hid_input 2 U_CONTACTID 1 15 4 28;
   field hid_input 2 U_X 1 4095 0 32;
   field hid_input 2 U_X 1 4095 0 32;
   field hid_input 2 U_Y 1 4095 16 48].

(** A field of [2^32 - 1] bits. *)
Definition huge_field : list hid_item :=
  [field hid_input 1 U_X 1 0 0xFFFFFFFF 0].

(** A softc whose input mode report has id 7, a mode field in its first
    byte and the declared length [rlen]. *)
Definition mode_softc (rlen : Z) : imt_softc :=
  mk_softc 0 (fun _ => mk_absinfo 0 0 0) (fun _ _ => loc_zero) loc_zero
    (fun _ => 0) 0 0 0 0 0 loc_zero 0 0 0 0 (mk_loc 8 1 0) rlen 7 [0; 0].

(** A configuration collection that is closed before the touchscreen
    collection, which holds the input mode feature. *)
Definition closed_config_descriptor : list hid_item :=
  [coll 1 U_CONFIG 0; endcoll 0;
   coll 1 U_TOUCHSCREEN 0;
   field hid_feature 1 U_INPUT_MODE 7 3 8 0;
   endcoll 0].

(** ** Probe and attach: [imt_probe], [imt_attach], [imt_detach]

    The device framework is outside imt.c: its constants, the identity of
    the hardware ([struct iichid_hw]) and the outcome of the evdev
    registration are taken from an interface, the outcome of
    [iichid_get_report_desc] is an argument. *)

Record iichid_hw := mk_hw {
  idVendor : Z;
  idProduct : Z;
  idVersion : Z
}.

Inductive input_prop := INPUT_PROP_DIRECT | INPUT_PROP_POINTER.

Inductive ev_type := EV_SYN | EV_ABS.

(** The configuration calls made on [sc->evdev] before it is registered. *)
Inductive evdev_setup :=
  | EvSetName                                   (* device_get_desc(dev) *)
  | EvSetPhys                                   (* device_get_nameunit(dev) *)
  | EvSetId (vendor product version : Z)        (* BUS_I2C *)
  | EvSetMethods
  | EvSetFlagMtStcompat
  | EvSupportProp (p : input_prop)
  | EvSupportEvent (t : ev_type)
  | EvSupportAbs (code : abs_code) (value minimum maximum fuzz flat res : Z).

Class Newbus := {
  ENXIO : Z;
  BUS_PROBE_DEFAULT : Z;
  (* error code of [evdev_register_mtx] for a device configured so *)
  evdev_register_mtx : list evdev_setup -> Z
}.

(** What [imt_attach] leaves behind. *)
Record attach_result := mk_attach {
  at_error : Z;                     (* the value returned *)
  at_sc : imt_softc;
  at_io : list iichid_call;         (* transport calls, oldest first *)
  at_evdev : list evdev_setup;      (* calls on sc->evdev, oldest first *)
  at_lock : bool;                   (* sc->lock initialised, not destroyed *)
  at_intr : bool                    (* interrupt handler set up *)
}.

Definition set_sc_type (s : imt_softc) (v : Z) : imt_softc :=
  mk_softc v (sc_ai s) (sc_locs s) (sc_cont_count_loc s) (sc_slot_data s)
    (sc_caps s) (sc_isize s) (sc_nconts_per_report s) (sc_nconts_todo s)
    (sc_report_id s) (sc_cont_max_loc s) (sc_cont_max_rlen s)
    (sc_cont_max_rid s) (sc_thqa_cert_rlen s) (sc_thqa_cert_rid s)
    (sc_input_mode_loc s) (sc_input_mode_rlen s) (sc_input_mode_rid s)
    (sc_buf s).

Section Callers.

Context {usbhid : UsbHid} {evdev_if : Evdev} {iichid_if : Iichid}
        {newbus : Newbus}.

(** [imt_probe]: the value returned and whether [device_set_desc] was
    called.  [desc] is what [iichid_get_report_desc] gave: its error code,
    the descriptor and its length. *)
Definition imt_probe (desc : Z * hid_descriptor * Z) : Z * bool :=
  let '(error, d_ptr, d_len) := desc in
  let error :=
    if negb (error =? 0) then ENXIO
    else
      (* Check if report descriptor belongs to a HID multitouch device *)
      let hid_type := fst (wmt_hid_parse None d_ptr d_len) in
      if negb (hid_type =? 0) then BUS_PROBE_DEFAULT else ENXIO in
  (error, error <=? 0).

(** [Fetch and parse "Contact count maximum" feature report]. *)
Definition imt_attach_cont_max (sc : imt_softc) (io : list iichid_call)
  : imt_softc * list iichid_call :=
  if (sc_cont_max_rlen sc >? 0) && (sc_cont_max_rlen sc <=? WMT_BSIZE) then
    let '(error, buf) :=
      iichid_get_report io (sc_buf sc) (sc_cont_max_rlen sc)
        I2C_HID_REPORT_TYPE_FEATURE (sc_cont_max_rid sc) in
    let io :=
      io ++ [GetReport (sc_cont_max_rlen sc) I2C_HID_REPORT_TYPE_FEATURE
               (sc_cont_max_rid sc)] in
    let sc := set_buf sc buf in
    if error =? 0
    then (wmt_cont_max_parse sc (sc_buf sc) (sc_cont_max_rlen sc), io)
    else (sc, io)
  else (sc, io).

(** [Fetch THQA certificate to enable some devices like WaveShare]. *)
Definition imt_attach_thqa (sc : imt_softc) (io : list iichid_call)
  : imt_softc * list iichid_call :=
  if (sc_thqa_cert_rlen sc >? 0) && (sc_thqa_cert_rlen sc <=? WMT_BSIZE)
     && negb (sc_thqa_cert_rid sc =? sc_cont_max_rid sc)
  then
    let '(_, buf) :=
      iichid_get_report io (sc_buf sc) (sc_thqa_cert_rlen sc)
        I2C_HID_REPORT_TYPE_FEATURE (sc_thqa_cert_rid sc) in
    (set_buf sc buf,
     io ++ [GetReport (sc_thqa_cert_rlen sc) I2C_HID_REPORT_TYPE_FEATURE
              (sc_thqa_cert_rid sc)])
  else (sc, io).

(** The [WMT_FOREACH_USAGE] loop of [evdev_support_abs] calls. *)
Definition imt_support_abs (sc : imt_softc) : list evdev_setup :=
  flat_map
    (fun i =>
       if USAGE_SUPPORTED (sc_caps sc) i
          && negb (abs_code_eqb (map_code (wmt_hid_map i)) WMT_NO_CODE)
       then [EvSupportAbs (map_code (wmt_hid_map i)) 0
               (ai_min (sc_ai sc i)) (ai_max (sc_ai sc i)) 0 0
               (ai_res (sc_ai sc i))]
       else [])
    (seq 0 WMT_N_USAGES).

(** The calls on [sc->evdev] from [evdev_alloc] to the registration. *)
Definition imt_evdev_setup (sc : imt_softc) (hw : iichid_hw)
  : list evdev_setup :=
  [EvSetName; EvSetPhys;
   EvSetId (idVendor hw) (idProduct hw) (idVersion hw);
   EvSetMethods; EvSetFlagMtStcompat]
  ++ (if sc_type sc =? HUD_TOUCHSCREEN then [EvSupportProp INPUT_PROP_DIRECT]
      else if sc_type sc =? HUD_TOUCHPAD then [EvSupportProp INPUT_PROP_POINTER]
      else [])
  ++ [EvSupportEvent EV_SYN; EvSupportEvent EV_ABS]
  ++ imt_support_abs sc.

Definition imt_attach (desc : Z * hid_descriptor * Z) (hw : iichid_hw)
  (sc : imt_softc) (io : list iichid_call) : attach_result :=
  let '(error, d_ptr, d_len) := desc in
  if negb (error =? 0) then mk_attach ENXIO sc io [] false false else
  (* mtx_init(&sc->lock, ...) *)
  let '(type, osc) := wmt_hid_parse (Some sc) d_ptr d_len in
  let sc := set_sc_type (match osc with Some s => s | None => sc end) type in
  if sc_type sc =? 0
  then mk_attach ENXIO sc io [] false false           (* detach *)
  else
    let '(sc, io) := imt_attach_cont_max sc io in
    let '(sc, io) := imt_attach_thqa sc io in
    let '(error, sc, io) :=
      if (sc_type sc =? HUD_TOUCHPAD) && negb (sc_input_mode_rlen sc =? 0)
      then imt_set_input_mode sc io IMT_INPUT_MODE_MT_TOUCHPAD
      else (0, sc, io) in
    if negb (error =? 0)
    then mk_attach ENXIO sc io [] false false         (* detach *)
    else
      (* iichid_intr_setup(iichid, &sc->lock, imt_intr, sc) *)
      let evdev := imt_evdev_setup sc hw in
      let error := evdev_register_mtx evdev in
      if error =? 0 then mk_attach 0 sc io evdev true true
      else
        (* iichid_intr_unsetup(iichid); detach: mtx_destroy(&sc->lock) *)
        mk_attach ENXIO sc io evdev false false.

(** [imt_detach]: the value returned, and the device without its evdev,
    handler and lock. *)
Definition imt_detach (a : attach_result) : attach_result :=
  mk_attach 0 (at_sc a) (at_io a) [] false false.

(** ** Notions used to state further properties *)

(** The device profile: every field of [*sc] but the decode session state
    ([nconts_todo] and [slot_data]). *)
Definition same_profile (s s' : imt_softc) : Prop :=
  s' = set_slot_data (set_nconts_todo s (sc_nconts_todo s'))
         (sc_slot_data s').

(** A sequence of reports, each a buffer with its length and report id,
    handed to [imt_intr] one after the other. *)
Definition imt_intr_all (st : imt_softc * evdev_dev)
  (reports : list (list Z * Z * Z)) : imt_softc * evdev_dev :=
  fold_left
    (fun st r => imt_intr (fst st) (snd st) (fst (fst r)) (snd (fst r))
                   (snd r))
    reports st.

(** Every field of [*sc] but the maximum of the slot axis. *)
Definition same_but_slot_max (s s' : imt_softc) : Prop :=
  set_ai s' (sc_ai s) = s
  /\ (forall i, i <> WMT_SLOT -> sc_ai s' i = sc_ai s i)
  /\ ai_min (sc_ai s' WMT_SLOT) = ai_min (sc_ai s WMT_SLOT)
  /\ ai_res (sc_ai s' WMT_SLOT) = ai_res (sc_ai s WMT_SLOT).

(** Every field of [*sc] but the buffer and the maximum of the slot axis. *)
Definition attach_refines (s s' : imt_softc) : Prop :=
  exists b, same_but_slot_max (set_buf s b) s'.

(** The transport calls an attach may make: a read of the contact count
    maximum or of the certificate that fits [sc->buf], and for a touchpad
    the read and the write of the input mode report. *)
Definition attach_call (s : imt_softc) (c : iichid_call) : Prop :=
  match c with
  | GetReport len type id =>
      type = I2C_HID_REPORT_TYPE_FEATURE
      /\ ((0 < len <= WMT_BSIZE
           /\ (id = sc_cont_max_rid s \/ id = sc_thqa_cert_rid s))
          \/ (sc_type s = HUD_TOUCHPAD
              /\ len = sc_input_mode_rlen s /\ len <> 0
              /\ id = sc_input_mode_rid s))
  | SetReport _ len type id =>
      type = I2C_HID_REPORT_TYPE_FEATURE
      /\ sc_type s = HUD_TOUCHPAD
      /\ len = sc_input_mode_rlen s /\ len <> 0
      /\ id = sc_input_mode_rid s
  end.

(** An event the table has a code for. *)
Definition coded (e : evdev_event) : Prop :=
  match e with
  | EvAbs c _ => c <> WMT_NO_CODE
  | EvSync => True
  end.

(** A report with the expected id whose contact count field is zero. *)
Definition continuation (sc : imt_softc) (r : list Z * Z * Z) : Prop :=
  snd r = sc_report_id sc
  /\ imt_cont_count sc (fst (fst r)) (snd (fst r)) = 0.

End Callers.

(** A transport whose writes are refused with [EINVAL]. *)
Definition rejecting_iichid : Iichid := {|
  EINVAL := 22;
  I2C_HID_REPORT_TYPE_FEATURE := 3;
  iichid_get_report := fun _ buf len _ _ => (0, buf);
  iichid_set_report := fun _ _ _ _ _ => 22
|}.

(** A transport whose reads fail and leave stale bytes behind. *)
Definition failing_iichid : Iichid := {|
  EINVAL := 22;
  I2C_HID_REPORT_TYPE_FEATURE := 3;
  iichid_get_report := fun _ buf len _ _ => (5, [170; 187; 204]);
  iichid_set_report := fun _ _ _ _ _ => 0
|}.

Definition sample_newbus : Newbus := {|
  ENXIO := 6;
  BUS_PROBE_DEFAULT := -20;
  evdev_register_mtx := fun _ => 0
|}.

Definition sample_hw : iichid_hw := mk_hw 0x04f3 0x0012 1.

(** An allocator with no free slot. *)
Definition full_evdev : Evdev := {|
  MAX_MT_SLOTS := 16;
  evdev_get_mt_slot_by_tracking_id := fun _ _ => -1
|}.

Definition U_WIDTH : Z := 0x000d0048.
Definition U_HEIGHT : Z := 0x000d0049.

(** A finger that also reports the width and the height of the contact,
    and the softc that the attach fills for a touchscreen of such fingers
    (reports of 10 bytes). *)
Definition wide_fields : list hid_item :=
  finger_fields
  ++ [field hid_input 2 U_WIDTH 1 255 8 64;
      field hid_input 2 U_HEIGHT 1 255 8 72].

Definition wide_softc : imt_softc :=
  match snd (sample_parse (Some softc_zero)
               (touch_descriptor 5 wide_fields)) with
  | Some s => s
  | None => softc_zero
  end.

(** What [iichid_get_report_desc] gives for the sample touchscreen, and
    for a device whose descriptor has no touch collection. *)
Definition sample_desc : Z * list hid_item * Z :=
  (0, touch_descriptor 5 finger_fields, 0).

Definition foreign_desc : Z * list hid_item * Z :=
  (0, closed_config_descriptor, 0).

(** The locals of the second walk once a first finger collection has been
    closed and the report id 1 pinned. *)
Definition second_finger_locals : parse_locals :=
  mk_locals 1 0 0 0 1 2 0 0 true false false true true.

(** * Properties *)

(** ** Machine integers and capability bits *)

Lemma to_uint32_range (z : Z) : 0 <= to_uint32 z < 2 ^ 32.
Proof. unfold to_uint32. apply Z.mod_pos_bound. lia. Qed.

Lemma to_uint32_small (z : Z) : 0 <= z < 2 ^ 32 -> to_uint32 z = z.
Proof. intro H. unfold to_uint32. apply Z.mod_small. exact H. Qed.

Lemma to_int32_small (z : Z) : - 2 ^ 31 <= z < 2 ^ 31 -> to_int32 z = z.
Proof.
  intro H. unfold to_int32. rewrite Z.mod_small by lia. lia.
Qed.

Lemma ceil_div_8 (n : Z) : (n + 7) / 8 = ceil_div n 8.
Proof.
  unfold ceil_div.
  pose proof (Z.div_mod (n + 7) 8 ltac:(lia)) as H1.
  pose proof (Z.mod_pos_bound (n + 7) 8 ltac:(lia)) as H2.
  pose proof (Z.div_mod (- n) 8 ltac:(lia)) as H3.
  pose proof (Z.mod_pos_bound (- n) 8 ltac:(lia)) as H4.
  lia.
Qed.

Lemma USAGE_SUPPORTED_testbit (c : Z) (i : nat) :
  USAGE_SUPPORTED c i = Z.testbit c (Z.of_nat i).
Proof.
  unfold USAGE_SUPPORTED.
  assert (Hn : 0 <= Z.of_nat i) by lia.
  destruct (Z.testbit c (Z.of_nat i)) eqn:Hb.
  - apply negb_true_iff, Z.eqb_neq. intro H0.
    assert (Ht : Z.testbit (Z.land c (Z.shiftl 1 (Z.of_nat i))) (Z.of_nat i)
                 = true).
    { rewrite Z.land_spec, Hb, Z.shiftl_spec by lia.
      rewrite Z.sub_diag. reflexivity. }
    rewrite H0, Z.bits_0 in Ht. discriminate.
  - apply negb_false_iff, Z.eqb_eq. apply Z.bits_inj'. intros n Hn'.
    rewrite Z.land_spec, Z.bits_0, Z.shiftl_spec by lia.
    destruct (Z.eq_dec n (Z.of_nat i)) as [->|Hne].
    + rewrite Hb. reflexivity.
    + destruct (Z.ltb_spec n (Z.of_nat i)).
      * rewrite (Z.testbit_neg_r 1) by lia. apply andb_false_r.
      * replace (Z.testbit 1 (n - Z.of_nat i)) with false.
        { apply andb_false_r. }
        symmetry. change 1 with (2 ^ 0). apply Z.pow2_bits_false. lia.
Qed.

Lemma USAGE_SUPPORTED_caps_set (c : Z) (i j : nat) :
  USAGE_SUPPORTED (caps_set c i) j = Nat.eqb j i || USAGE_SUPPORTED c j.
Proof.
  rewrite !USAGE_SUPPORTED_testbit. unfold caps_set.
  rewrite Z.lor_spec, Z.shiftl_spec by lia.
  destruct (Nat.eqb_spec j i) as [->|Hne].
  - rewrite Z.sub_diag. simpl. apply orb_true_r.
  - simpl. replace (Z.testbit 1 (Z.of_nat j - Z.of_nat i)) with false.
    { apply orb_false_r. }
    symmetry. destruct (Z.ltb_spec (Z.of_nat j) (Z.of_nat i)).
    + apply Z.testbit_neg_r. lia.
    + change 1 with (2 ^ 0). apply Z.pow2_bits_false. lia.
Qed.

(** ** Report Size Calculator *)

Section ReportSize.

Context {usbhid : UsbHid}.

Lemma report_size_item_exact (k : hid_kind) (id : Z) (h : hid_item)
  (hpos lpos : Z) :
  (item_matches k id h = true -> item_in_range h) ->
  report_size_item k id (hpos, lpos) h =
  if item_matches k id h
  then (Z.max hpos (item_end h), Z.min lpos (item_start h))
  else (hpos, lpos).
Proof.
  intro Hr. unfold report_size_item, item_matches in *.
  destruct (hid_kind_eqb (kind h) k && (report_ID h =? id)); [|reflexivity].
  destruct (Hr eq_refl) as (Hp & Hs & Hc & He). unfold item_end in *.
  assert (0 <= size (loc h) * count (loc h)) by (apply Z.mul_nonneg_nonneg; lia).
  rewrite (to_uint32_small (size (loc h) * count (loc h))) by lia.
  rewrite to_uint32_small by lia.
  unfold item_start. f_equal.
  - destruct (Z.ltb_spec hpos (pos (loc h) + size (loc h) * count (loc h))); lia.
  - rewrite Z.gtb_ltb.
    destruct (Z.ltb_spec (pos (loc h)) lpos); lia.
Qed.

Lemma report_size_fold_exact (k : hid_kind) (id : Z) (items : list hid_item) :
  forall hpos lpos,
  (forall h, In h (matching_items items k id) -> item_in_range h) ->
  fold_left (report_size_item k id) items (hpos, lpos) =
  (fold_left Z.max (map item_end (matching_items items k id)) hpos,
   fold_left Z.min (map item_start (matching_items items k id)) lpos).
Proof.
  induction items as [|h items IH]; intros hpos lpos Hr; [reflexivity|].
  cbn [fold_left]. unfold matching_items in *. cbn [filter] in *.
  rewrite report_size_item_exact.
  - destruct (item_matches k id h) eqn:Hm.
    + rewrite IH by (intros; apply Hr; right; assumption). reflexivity.
    + rewrite IH by assumption. reflexivity.
  - intro Hm. apply Hr. rewrite Hm. left. reflexivity.
Qed.

Lemma fold_max_le (l : list Z) (b : Z) :
  forall a, a <= b -> (forall x, In x l -> x <= b) -> fold_left Z.max l a <= b.
Proof.
  induction l as [|x l IH]; intros a Ha Hl; [exact Ha|].
  cbn [fold_left]. apply IH.
  - apply Z.max_lub; [exact Ha | apply Hl; left; reflexivity].
  - intros y Hy. apply Hl. right. exact Hy.
Qed.

Lemma fold_min_ge (l : list Z) (b : Z) :
  forall a, b <= a -> (forall x, In x l -> b <= x) -> b <= fold_left Z.min l a.
Proof.
  induction l as [|x l IH]; intros a Ha Hl; [exact Ha|].
  cbn [fold_left]. apply IH.
  - apply Z.min_glb; [exact Ha | apply Hl; left; reflexivity].
  - intros y Hy. apply Hl. right. exact Hy.
Qed.

Lemma report_size_nonneg (items : list hid_item) (k : hid_kind) (id : Z) :
  0 <= report_size_of_items items k id < 2 ^ 29.
Proof.
  unfold report_size_of_items.
  destruct (fold_left (report_size_item k id) items (0, 4294967295))
    as [hpos lpos].
  set (temp := if lpos >? hpos then 0 else to_uint32 (hpos - lpos)).
  pose proof (to_uint32_range (temp + 7)) as H.
  split.
  - apply Z.div_pos; lia.
  - apply Z.div_lt_upper_bound; lia.
Qed.

Lemma report_size_no_match (items : list hid_item) (k : hid_kind) (id : Z) :
  matching_items items k id = [] -> report_size_of_items items k id = 0.
Proof.
  intro Hm. unfold report_size_of_items.
  rewrite report_size_fold_exact by (rewrite Hm; intros h []).
  rewrite Hm. reflexivity.
Qed.

Lemma report_size_exact (items : list hid_item) (k : hid_kind) (id : Z) :
  (forall h, In h (matching_items items k id) -> item_in_range h) ->
  report_size_of_items items k id = spec_report_size items k id.
Proof.
  intro Hr. unfold report_size_of_items, spec_report_size.
  rewrite report_size_fold_exact by exact Hr.
  destruct (matching_items items k id) as [|h m] eqn:Hm; [reflexivity|].
  cbn [map fold_left]. unfold max_end, min_start.
  destruct (Hr h (or_introl eq_refl)) as (Hp & Hs & Hc & He).
  assert (Hnn : 0 <= size (loc h) * count (loc h))
    by (apply Z.mul_nonneg_nonneg; lia).
  assert (H0 : Z.max 0 (item_end h) = item_end h)
    by (unfold item_end in *; lia).
  assert (H1 : Z.min 4294967295 (item_start h) = item_start h)
    by (unfold item_end, item_start in *; lia).
  rewrite H0, H1.
  set (hi := fold_left Z.max (map item_end m) (item_end h)).
  set (lo := fold_left Z.min (map item_start m) (item_start h)).
  assert (Hhi : hi <= 2 ^ 32 - 8).
  { apply fold_max_le; [exact He|]. intros x Hx.
    apply in_map_iff in Hx. destruct Hx as (h' & <- & Hin).
    apply (Hr h' (or_intror Hin)). }
  assert (Hlo : 0 <= lo).
  { apply fold_min_ge; [exact Hp|]. intros x Hx.
    apply in_map_iff in Hx. destruct Hx as (h' & <- & Hin).
    apply (Hr h' (or_intror Hin)). }
  rewrite Z.gtb_ltb.
  destruct (Z.ltb_spec hi lo) as [Hlt|Hge]; [reflexivity|].
  rewrite (to_uint32_small (hi - lo)) by lia.
  rewrite to_uint32_small by lia.
  apply ceil_div_8.
Qed.

(** C3, as amended.  [wmt_hid_report_size] never returns a negative length
    (it stays below [2^29]); it returns 0 when no item of the kind has the
    report id; and when every matching field ends at most at bit [2^32 - 8],
    it returns the span from the minimum starting bit to the maximum of
    [offset + width*count] in bytes, rounded up; and whatever the items, it
    returns 0 when the maximum end it computed is below the minimum start
    it computed. *)
Theorem wmt_hid_report_size_spec (buf : hid_descriptor) (len : Z)
  (k : hid_kind) (id : Z) :
  let items := hid_start_parse buf len (Z.shiftl 1 (hid_kind_code k)) in
  0 <= wmt_hid_report_size buf len k id < 2 ^ 29
  /\ (matching_items items k id = [] -> wmt_hid_report_size buf len k id = 0)
  /\ ((forall h, In h (matching_items items k id) -> item_in_range h) ->
      wmt_hid_report_size buf len k id = spec_report_size items k id)
  /\ (forall hpos lpos,
        fold_left (report_size_item k id) items (0, 0xFFFFFFFF)
        = (hpos, lpos) ->
        hpos < lpos -> wmt_hid_report_size buf len k id = 0).
Proof.
  intro items. unfold wmt_hid_report_size. fold items.
  split; [apply report_size_nonneg|].
  split; [apply report_size_no_match|].
  split; [apply report_size_exact|].
  intros hpos lpos Hf Hlt. unfold report_size_of_items. rewrite Hf.
  rewrite Z.gtb_ltb. destruct (Z.ltb_spec hpos lpos); [reflexivity | lia].
Qed.

End ReportSize.

(** ** Descriptor Analyzer *)

Section Analyzer.

Context {usbhid : UsbHid} {evdev_if : Evdev}.

Lemma same_published_refl (s : imt_softc) : same_published s s.
Proof. unfold same_published. repeat split. Qed.

Lemma same_published_trans (s1 s2 s3 : imt_softc) :
  same_published s1 s2 -> same_published s2 s3 -> same_published s1 s3.
Proof.
  unfold same_published. intros H1 H2.
  repeat match goal with H : _ /\ _ |- _ => destruct H end.
  repeat split; congruence.
Qed.

Lemma nothing_published_refl (sc : option imt_softc) : nothing_published sc sc.
Proof. destruct sc; simpl; [apply same_published_refl | exact I]. Qed.

Lemma nothing_published_trans (a b c : option imt_softc) :
  nothing_published a b -> nothing_published b c -> nothing_published a c.
Proof.
  destruct a, b, c; simpl; try tauto. apply same_published_trans.
Qed.

(** An invariant of a walk over the items. *)
Lemma parse_items_invariant
  (P : option imt_softc -> parse_locals -> Prop)
  (step : option imt_softc -> parse_locals -> hid_item ->
          option imt_softc * parse_locals)
  (Hstep : forall sc l hi, P sc l ->
             P (fst (step sc l hi)) (snd (step sc l hi)))
  (items : list hid_item) :
  forall sc l, P sc l ->
    P (fst (parse_items step items sc l)) (snd (parse_items step items sc l)).
Proof.
  unfold parse_items.
  induction items as [|hi items IH]; intros sc l HP; [exact HP|].
  cbn [fold_left fst snd].
  specialize (IH (fst (step sc l hi)) (snd (step sc l hi)) (Hstep _ _ _ HP)).
  destruct (step sc l hi). exact IH.
Qed.

Ltac split_ifs :=
  repeat match goal with
         | |- context [if ?c then _ else _] => destruct c eqn:?
         | |- context [match ?x with Some _ => _ | None => _ end] =>
             destruct x eqn:?
         end.

(** *** The first walk *)

Lemma features_frame_refl sc : features_frame sc sc.
Proof.
  destruct sc; simpl; [split; [apply same_published_refl|reflexivity] | exact I].
Qed.

Lemma features_frame_trans a b c :
  features_frame a b -> features_frame b c -> features_frame a c.
Proof.
  destruct a, b, c; simpl; try tauto.
  intros [H1 H2] [H3 H4]. split; [|congruence].
  eapply same_published_trans; eassumption.
Qed.

Lemma parse_feature_item_frame sc l hi :
  features_frame sc (fst (parse_feature_item sc l hi)).
Proof.
  unfold parse_feature_item.
  destruct (kind hi); try apply features_frame_refl.
  split_ifs; cbn [fst]; try apply features_frame_refl;
    subst; destruct sc; simpl; auto; repeat split.
Qed.

Lemma parse_feature_item_caps sc l hi :
  caps (snd (parse_feature_item sc l hi)) = caps l.
Proof.
  unfold parse_feature_item.
  destruct (kind hi); try reflexivity; split_ifs; reflexivity.
Qed.

Lemma wmt_parse_features_frame sc d_ptr d_len :
  features_frame sc (fst (wmt_parse_features sc d_ptr d_len))
  /\ caps (snd (wmt_parse_features sc d_ptr d_len)) = 0.
Proof.
  unfold wmt_parse_features.
  apply (parse_items_invariant
           (fun sc' l' => features_frame sc sc' /\ caps l' = 0)).
  - intros sc' l' hi [Hf Hc]. split.
    + eapply features_frame_trans; [exact Hf | apply parse_feature_item_frame].
    + rewrite parse_feature_item_caps. exact Hc.
  - split; [apply features_frame_refl | reflexivity].
Qed.

(** An end of collection never clears [conf_coll] in the first walk. *)
Lemma parse_feature_item_conf_coll sc l hi :
  conf_coll l = true -> conf_coll (snd (parse_feature_item sc l hi)) = true.
Proof.
  intro H. unfold parse_feature_item.
  destruct (kind hi); try exact H; split_ifs; cbn; auto.
Qed.

(** *** The second walk *)

Lemma set_caps_same (l : parse_locals) : set_caps l (caps l) = l.
Proof. destruct l. reflexivity. Qed.

(** Binding an item to a channel changes, among the locals, only [caps]. *)
Lemma wmt_bind_usage_locals hi idx :
  forall sc l,
    snd (wmt_bind_usage sc l hi idx)
    = set_caps l (caps (snd (wmt_bind_usage sc l hi idx))).
Proof.
  induction idx as [|i idx IH]; intros sc l; cbn [wmt_bind_usage].
  - cbn. symmetry. apply set_caps_same.
  - split_ifs; try apply IH; cbn; try reflexivity;
      symmetry; apply set_caps_same.
Qed.

Lemma wmt_bind_usage_frame hi idx :
  forall sc l, nothing_published sc (fst (wmt_bind_usage sc l hi idx)).
Proof.
  induction idx as [|i idx IH]; intros sc l; cbn [wmt_bind_usage].
  - apply nothing_published_refl.
  - split_ifs; try apply IH; subst; cbn; try exact I;
      unfold same_published; cbn; repeat split.
Qed.

(** A capability bit, once set, stays set. *)
Lemma wmt_bind_usage_mono hi idx j :
  forall sc l,
    USAGE_SUPPORTED (caps l) j = true ->
    USAGE_SUPPORTED (caps (snd (wmt_bind_usage sc l hi idx))) j = true.
Proof.
  induction idx as [|i idx IH]; intros sc l H; cbn [wmt_bind_usage].
  - exact H.
  - split_ifs; try (apply IH; exact H); cbn; try exact H;
      rewrite USAGE_SUPPORTED_caps_set, H; apply orb_true_r.
Qed.

(** A channel with another usage code is not touched. *)
Lemma wmt_bind_usage_other hi idx j :
  usage hi <> map_usage (wmt_hid_map j) ->
  forall sc l,
    USAGE_SUPPORTED (caps (snd (wmt_bind_usage sc l hi idx))) j
    = USAGE_SUPPORTED (caps l) j.
Proof.
  intro Hne. induction idx as [|i idx IH]; intros sc l; cbn [wmt_bind_usage].
  - reflexivity.
  - destruct (usage hi =? map_usage (wmt_hid_map i)) eqn:Hu; [|apply IH].
    apply Z.eqb_eq in Hu.
    assert (Hji : Nat.eqb j i = false).
    { apply Nat.eqb_neq. intros ->. contradiction. }
    split_ifs; try apply IH; cbn; try reflexivity;
      rewrite USAGE_SUPPORTED_caps_set, Hji; reflexivity.
Qed.

Lemma parse_input_item_frame sc l hi :
  nothing_published sc (fst (parse_input_item sc l hi)).
Proof.
  unfold parse_input_item.
  destruct (kind hi); try apply nothing_published_refl;
    split_ifs; cbn [fst]; try apply nothing_published_refl;
    try apply wmt_bind_usage_frame;
    subst; destruct sc; cbn; try exact I;
    unfold same_published; cbn; repeat split.
Qed.

(** The second walk does not touch what the first walk found. *)
Lemma parse_input_item_features sc l hi :
  let l' := snd (parse_input_item sc l hi) in
  cont_count_max l' = cont_count_max l /\ cont_max_rid l' = cont_max_rid l
  /\ thqa_cert_rid l' = thqa_cert_rid l
  /\ input_mode_rid l' = input_mode_rid l.
Proof.
  unfold parse_input_item.
  destruct (kind hi); cbn zeta; try (repeat split; reflexivity);
    split_ifs; cbn [snd]; try (repeat split; reflexivity);
    rewrite wmt_bind_usage_locals; repeat split; reflexivity.
Qed.

Lemma wmt_parse_inputs_frame sc l d_ptr d_len :
  let r := wmt_parse_inputs sc l d_ptr d_len in
  nothing_published sc (fst r)
  /\ cont_count_max (snd r) = cont_count_max l
  /\ cont_max_rid (snd r) = cont_max_rid l.
Proof.
  cbn zeta. unfold wmt_parse_inputs.
  apply (parse_items_invariant
           (fun sc' l' => nothing_published sc sc'
                          /\ cont_count_max l' = cont_count_max l
                          /\ cont_max_rid l' = cont_max_rid l)).
  - intros sc' l' hi (Hf & H1 & H2).
    destruct (parse_input_item_features sc' l' hi) as (E1 & E2 & _).
    split; [|split; congruence].
    eapply nothing_published_trans; [exact Hf | apply parse_input_item_frame].
  - split; [apply nothing_published_refl | split; reflexivity].
Qed.

Lemma features_frame_published sc sc' :
  features_frame sc sc' -> nothing_published sc sc'.
Proof. destruct sc, sc'; simpl; tauto. Qed.

(** Every path of [wmt_hid_parse] that returns before the final stores
    leaves the published fields of [*sc] as they were. *)
Lemma wmt_parse_walks_frame sc d_ptr d_len :
  nothing_published sc (fst (wmt_parse_walks sc d_ptr d_len)).
Proof.
  unfold wmt_parse_walks.
  pose proof (wmt_parse_features_frame sc d_ptr d_len) as [Hf _].
  destruct (wmt_parse_features sc d_ptr d_len) as [sc1 l1]. cbn [fst] in Hf.
  eapply nothing_published_trans;
    [apply features_frame_published; exact Hf | apply wmt_parse_inputs_frame].
Qed.

(** Only a field met at depth 2 inside a finger collection can set the
    capability bit of a channel, and only of a channel with its usage. *)
Lemma parse_input_item_bit sc l hi i :
  (hid_kind_eqb (kind hi) hid_input && finger_coll l && (collevel hi =? 2)
   = true -> usage hi <> map_usage (wmt_hid_map i)) ->
  USAGE_SUPPORTED (caps (snd (parse_input_item sc l hi))) i
  = USAGE_SUPPORTED (caps l) i.
Proof.
  intro Hf. unfold parse_input_item.
  destruct (kind hi) eqn:Hk; try reflexivity.
  - destruct (WMT_HI_ABSOLUTE hi && touch_coll l
              && ((report_id l =? 0) || (report_id l =? report_ID hi)));
      [|reflexivity].
    destruct ((collevel hi =? 1)
              && (usage hi =? HID_USAGE2 HUP_DIGITIZERS HUD_CONTACTCOUNT));
      [reflexivity|].
    destruct ((collevel hi =? 1)
              && (usage hi =? HID_USAGE2 HUP_DIGITIZERS HUD_SCAN_TIME));
      [reflexivity|].
    cbn [finger_coll set_report_id].
    destruct (finger_coll l) eqn:Hfc; [|reflexivity].
    destruct (collevel hi =? 2) eqn:Hl; [|reflexivity].
    cbn [negb orb].
    split_ifs; try reflexivity;
      rewrite wmt_bind_usage_other by (apply Hf; reflexivity); reflexivity.
  - split_ifs; reflexivity.
  - split_ifs; reflexivity.
Qed.

Lemma parse_inputs_bit i items :
  forall sc l,
    (forall hi, In hi (finger_fields_seen sc l items) ->
                usage hi <> map_usage (wmt_hid_map i)) ->
    USAGE_SUPPORTED (caps (snd (parse_items parse_input_item items sc l))) i
    = USAGE_SUPPORTED (caps l) i.
Proof.
  unfold parse_items.
  induction items as [|hi items IH]; intros sc l Hf; [reflexivity|].
  cbn [fold_left fst snd]. cbn [finger_fields_seen] in Hf.
  rewrite (surjective_pairing (parse_input_item sc l hi)).
  rewrite IH.
  - apply parse_input_item_bit. intro Hc. apply Hf.
    apply in_or_app. left. rewrite Hc. left. reflexivity.
  - intros h Hin. apply Hf. apply in_or_app. right. exact Hin.
Qed.

Lemma required_in_table i :
  map_required (wmt_hid_map i) = true -> In i (seq 0 WMT_N_USAGES).
Proof.
  intro H. apply in_seq. unfold WMT_N_USAGES.
  do 12 (destruct i as [|i]; [lia|]). discriminate H.
Qed.

Lemma wmt_required_present_bit caps i :
  map_required (wmt_hid_map i) = true ->
  wmt_required_present caps = true -> USAGE_SUPPORTED caps i = true.
Proof.
  intros Hr Hp. unfold wmt_required_present in Hp.
  rewrite forallb_forall in Hp.
  specialize (Hp i (required_in_table i Hr)).
  rewrite Hr in Hp. destruct (USAGE_SUPPORTED caps i); [reflexivity|].
  discriminate Hp.
Qed.

Lemma USAGE_SUPPORTED_0 i : USAGE_SUPPORTED 0 i = false.
Proof. rewrite USAGE_SUPPORTED_testbit. apply Z.bits_0. Qed.

(** C4.  When a required channel (whichever it is) has no input field of
    its usage at depth 2 inside a finger collection, [wmt_hid_parse] returns
    0, in the probe and in the attach, and the fields of [*sc] other than
    the locations and axis ranges recorded during the walks keep their
    values. *)
Theorem wmt_hid_parse_missing_required (sc : option imt_softc)
  (d_ptr : hid_descriptor) (d_len : Z) (i : nat) :
  map_required (wmt_hid_map i) = true ->
  (forall hi, In hi (wmt_finger_fields sc d_ptr d_len) ->
              usage hi <> map_usage (wmt_hid_map i)) ->
  fst (wmt_hid_parse sc d_ptr d_len) = 0
  /\ nothing_published sc (snd (wmt_hid_parse sc d_ptr d_len)).
Proof.
  intros Hreq Hmiss. unfold wmt_hid_parse, wmt_finger_fields in *.
  pose proof (wmt_parse_features_frame sc d_ptr d_len) as [Hf Hc0].
  destruct (wmt_parse_features sc d_ptr d_len) as [sc1 l1].
  cbn [fst snd] in Hf, Hc0. apply features_frame_published in Hf.
  destruct (cont_max_rid l1 =? 0); [split; [reflexivity | exact Hf]|].
  pose proof (wmt_parse_inputs_frame sc1 l1 d_ptr d_len) as [Hf2 _].
  pose proof (parse_inputs_bit i _ sc1 (set_touch_coll l1 false) Hmiss) as Hb.
  unfold wmt_parse_inputs in *.
  destruct (parse_items parse_input_item _ sc1 (set_touch_coll l1 false))
    as [sc2 l2].
  cbn [fst snd] in Hf2, Hb.
  assert (Hf3 : nothing_published sc sc2)
    by (eapply nothing_published_trans; eassumption).
  destruct (wmt_found_all l2); cbn [negb]; [|split; [reflexivity|exact Hf3]].
  destruct (wmt_required_present (caps l2)) eqn:Hp; cbn [negb];
    [|split; [reflexivity|exact Hf3]].
  apply (wmt_required_present_bit _ i Hreq) in Hp.
  rewrite Hb in Hp. cbn [caps set_touch_coll] in Hp.
  rewrite Hc0, USAGE_SUPPORTED_0 in Hp. discriminate Hp.
Qed.

(** C6.  When the attach accepts a descriptor, the axis of the slot channel
    has minimum 0 and, with [N] the contact count maximum the descriptor
    declares: maximum [N - 1] when [1 <= N <= MAX_MT_SLOTS], maximum
    [MAX_MT_SLOTS - 1] when [N] is above [MAX_MT_SLOTS], and when [N] is
    below 1 the number of enclosed finger collections takes the place of
    [N] (with the same cap). *)
Theorem wmt_hid_parse_slot_axis (s : imt_softc) (d_ptr : hid_descriptor)
  (d_len : Z) :
  let N := wmt_declared_cont_max (Some s) d_ptr d_len in
  let fingers := Z.of_nat (wmt_finger_collections (Some s) d_ptr d_len) in
  fst (wmt_hid_parse (Some s) d_ptr d_len) <> 0 ->
  exists s',
    snd (wmt_hid_parse (Some s) d_ptr d_len) = Some s'
    /\ ai_min (sc_ai s' WMT_SLOT) = 0
    /\ (1 <= N <= MAX_MT_SLOTS -> ai_max (sc_ai s' WMT_SLOT) = N - 1)
    /\ (1 <= N -> MAX_MT_SLOTS < N ->
        ai_max (sc_ai s' WMT_SLOT) = MAX_MT_SLOTS - 1)
    /\ (N < 1 -> fingers < 2 ^ 31 ->
        1 <= fingers
        /\ ai_max (sc_ai s' WMT_SLOT) = Z.min fingers MAX_MT_SLOTS - 1).
Proof.
  cbn zeta.
  unfold wmt_hid_parse, wmt_declared_cont_max, wmt_finger_collections,
    wmt_parse_walks.
  pose proof (wmt_parse_features_frame (Some s) d_ptr d_len) as [Hf _].
  destruct (wmt_parse_features (Some s) d_ptr d_len) as [sc1 l1].
  cbn [fst snd] in *.
  destruct (cont_max_rid l1 =? 0); [intro H; contradiction H; reflexivity|].
  pose proof (wmt_parse_inputs_frame sc1 l1 d_ptr d_len) as (Hf2 & Hm & _).
  destruct (wmt_parse_inputs sc1 l1 d_ptr d_len) as [sc2 l2].
  cbn [fst snd] in *.
  destruct (wmt_found_all l2) eqn:Hfa; cbn [negb];
    [|intro H; contradiction H; reflexivity].
  destruct (wmt_required_present (caps l2)); cbn [negb];
    [|intro H; contradiction H; reflexivity].
  destruct sc1 as [s1|]; [|contradiction Hf].
  destruct sc2 as [s2|]; [|contradiction Hf2].
  intros _. eexists. split; [reflexivity|].
  assert (Hai : sc_ai (wmt_hid_publish s2 l2 d_ptr d_len) WMT_SLOT
                = mk_absinfo 0 (wmt_descr_cont_max l2 - 1) 0).
  { unfold wmt_hid_publish. cbn [sc_ai].
    destruct (USAGE_SUPPORTED (caps l2) WMT_WIDTH
              && USAGE_SUPPORTED (caps l2) WMT_HEIGHT); reflexivity. }
  rewrite Hai. cbn [ai_min ai_max]. unfold wmt_descr_cont_max. rewrite Hm.
  split; [reflexivity|].
  repeat split.
  - intros [H1 H2].
    destruct (Z.ltb_spec (cont_count_max l1) 1); [lia|].
    rewrite Z.gtb_ltb.
    destruct (Z.ltb_spec MAX_MT_SLOTS (cont_count_max l1)); lia.
  - intros H1 H2.
    destruct (Z.ltb_spec (cont_count_max l1) 1); [lia|].
    rewrite Z.gtb_ltb.
    destruct (Z.ltb_spec MAX_MT_SLOTS (cont_count_max l1)); lia.
  - unfold wmt_found_all in Hfa.
    apply negb_true_iff, orb_false_iff in Hfa. destruct Hfa as [_ Hc].
    apply Nat.eqb_neq in Hc. lia.
  - destruct (Z.ltb_spec (cont_count_max l1) 1); [|lia].
    rewrite to_int32_small by lia.
    rewrite Z.gtb_ltb.
    destruct (Z.ltb_spec MAX_MT_SLOTS (Z.of_nat (cont l2))); lia.
Qed.

(** *** Probe and attach *)

(** Two walks over the same items, related step by step. *)
Lemma parse_items_sim
  (R : option imt_softc * parse_locals ->
       option imt_softc * parse_locals -> Prop)
  (step : option imt_softc -> parse_locals -> hid_item ->
          option imt_softc * parse_locals)
  (items : list hid_item)
  (Hstep : forall a b hi, In hi items -> R a b ->
             R (step (fst a) (snd a) hi) (step (fst b) (snd b) hi)) :
  forall a b, R a b ->
    R (parse_items step items (fst a) (snd a))
      (parse_items step items (fst b) (snd b)).
Proof.
  unfold parse_items.
  induction items as [|hi items IH]; intros a b HR.
  - cbn [fold_left]. destruct a, b. exact HR.
  - cbn [fold_left].
    assert (H1 := Hstep a b hi (or_introl eq_refl) HR).
    specialize (IH (fun a b h Hin => Hstep a b h (or_intror Hin)) _ _ H1).
    rewrite <- !surjective_pairing in IH. cbn [fst snd]. exact IH.
Qed.

(** The locals of the first walk do not depend on [sc]. *)
Lemma parse_feature_item_locals sc l hi :
  snd (parse_feature_item sc l hi) = snd (parse_feature_item None l hi).
Proof.
  unfold parse_feature_item.
  destruct (kind hi); try reflexivity; split_ifs; reflexivity.
Qed.

Lemma wmt_parse_features_locals sc d_ptr d_len :
  snd (wmt_parse_features sc d_ptr d_len)
  = snd (wmt_parse_features None d_ptr d_len).
Proof.
  unfold wmt_parse_features.
  apply (parse_items_sim (fun a b => snd a = snd b) parse_feature_item _)
    with (a := (sc, locals_init)) (b := (None, locals_init));
    [|reflexivity].
  intros a b hi _ H. rewrite parse_feature_item_locals, H.
  symmetry. apply parse_feature_item_locals.
Qed.

Lemma usage_first_spec i j :
  usage_first i = true -> (j < i)%nat ->
  map_usage (wmt_hid_map j) <> map_usage (wmt_hid_map i).
Proof.
  unfold usage_first. rewrite forallb_forall. intros H Hj.
  specialize (H j ltac:(apply in_seq; lia)).
  apply negb_true_iff, Z.eqb_neq in H. exact H.
Qed.

Lemma usage_first_lt i : usage_first i = true -> (i < WMT_N_USAGES)%nat.
Proof.
  intro H. unfold WMT_N_USAGES.
  destruct (Nat.ltb_spec i 12) as [Hlt|Hge]; [exact Hlt|].
  exfalso. apply (usage_first_spec i 3 H); [lia|].
  do 12 (destruct i as [|i]; [lia|]). reflexivity.
Qed.

(** The probe sets the bit of the first channel that matches the usage. *)
Lemma wmt_bind_usage_first_probe hi i post pre :
  usage hi = map_usage (wmt_hid_map i) ->
  (forall j, In j pre -> usage hi <> map_usage (wmt_hid_map j)) ->
  forall l,
    USAGE_SUPPORTED
      (caps (snd (wmt_bind_usage None l hi (pre ++ i :: post)))) i = true.
Proof.
  intros Hu. induction pre as [|j pre IH]; intros Hpre l.
  - cbn [app wmt_bind_usage].
    rewrite Hu, Z.eqb_refl.
    destruct (USAGE_SUPPORTED (caps l) i) eqn:Hb.
    + apply wmt_bind_usage_mono. exact Hb.
    + cbn. rewrite USAGE_SUPPORTED_caps_set, Nat.eqb_refl. reflexivity.
  - cbn [app wmt_bind_usage].
    destruct (usage hi =? map_usage (wmt_hid_map j)) eqn:Hj.
    + apply Z.eqb_eq in Hj. exfalso.
      apply (Hpre j (or_introl eq_refl)). exact Hj.
    + apply IH. intros k Hk. apply Hpre. right. exact Hk.
Qed.

(** So does the attach, on the first finger, as long as the location of a
    channel without capability bit is still empty. *)
Lemma wmt_bind_usage_first_attach hi i post pre :
  usage hi = map_usage (wmt_hid_map i) ->
  (forall j, In j pre -> usage hi <> map_usage (wmt_hid_map j)) ->
  forall s l,
    cont l = 0%nat ->
    (USAGE_SUPPORTED (caps l) i = false -> size (sc_locs s 0 i) = 0) ->
    USAGE_SUPPORTED
      (caps (snd (wmt_bind_usage (Some s) l hi (pre ++ i :: post)))) i = true.
Proof.
  intros Hu. induction pre as [|j pre IH]; intros Hpre s l Hc Hz.
  - cbn [app wmt_bind_usage].
    rewrite Hu, Z.eqb_refl, Hc.
    destruct (USAGE_SUPPORTED (caps l) i) eqn:Hb.
    + split_ifs; try (apply wmt_bind_usage_mono; exact Hb);
        try discriminate; cbn [snd caps set_caps];
        rewrite USAGE_SUPPORTED_caps_set, Nat.eqb_refl; reflexivity.
    + rewrite (Hz eq_refl). cbn [Z.eqb negb Nat.ltb Nat.leb snd caps set_caps].
      rewrite USAGE_SUPPORTED_caps_set, Nat.eqb_refl. reflexivity.
  - cbn [app wmt_bind_usage].
    destruct (usage hi =? map_usage (wmt_hid_map j)) eqn:Hj.
    + apply Z.eqb_eq in Hj. exfalso.
      apply (Hpre j (or_introl eq_refl)). exact Hj.
    + apply IH; try assumption. intros k Hk. apply Hpre. right. exact Hk.
Qed.

(** What the attach writes while it binds an item: locations of the
    current finger, for channels with the usage of the item; and no
    capability bit for a finger after the first. *)
Lemma wmt_bind_usage_attach hi idx :
  forall s l,
  exists s',
    fst (wmt_bind_usage (Some s) l hi idx) = Some s'
    /\ (forall c k,
          usage hi <> map_usage (wmt_hid_map k) \/ c <> cont l ->
          sc_locs s' c k = sc_locs s c k)
    /\ ((0 < cont l)%nat ->
        caps (snd (wmt_bind_usage (Some s) l hi idx)) = caps l).
Proof.
  induction idx as [|i idx IH]; intros s l; cbn [wmt_bind_usage].
  - exists s. repeat split.
  - destruct (usage hi =? map_usage (wmt_hid_map i)) eqn:Hu; [|apply IH].
    apply Z.eqb_eq in Hu.
    destruct (negb (size (sc_locs s (cont l) i) =? 0)); [apply IH|].
    assert (Hl : forall c k,
               usage hi <> map_usage (wmt_hid_map k) \/ c <> cont l ->
               upd2 (sc_locs s) (cont l) i (loc hi) c k = sc_locs s c k).
    { intros c k Hck. unfold upd2.
      destruct (Nat.eqb_spec c (cont l)) as [->|]; [|reflexivity].
      destruct (Nat.eqb_spec k i) as [->|]; [|reflexivity].
      destruct Hck as [Hck|Hck]; [contradiction (Hck Hu) | contradiction]. }
    destruct (Nat.ltb_spec 0 (cont l)) as [Hlt|Hge].
    + eexists. split; [reflexivity|]. split; [exact Hl | reflexivity].
    + eexists. split; [reflexivity|]. split; [exact Hl | intro; lia].
Qed.

Lemma wmt_bind_usage_probe hi idx :
  forall l, fst (wmt_bind_usage None l hi idx) = None.
Proof.
  induction idx as [|i idx IH]; intro l; cbn [wmt_bind_usage];
    [reflexivity|].
  split_ifs; try apply IH; reflexivity.
Qed.

Lemma set_caps_set_caps l a b : set_caps (set_caps l a) b = set_caps l b.
Proof. reflexivity. Qed.

Lemma seq_split_at (i n : nat) :
  (i < n)%nat -> seq 0 n = seq 0 i ++ i :: seq (S i) (n - S i).
Proof.
  intro H. replace n with (i + S (n - S i))%nat at 1 by lia.
  rewrite seq_app. reflexivity.
Qed.

Lemma bind_sim_first hi s lA lP :
  probe_sim (Some s, lA) (None, lP) -> cont lA = 0%nat ->
  probe_sim (wmt_bind_usage (Some s) lA hi (seq 0 WMT_N_USAGES))
            (wmt_bind_usage None lP hi (seq 0 WMT_N_USAGES)).
Proof.
  intros (s0 & Ha & _ & Hl & Hbits) Hc. cbn [fst snd] in *.
  injection Ha as <-.
  assert (HcP : cont lP = 0%nat) by (rewrite Hl in Hc; exact Hc).
  destruct (wmt_bind_usage_attach hi (seq 0 WMT_N_USAGES) s lA)
    as (s' & Hs' & Hlocs & _).
  exists s'. split; [exact Hs'|].
  split; [apply wmt_bind_usage_probe|].
  split.
  - rewrite (wmt_bind_usage_locals hi _ (Some s) lA) at 1.
    rewrite (wmt_bind_usage_locals hi _ None lP).
    rewrite Hl. reflexivity.
  - intros i Hi.
    destruct (Hbits i Hi) as [Heq Hz].
    destruct (Z.eq_dec (usage hi) (map_usage (wmt_hid_map i))) as [Hu|Hu].
    + pose proof (usage_first_lt i Hi) as Hlt.
      assert (Hpre : forall j, In j (seq 0 i) ->
                       usage hi <> map_usage (wmt_hid_map j)).
      { intros j Hj. apply in_seq in Hj. rewrite Hu.
        apply not_eq_sym, (usage_first_spec i j Hi). lia. }
      rewrite (seq_split_at i WMT_N_USAGES Hlt).
      rewrite (wmt_bind_usage_first_probe hi i _ _ Hu Hpre).
      rewrite (wmt_bind_usage_first_attach hi i _ _ Hu Hpre s lA Hc Hz).
      split; [reflexivity | discriminate].
    + rewrite !(wmt_bind_usage_other hi _ i Hu).
      split; [exact Heq|].
      rewrite Hlocs by (left; exact Hu). exact Hz.
Qed.

Lemma bind_sim_later hi s lA lP :
  probe_sim (Some s, lA) (None, lP) -> (0 < cont lA)%nat ->
  probe_sim (wmt_bind_usage (Some s) lA hi (seq 0 WMT_N_USAGES)) (None, lP).
Proof.
  intros (s0 & Ha & _ & Hl & Hbits) Hc. cbn [fst snd] in *.
  injection Ha as <-.
  destruct (wmt_bind_usage_attach hi (seq 0 WMT_N_USAGES) s lA)
    as (s' & Hs' & Hlocs & Hcaps).
  specialize (Hcaps Hc).
  assert (Hsame : snd (wmt_bind_usage (Some s) lA hi (seq 0 WMT_N_USAGES))
                  = lA).
  { rewrite wmt_bind_usage_locals, Hcaps. apply set_caps_same. }
  exists s'. split; [exact Hs'|]. split; [reflexivity|].
  cbn [fst snd]. rewrite Hsame.
  split; [exact Hl|].
  intros i Hi. destruct (Hbits i Hi) as [Heq Hz].
  split; [exact Heq|].
  rewrite Hlocs by (right; lia). exact Hz.
Qed.

(** A step that treats the locals but [caps] alike in both modes and
    leaves [caps] and the locations alone keeps the two walks in step. *)
Lemma probe_sim_same s s' lA lP (f : parse_locals -> parse_locals) :
  probe_sim (Some s, lA) (None, lP) ->
  sc_locs s' = sc_locs s ->
  (forall l c, f (set_caps l c) = set_caps (f l) c) ->
  probe_sim (Some s', f lA) (None, f lP).
Proof.
  intros (s0 & Ha & _ & Hl & Hbits) Hlocs Hf. cbn [fst snd] in *.
  injection Ha as <-.
  assert (HcA : caps (f lA) = caps lA).
  { rewrite Hl, Hf. reflexivity. }
  assert (HcP : caps (f lP) = caps lP).
  { rewrite <- (set_caps_same lP) at 1. rewrite Hf. reflexivity. }
  exists s'. cbn [fst snd]. repeat split.
  - rewrite HcA. rewrite Hl at 1. apply Hf.
  - rewrite HcA, HcP. apply Hbits. assumption.
  - rewrite HcA, Hlocs. apply Hbits. assumption.
Qed.

Lemma probe_sim_fields s lA lP :
  probe_sim (Some s, lA) (None, lP) ->
  touch_coll lA = touch_coll lP /\ finger_coll lA = finger_coll lP
  /\ report_id lA = report_id lP /\ cont lA = cont lP.
Proof.
  intros (s0 & _ & _ & Hl & _). cbn [fst snd] in Hl.
  repeat split; rewrite Hl; reflexivity.
Qed.

Lemma parse_input_item_sim a b hi :
  probe_sim a b ->
  probe_sim (parse_input_item (fst a) (snd a) hi)
            (parse_input_item (fst b) (snd b) hi).
Proof.
  destruct a as [scA lA], b as [scP lP]. intro HR.
  pose proof HR as (s & Ha & Hb & _). cbn [fst snd] in *.
  subst scA scP.
  destruct (probe_sim_fields s lA lP HR) as (E1 & E2 & E3 & E4).
  unfold parse_input_item.
  destruct (kind hi); try exact HR.
  - (* hid_input *)
    rewrite E1, E3.
    destruct (WMT_HI_ABSOLUTE hi && touch_coll lP
              && ((report_id lP =? 0) || (report_id lP =? report_ID hi)));
      [|exact HR].
    assert (HR1 : probe_sim (Some s, set_report_id lA (report_ID hi))
                            (None, set_report_id lP (report_ID hi))).
    { apply (probe_sim_same s s lA lP
               (fun l => set_report_id l (report_ID hi)));
        [exact HR | reflexivity | reflexivity]. }
    destruct ((collevel hi =? 1)
              && (usage hi =? HID_USAGE2 HUP_DIGITIZERS HUD_CONTACTCOUNT)).
    { cbn [option_map].
      apply (probe_sim_same s _ _ _ (fun l => set_cont_count_found l true)
               HR1); reflexivity. }
    destruct ((collevel hi =? 1)
              && (usage hi =? HID_USAGE2 HUP_DIGITIZERS HUD_SCAN_TIME)).
    { apply (probe_sim_same s _ _ _ (fun l => set_scan_time_found l true)
               HR1); reflexivity. }
    cbn [finger_coll set_report_id cont]. rewrite E2, E4.
    destruct (negb (finger_coll lP) || negb (collevel hi =? 2));
      [exact HR1|].
    destruct (Nat.ltb_spec 0 (cont lP)) as [Hlt|Hge].
    + destruct (Z.of_nat (cont lP) >=? to_size_t MAX_MT_SLOTS);
        [exact HR1|].
      apply bind_sim_later; [exact HR1|].
      cbn [cont set_report_id]. rewrite E4. exact Hlt.
    + destruct (Z.of_nat (cont lP) >=? to_size_t MAX_MT_SLOTS);
        [exact HR1|].
      apply bind_sim_first; [exact HR1|].
      cbn [cont set_report_id]. rewrite E4. lia.
  - (* hid_collection *)
    assert (HR1 :
      probe_sim
        (Some s,
         if (collevel hi =? 1)
            && (usage hi =? HID_USAGE2 HUP_DIGITIZERS HUD_TOUCHSCREEN)
         then set_type (set_touch_coll lA true) HUD_TOUCHSCREEN else lA)
        (None,
         if (collevel hi =? 1)
            && (usage hi =? HID_USAGE2 HUP_DIGITIZERS HUD_TOUCHSCREEN)
         then set_type (set_touch_coll lP true) HUD_TOUCHSCREEN else lP)).
    { destruct ((collevel hi =? 1)
                && (usage hi =? HID_USAGE2 HUP_DIGITIZERS HUD_TOUCHSCREEN));
        [|exact HR].
      apply (probe_sim_same s s lA lP
               (fun l => set_type (set_touch_coll l true) HUD_TOUCHSCREEN));
        [exact HR | reflexivity | reflexivity]. }
    cbn zeta.
    destruct (probe_sim_fields _ _ _ HR1) as (F1 & _ & F3 & _).
    rewrite F1, F3.
    destruct ((collevel hi =? 1)
              && (usage hi =? HID_USAGE2 HUP_DIGITIZERS HUD_TOUCHPAD)).
    { apply (probe_sim_same s s _ _
               (fun l => set_type (set_touch_coll l true) HUD_TOUCHPAD) HR1);
        reflexivity. }
    match goal with
    | |- context [if ?c then (_, set_finger_coll _ _) else _] => destruct c
    end; [|exact HR1].
    apply (probe_sim_same s s _ _ (fun l => set_finger_coll l true) HR1);
      reflexivity.
  - (* hid_endcollection *)
    rewrite E1, E2, E4.
    destruct ((collevel hi =? 1) && finger_coll lP).
    { apply (probe_sim_same s s lA lP
               (fun l => set_cont (set_finger_coll l false) (S (cont lP)))
               HR); reflexivity. }
    destruct ((collevel hi =? 0) && touch_coll lP); [|exact HR].
    apply (probe_sim_same s s lA lP (fun l => set_touch_coll l false) HR);
      reflexivity.
Qed.

Lemma wmt_parse_walks_sim s d_ptr d_len :
  (forall i, size (sc_locs s 0 i) = 0) ->
  probe_sim (wmt_parse_walks (Some s) d_ptr d_len)
            (wmt_parse_walks None d_ptr d_len).
Proof.
  intro Hz. unfold wmt_parse_walks.
  pose proof (wmt_parse_features_frame (Some s) d_ptr d_len) as [HfA HcA].
  pose proof (wmt_parse_features_frame None d_ptr d_len) as [HfP _].
  pose proof (wmt_parse_features_locals (Some s) d_ptr d_len) as Hloc.
  destruct (wmt_parse_features (Some s) d_ptr d_len) as [scA lA].
  destruct (wmt_parse_features None d_ptr d_len) as [scP lP].
  cbn [fst snd] in *. subst lP.
  destruct scA as [s1|]; [|contradiction HfA].
  destruct scP; [contradiction HfP|].
  destruct HfA as [_ Hlocs].
  unfold wmt_parse_inputs.
  apply (parse_items_sim probe_sim parse_input_item _)
    with (a := (Some s1, set_touch_coll lA false))
         (b := (None, set_touch_coll lA false)).
  - intros a b hi _. apply parse_input_item_sim.
  - exists s1. cbn [fst snd]. repeat split.
    + cbn [caps set_touch_coll]. rewrite HcA, USAGE_SUPPORTED_0.
      intros _. rewrite Hlocs. apply Hz.
Qed.

Lemma forallb_eq_in {A} (f g : A -> bool) (l : list A) :
  (forall x, In x l -> f x = g x) -> forallb f l = forallb g l.
Proof.
  induction l as [|x l IH]; intro H; [reflexivity|].
  cbn [forallb]. rewrite (H x (or_introl eq_refl)), IH; [reflexivity|].
  intros y Hy. apply H. right. exact Hy.
Qed.

Lemma wmt_required_present_sim cA cP :
  wmt_required_first = true ->
  (forall i, usage_first i = true ->
             USAGE_SUPPORTED cA i = USAGE_SUPPORTED cP i) ->
  wmt_required_present cA = wmt_required_present cP.
Proof.
  intros Hrf Hbits. unfold wmt_required_present.
  apply forallb_eq_in. intros i Hi.
  unfold wmt_required_first in Hrf. rewrite forallb_forall in Hrf.
  specialize (Hrf i Hi).
  destruct (map_required (wmt_hid_map i)); [|reflexivity].
  cbn [negb orb] in Hrf. rewrite (Hbits i Hrf). reflexivity.
Qed.

(** Binding an item of non-zero width on the first finger takes the same
    turns in both modes. *)
Lemma bind_full_first hi idx :
  size (loc hi) <> 0 ->
  forall s l,
    cont l = 0%nat ->
    (forall i, USAGE_SUPPORTED (caps l) i
               = negb (size (sc_locs s 0 i) =? 0)) ->
    probe_sim_full (wmt_bind_usage (Some s) l hi idx)
                   (wmt_bind_usage None l hi idx).
Proof.
  intro Hsz. induction idx as [|i idx IH]; intros s l Hc Hinv;
    cbn [wmt_bind_usage].
  - exists s. repeat split. exact Hinv.
  - destruct (usage hi =? map_usage (wmt_hid_map i)); [|apply IH; assumption].
    rewrite Hc, <- Hinv.
    destruct (USAGE_SUPPORTED (caps l) i) eqn:Hb; [apply IH; assumption|].
    cbn [Nat.ltb Nat.leb].
    eexists. split; [reflexivity|]. split; [reflexivity|].
    split; [reflexivity|].
    intro j. cbn [snd caps set_caps sc_locs set_ai set_locs].
    rewrite USAGE_SUPPORTED_caps_set. unfold upd2. cbn [Nat.eqb andb].
    destruct (Nat.eqb_spec j i) as [->|Hne].
    + cbn [orb]. symmetry. apply negb_true_iff, Z.eqb_neq. exact Hsz.
    + cbn [orb]. apply Hinv.
Qed.

Lemma probe_sim_full_same s s' l (f : parse_locals -> parse_locals) :
  probe_sim_full (Some s, l) (None, l) ->
  sc_locs s' = sc_locs s -> caps (f l) = caps l ->
  probe_sim_full (Some s', f l) (None, f l).
Proof.
  intros (s0 & Ha & _ & _ & Hinv) Hlocs Hcaps. cbn [fst snd] in *.
  injection Ha as <-.
  exists s'. cbn [fst snd]. repeat split.
  intro i. rewrite Hcaps, Hlocs. apply Hinv.
Qed.

Lemma parse_input_item_sim_full a b hi :
  (kind hi = hid_input -> size (loc hi) <> 0) ->
  probe_sim_full a b ->
  probe_sim_full (parse_input_item (fst a) (snd a) hi)
                 (parse_input_item (fst b) (snd b) hi).
Proof.
  destruct a as [scA lA], b as [scP lP]. intros Hsz HR.
  pose proof HR as (s & Ha & Hb & Hl & Hinv). cbn [fst snd] in *.
  subst scA scP lA.
  unfold parse_input_item.
  destruct (kind hi); try exact HR.
  - (* hid_input *)
    specialize (Hsz eq_refl).
    destruct (WMT_HI_ABSOLUTE hi && touch_coll lP
              && ((report_id lP =? 0) || (report_id lP =? report_ID hi)));
      [|exact HR].
    assert (HR1 : probe_sim_full (Some s, set_report_id lP (report_ID hi))
                                 (None, set_report_id lP (report_ID hi))).
    { apply (probe_sim_full_same s s lP
               (fun l => set_report_id l (report_ID hi)) HR); reflexivity. }
    destruct ((collevel hi =? 1)
              && (usage hi =? HID_USAGE2 HUP_DIGITIZERS HUD_CONTACTCOUNT)).
    { cbn [option_map].
      apply (probe_sim_full_same s _ _ (fun l => set_cont_count_found l true)
               HR1); reflexivity. }
    destruct ((collevel hi =? 1)
              && (usage hi =? HID_USAGE2 HUP_DIGITIZERS HUD_SCAN_TIME)).
    { apply (probe_sim_full_same s _ _ (fun l => set_scan_time_found l true)
               HR1); reflexivity. }
    cbn [finger_coll set_report_id cont].
    destruct (negb (finger_coll lP) || negb (collevel hi =? 2));
      [exact HR1|].
    destruct (Nat.ltb_spec 0 (cont lP)) as [Hlt|Hge].
    + destruct (Z.of_nat (cont lP) >=? to_size_t MAX_MT_SLOTS);
        [exact HR1|].
      destruct (wmt_bind_usage_attach hi (seq 0 WMT_N_USAGES) s
                  (set_report_id lP (report_ID hi)))
        as (s' & Hs' & Hlocs & Hcaps).
      specialize (Hcaps Hlt).
      exists s'. split; [exact Hs'|]. split; [reflexivity|].
      cbn [fst snd]. rewrite wmt_bind_usage_locals, Hcaps.
      split; [apply set_caps_same|].
      intro i. cbn [caps set_caps set_report_id].
      rewrite Hlocs by (right; cbn [cont set_report_id]; lia). apply Hinv.
    + destruct (Z.of_nat (cont lP) >=? to_size_t MAX_MT_SLOTS);
        [exact HR1|].
      apply bind_full_first; [exact Hsz | cbn; lia | exact Hinv].
  - (* hid_collection *)
    split_ifs;
      try exact HR;
      match goal with
      | |- probe_sim_full (_, ?l') _ =>
          apply (probe_sim_full_same s s lP (fun _ => l') HR); reflexivity
      end.
  - (* hid_endcollection *)
    split_ifs;
      try exact HR;
      match goal with
      | |- probe_sim_full (_, ?l') _ =>
          apply (probe_sim_full_same s s lP (fun _ => l') HR); reflexivity
      end.
Qed.

Lemma wmt_parse_walks_sim_full s d_ptr d_len :
  (forall i, size (sc_locs s 0 i) = 0) ->
  (forall hi,
      In hi (hid_start_parse d_ptr d_len
               (Z.shiftl 1 (hid_kind_code hid_input))) ->
      kind hi = hid_input -> size (loc hi) <> 0) ->
  probe_sim_full (wmt_parse_walks (Some s) d_ptr d_len)
                 (wmt_parse_walks None d_ptr d_len).
Proof.
  intros Hz Hsz. unfold wmt_parse_walks.
  pose proof (wmt_parse_features_frame (Some s) d_ptr d_len) as [HfA HcA].
  pose proof (wmt_parse_features_frame None d_ptr d_len) as [HfP _].
  pose proof (wmt_parse_features_locals (Some s) d_ptr d_len) as Hloc.
  destruct (wmt_parse_features (Some s) d_ptr d_len) as [scA lA].
  destruct (wmt_parse_features None d_ptr d_len) as [scP lP].
  cbn [fst snd] in *. subst lP.
  destruct scA as [s1|]; [|contradiction HfA].
  destruct scP; [contradiction HfP|].
  destruct HfA as [_ Hlocs].
  unfold wmt_parse_inputs.
  apply (parse_items_sim probe_sim_full parse_input_item _)
    with (a := (Some s1, set_touch_coll lA false))
         (b := (None, set_touch_coll lA false)).
  - intros a b hi Hin. apply parse_input_item_sim_full. apply Hsz. exact Hin.
  - exists s1. cbn [fst snd]. repeat split.
    intro i. cbn [caps set_touch_coll].
    rewrite HcA, USAGE_SUPPORTED_0, Hlocs, Hz. reflexivity.
Qed.

(** C9, as amended.  On a softc whose location table is still empty for the
    first finger, and with usage codes that give every required channel a
    code no earlier table entry has, the probe returns what the attach
    returns; after the walks the two have the same found-flags, finger
    count and type, and the same capability bit for every channel that is
    the first table entry of its usage (the required ones among them); and
    when no input field has zero width, the same capability set. *)
Theorem wmt_hid_parse_probe_attach (s : imt_softc) (d_ptr : hid_descriptor)
  (d_len : Z) :
  wmt_required_first = true ->
  (forall i, size (sc_locs s 0 i) = 0) ->
  let lA := snd (wmt_parse_walks (Some s) d_ptr d_len) in
  let lP := snd (wmt_parse_walks None d_ptr d_len) in
  fst (wmt_hid_parse None d_ptr d_len)
  = fst (wmt_hid_parse (Some s) d_ptr d_len)
  /\ cont_count_found lP = cont_count_found lA
  /\ scan_time_found lP = scan_time_found lA
  /\ cont lP = cont lA /\ type lP = type lA
  /\ wmt_required_present (caps lP) = wmt_required_present (caps lA)
  /\ (forall i, usage_first i = true ->
        USAGE_SUPPORTED (caps lP) i = USAGE_SUPPORTED (caps lA) i)
  /\ ((forall hi,
         In hi (hid_start_parse d_ptr d_len
                  (Z.shiftl 1 (hid_kind_code hid_input))) ->
         kind hi = hid_input -> size (loc hi) <> 0) ->
      caps lP = caps lA).
Proof.
  intros Hrf Hz lA lP.
  pose proof (wmt_parse_walks_sim s d_ptr d_len Hz) as (s2 & HsA & HsP & Hl & Hb).
  fold lA lP in Hl, Hb.
  assert (Hreq : wmt_required_present (caps lP)
                 = wmt_required_present (caps lA)).
  { apply wmt_required_present_sim; [exact Hrf|].
    intros i Hi. symmetry. apply Hb. exact Hi. }
  assert (Hfa : wmt_found_all lP = wmt_found_all lA).
  { rewrite Hl. reflexivity. }
  assert (Hty : type lP = type lA) by (rewrite Hl; reflexivity).
  split.
  - unfold wmt_hid_parse. subst lA lP. unfold wmt_parse_walks in *.
    pose proof (wmt_parse_features_locals (Some s) d_ptr d_len) as Hloc.
    destruct (wmt_parse_features (Some s) d_ptr d_len) as [scA l1A].
    destruct (wmt_parse_features None d_ptr d_len) as [scP l1P].
    cbn [fst snd] in Hloc. subst l1P.
    destruct (cont_max_rid l1A =? 0); [reflexivity|].
    destruct (wmt_parse_inputs scA l1A d_ptr d_len) as [sc2A l2A].
    destruct (wmt_parse_inputs scP l1A d_ptr d_len) as [sc2P l2P].
    cbn [fst snd] in *. subst sc2A sc2P.
    rewrite Hfa, Hreq.
    destruct (wmt_found_all l2A); [|reflexivity].
    destruct (wmt_required_present (caps l2A)); [|reflexivity].
    cbn [negb fst]. exact Hty.
  - repeat split; try (rewrite Hl; reflexivity); try exact Hreq.
    + intros i Hi. symmetry. apply Hb. exact Hi.
    + intro Hsz.
      destruct (wmt_parse_walks_sim_full s d_ptr d_len Hz Hsz)
        as (s3 & _ & _ & Hsame & _).
      subst lA lP. rewrite Hsame. reflexivity.
Qed.

End Analyzer.

(** ** Report Decoder *)

Section Decoder.

Context {usbhid : UsbHid} {evdev_if : Evdev}.

Lemma sync_count_app (a b : evdev_dev) :
  sync_count (a ++ b) = (sync_count a + sync_count b)%nat.
Proof. unfold sync_count. rewrite filter_app, length_app. reflexivity. Qed.

Lemma abs_values_app c (a b : evdev_dev) :
  abs_values c (a ++ b) = abs_values c a ++ abs_values c b.
Proof. unfold abs_values. apply flat_map_app. Qed.

Lemma only_abs_app a b : only_abs a -> only_abs b -> only_abs (a ++ b).
Proof.
  unfold only_abs. intros Ha Hb. rewrite filter_app, Ha, Hb. reflexivity.
Qed.

Lemma imt_push_slot_events caps slot_data evdev :
  exists abs, imt_push_slot caps slot_data evdev = evdev ++ abs
              /\ only_abs abs.
Proof.
  unfold imt_push_slot. generalize (seq 0 WMT_N_USAGES) as idx.
  intro idx. revert evdev.
  induction idx as [|i idx IH]; intro evdev; cbn [fold_left].
  - exists []. split; [symmetry; apply app_nil_r | reflexivity].
  - match goal with |- context [if ?c then _ else _] => destruct c end.
    + destruct (IH (evdev_push_abs evdev (map_code (wmt_hid_map i))
                      (to_int32 (slot_data i)))) as (abs & -> & Ha).
      unfold evdev_push_abs. rewrite <- app_assoc.
      eexists. split; [reflexivity|].
      apply only_abs_app; [reflexivity | exact Ha].
    + apply IH.
Qed.

Lemma imt_intr_contact_frame buf len sc evdev cont :
  let r := imt_intr_contact buf len (sc, evdev) cont in
  decoder_frame sc (fst r)
  /\ exists abs, snd r = evdev ++ abs /\ only_abs abs.
Proof.
  cbn zeta. unfold imt_intr_contact.
  destruct (_ =? -1).
  - split; [repeat split|]. exists []. split;
      [symmetry; apply app_nil_r | reflexivity].
  - destruct (imt_contact_active _ _).
    + split; [repeat split|]. apply imt_push_slot_events.
    + split; [repeat split|]. cbn [snd]. unfold evdev_push_abs.
      rewrite <- app_assoc. eexists. split; reflexivity.
Qed.

Lemma imt_intr_contacts_frame buf len conts :
  forall sc evdev,
    let r := fold_left (imt_intr_contact buf len) conts (sc, evdev) in
    decoder_frame sc (fst r)
    /\ exists abs, snd r = evdev ++ abs /\ only_abs abs.
Proof.
  induction conts as [|c conts IH]; intros sc evdev; cbn [fold_left].
  - split; [repeat split|]. exists []. split;
      [symmetry; apply app_nil_r | reflexivity].
  - destruct (imt_intr_contact_frame buf len sc evdev c) as (Hf & abs & Ha & Ho).
    destruct (imt_intr_contact buf len (sc, evdev) c) as [sc1 ev1].
    cbn [fst snd] in *. subst ev1.
    destruct (IH sc1 (evdev ++ abs)) as (Hf2 & abs2 & Ha2 & Ho2).
    cbn zeta in *. split.
    + unfold decoder_frame in *.
      repeat match goal with H : _ /\ _ |- _ => destruct H end.
      repeat split; congruence.
    + exists (abs ++ abs2). rewrite Ha2, app_assoc.
      split; [reflexivity | apply only_abs_app; assumption].
Qed.

(** What a call with the expected report id does to the counter and to the
    sink. *)
Lemma imt_intr_run sc evdev buf len :
  let r := imt_intr sc evdev buf len (sc_report_id sc) in
  let todo := to_uint32 (imt_nconts_todo sc buf len - imt_nconts sc buf len) in
  sc_nconts_todo (fst r) = todo
  /\ sc_nconts_per_report (fst r) = sc_nconts_per_report sc
  /\ sc_report_id (fst r) = sc_report_id sc
  /\ sc_isize (fst r) = sc_isize sc
  /\ sc_cont_count_loc (fst r) = sc_cont_count_loc sc
  /\ exists abs,
       only_abs abs
       /\ snd r = evdev ++ abs ++ (if todo =? 0 then [EvSync] else []).
Proof.
  cbn zeta. unfold imt_intr. rewrite Z.eqb_refl. cbn [negb].
  destruct (imt_intr_contacts_frame (imt_intr_buf sc buf len) len
              (seq 0 (Z.to_nat (imt_nconts sc buf len)))
              (set_nconts_todo sc (imt_nconts_todo sc buf len)) evdev)
    as (Hf & abs & Ha & Ho).
  destruct (fold_left _ _ _) as [sc1 ev1]. cbn [fst snd] in *. subst ev1.
  destruct Hf as (H1 & H2 & H3 & H4 & H5 & _).
  cbn [sc_nconts_todo set_nconts_todo sc_nconts_per_report sc_report_id
       sc_isize sc_cont_count_loc] in *.
  rewrite H1.
  destruct (_ =? 0); cbn [fst snd sc_nconts_todo set_nconts_todo
                          sc_nconts_per_report sc_report_id sc_isize
                          sc_cont_count_loc];
    (repeat split; try assumption); exists abs; (split; [exact Ho|]).
  - unfold evdev_sync. symmetry. apply app_assoc.
  - rewrite app_nil_r. reflexivity.
Qed.

Lemma imt_cont_count_frame sc sc' buf len :
  sc_isize sc' = sc_isize sc ->
  sc_cont_count_loc sc' = sc_cont_count_loc sc ->
  imt_cont_count sc' buf len = imt_cont_count sc buf len.
Proof.
  intros H1 H2. unfold imt_cont_count, imt_intr_buf. rewrite H1, H2.
  reflexivity.
Qed.

Lemma sync_count_only_abs evdev abs :
  only_abs abs -> sync_count (evdev ++ abs) = sync_count evdev.
Proof.
  intro H. rewrite sync_count_app. unfold sync_count at 2. rewrite H.
  cbn. lia.
Qed.

(** One call of a hybrid burst on a device with one contact per report:
    the counter goes from [n] (taken from the count field, or kept when the
    field is 0) to [n - 1], one contact is processed, and the sync comes
    exactly when [n - 1] is 0. *)
Lemma imt_intr_hybrid_step sc evdev buf len n :
  sc_nconts_per_report sc = 1 ->
  imt_nconts_todo sc buf len = n -> 1 <= n < 2 ^ 32 ->
  let r := imt_intr sc evdev buf len (sc_report_id sc) in
  imt_nconts sc buf len = 1
  /\ sc_nconts_todo (fst r) = n - 1
  /\ sc_nconts_per_report (fst r) = 1
  /\ sc_report_id (fst r) = sc_report_id sc
  /\ sc_isize (fst r) = sc_isize sc
  /\ sc_cont_count_loc (fst r) = sc_cont_count_loc sc
  /\ exists abs,
       only_abs abs
       /\ snd r = evdev ++ abs ++ (if n - 1 =? 0 then [EvSync] else []).
Proof.
  intros Hp Hn Hr.
  destruct (imt_intr_run sc evdev buf len) as (H1 & H2 & H3 & H4 & H5 & H6).
  assert (Hc : imt_nconts sc buf len = 1).
  { unfold imt_nconts, MIN. rewrite Hn, Hp.
    destruct (Z.ltb_spec n 1); [lia | reflexivity]. }
  rewrite Hn, Hc in H1, H6.
  rewrite to_uint32_small in H1, H6 by lia.
  cbn zeta. repeat split; try assumption. congruence.
Qed.

(** C1.  Hybrid delivery on a device with one contact per report: from a
    counter of 0, three reports with the expected id whose count fields
    are 3, 0 and 0 process one contact each (3 in total), the counter goes
    3, 2, 1, 0 without being reset by the zero counts, and the only sync is
    the last event of the third call. *)
Theorem imt_intr_hybrid_delivery (sc : imt_softc) (evdev : evdev_dev)
  (b1 b2 b3 : list Z) (l1 l2 l3 : Z) :
  sc_nconts_todo sc = 0 -> sc_nconts_per_report sc = 1 ->
  imt_cont_count sc b1 l1 = 3 ->
  imt_cont_count sc b2 l2 = 0 ->
  imt_cont_count sc b3 l3 = 0 ->
  let id := sc_report_id sc in
  let r1 := imt_intr sc evdev b1 l1 id in
  let r2 := imt_intr (fst r1) (snd r1) b2 l2 id in
  let r3 := imt_intr (fst r2) (snd r2) b3 l3 id in
  imt_nconts sc b1 l1 + imt_nconts (fst r1) b2 l2
  + imt_nconts (fst r2) b3 l3 = 3
  /\ imt_nconts_todo sc b1 l1 = 3
  /\ sc_nconts_todo (fst r1) = 2
  /\ imt_nconts_todo (fst r1) b2 l2 = 2
  /\ sc_nconts_todo (fst r2) = 1
  /\ imt_nconts_todo (fst r2) b3 l3 = 1
  /\ sc_nconts_todo (fst r3) = 0
  /\ sync_count (snd r1) = sync_count evdev
  /\ sync_count (snd r2) = sync_count evdev
  /\ sync_count (snd r3) = S (sync_count evdev)
  /\ exists abs, only_abs abs /\ snd r3 = snd r2 ++ abs ++ [EvSync].
Proof.
  intros Ht Hp C1 C2 C3. cbn zeta.
  assert (T1 : imt_nconts_todo sc b1 l1 = 3).
  { unfold imt_nconts_todo. rewrite C1. reflexivity. }
  destruct (imt_intr_hybrid_step sc evdev b1 l1 3 Hp T1 ltac:(lia))
    as (N1 & D1 & P1 & I1 & S1 & L1 & abs1 & O1 & E1).
  set (r1 := imt_intr sc evdev b1 l1 (sc_report_id sc)) in *.
  assert (T2 : imt_nconts_todo (fst r1) b2 l2 = 2).
  { unfold imt_nconts_todo.
    rewrite (imt_cont_count_frame sc (fst r1) b2 l2 S1 L1), C2, D1.
    reflexivity. }
  destruct (imt_intr_hybrid_step (fst r1) (snd r1) b2 l2 2 P1 T2 ltac:(lia))
    as (N2 & D2 & P2 & I2 & S2 & L2 & abs2 & O2 & E2).
  rewrite I1 in *.
  set (r2 := imt_intr (fst r1) (snd r1) b2 l2 (sc_report_id sc)) in *.
  assert (T3 : imt_nconts_todo (fst r2) b3 l3 = 1).
  { unfold imt_nconts_todo.
    rewrite (imt_cont_count_frame sc (fst r2) b3 l3), C3, D2;
      [reflexivity | congruence | congruence]. }
  destruct (imt_intr_hybrid_step (fst r2) (snd r2) b3 l3 1 P2 T3 ltac:(lia))
    as (N3 & D3 & P3 & I3 & S3 & L3 & abs3 & O3 & E3).
  rewrite I2 in *.
  set (r3 := imt_intr (fst r2) (snd r2) b3 l3 (sc_report_id sc)) in *.
  cbn [Z.sub Z.eqb Z.add Z.opp Z.pos_sub Pos.pred_double] in *.
  rewrite app_nil_r in E1, E2.
  assert (Y1 : sync_count (snd r1) = sync_count evdev)
    by (rewrite E1; apply sync_count_only_abs; exact O1).
  assert (Y2 : sync_count (snd r2) = sync_count evdev)
    by (rewrite E2, sync_count_only_abs by exact O2; exact Y1).
  repeat split; try assumption; try lia.
  - rewrite E3, app_assoc, sync_count_app, sync_count_only_abs by exact O3.
    rewrite Y2. cbn. lia.
  - exists abs3. split; assumption.
Qed.

(** C2, as amended.  A call with the expected report id adds events of the
    contacts and then one sync exactly when the counter is 0 at the end of
    the call, whatever it was at the start; in particular a report with a
    zero count field that arrives while the counter is 0 leaves the counter
    at 0 and emits one sync and nothing else. *)
Theorem imt_intr_sync (sc : imt_softc) (evdev : evdev_dev) (buf : list Z)
  (len : Z) :
  let r := imt_intr sc evdev buf len (sc_report_id sc) in
  (exists abs,
     only_abs abs
     /\ snd r = evdev ++ abs
                ++ (if sc_nconts_todo (fst r) =? 0 then [EvSync] else []))
  /\ sync_count (snd r)
     = (sync_count evdev
        + (if (sc_nconts_todo (fst r) =? 0)%Z then 1 else 0))%nat
  /\ (sc_nconts_todo sc = 0 -> imt_cont_count sc buf len = 0 ->
      0 <= sc_nconts_per_report sc ->
      sc_nconts_todo (fst r) = 0 /\ snd r = evdev ++ [EvSync]).
Proof.
  cbn zeta.
  destruct (imt_intr_run sc evdev buf len) as (H1 & _ & _ & _ & _ & abs & Ho & He).
  rewrite <- H1 in He.
  split; [exists abs; split; assumption|].
  split.
  - rewrite He, app_assoc, sync_count_app, sync_count_only_abs by exact Ho.
    destruct (_ =? 0); reflexivity.
  - intros Ht Hc Hp.
    assert (T : imt_nconts_todo sc buf len = 0).
    { unfold imt_nconts_todo. rewrite Hc. exact Ht. }
    assert (N : imt_nconts sc buf len = 0).
    { unfold imt_nconts, MIN. rewrite T.
      destruct (Z.ltb_spec 0 (sc_nconts_per_report sc)); lia. }
    unfold imt_intr. rewrite Z.eqb_refl, N, T. cbn. split; reflexivity.
Qed.

Lemma abs_values_push_slot c caps slot_data idx :
  forall evdev,
    abs_values c
      (fold_left
         (fun ev usage =>
            if USAGE_SUPPORTED caps usage
               && negb (abs_code_eqb (map_code (wmt_hid_map usage)) WMT_NO_CODE)
            then evdev_push_abs ev (map_code (wmt_hid_map usage))
                   (to_int32 (slot_data usage))
            else ev) idx evdev)
    = abs_values c evdev
      ++ flat_map
           (fun usage =>
              if USAGE_SUPPORTED caps usage
                 && negb (abs_code_eqb (map_code (wmt_hid_map usage))
                            WMT_NO_CODE)
                 && abs_code_eqb (map_code (wmt_hid_map usage)) c
              then [to_int32 (slot_data usage)] else []) idx.
Proof.
  induction idx as [|i idx IH]; intro evdev; cbn [fold_left flat_map].
  - symmetry. apply app_nil_r.
  - rewrite IH.
    destruct (USAGE_SUPPORTED caps i
              && negb (abs_code_eqb (map_code (wmt_hid_map i)) WMT_NO_CODE)).
    + unfold evdev_push_abs. rewrite abs_values_app, <- app_assoc.
      cbn [abs_values flat_map andb app]. rewrite app_nil_r. reflexivity.
    + reflexivity.
Qed.

Lemma c_not_int32 x : to_int32 (c_not x) = c_not x.
Proof. unfold c_not. destruct (x =? 0); reflexivity. Qed.

(** C8, as amended.  For a contact that is reported active, the in-range
    value handed to the sink is the negation of the in-range field of the
    current report (1 when the field is 0 or has no location, 0 otherwise);
    the scratch values left by earlier reports play no part in it. *)
Theorem imt_intr_contact_in_range (buf : list Z) (len : Z) (sc : imt_softc)
  (evdev : evdev_dev) (cont : nat) :
  let d := imt_slot_data sc buf len cont in
  let slot :=
    evdev_get_mt_slot_by_tracking_id evdev (to_int32 (d WMT_CONTACTID)) in
  slot <> -1 -> imt_contact_active sc d = true ->
  USAGE_SUPPORTED (sc_caps sc) WMT_IN_RANGE = true ->
  abs_values ABS_MT_DISTANCE (snd (imt_intr_contact buf len (sc, evdev) cont))
  = abs_values ABS_MT_DISTANCE evdev ++ [c_not (d WMT_IN_RANGE)]
  /\ forall scratch,
       imt_intr_contact buf len (set_slot_data sc scratch, evdev) cont
       = imt_intr_contact buf len (sc, evdev) cont.
Proof.
  cbn zeta. intros Hslot Hact Hcap. split; [|reflexivity].
  unfold imt_intr_contact.
  apply Z.eqb_neq in Hslot. rewrite Hslot, Hact. cbn [snd].
  unfold imt_push_slot. rewrite abs_values_push_slot.
  f_equal. unfold WMT_N_USAGES.
  cbn [seq flat_map wmt_hid_map map_code abs_code_eqb negb andb app].
  rewrite !andb_false_r. cbn [app].
  change 8%nat with WMT_IN_RANGE. rewrite Hcap. cbn [andb app].
  unfold imt_active_slot_data, upd. cbn [Nat.eqb WMT_IN_RANGE WMT_SLOT
    WMT_TIP_SWITCH WMT_ORIENTATION WMT_MAJOR WMT_MINOR WMT_WIDTH WMT_HEIGHT].
  rewrite c_not_int32. reflexivity.
Qed.

End Decoder.

(** ** Feature Refinement *)

Section FeatureRefinement.

Context {usbhid : UsbHid} {evdev_if : Evdev}.

(** C7.  The feature report value 0 leaves [*sc] as it is; a value above
    [MAX_MT_SLOTS] counts as [MAX_MT_SLOTS]; and a value that is not 0
    after the clamp becomes, less one, the maximum of the slot axis, so
    that it overrides a different maximum taken from the descriptor. *)
Theorem wmt_cont_max_parse_spec (sc : imt_softc) (r_ptr : list Z)
  (r_len : Z) :
  0 <= MAX_MT_SLOTS < 2 ^ 31 ->
  - 2 ^ 31 <= ai_max (sc_ai sc WMT_SLOT) < 2 ^ 31 ->
  let decoded :=
    to_uint32 (hid_get_data_unsigned r_ptr r_len (sc_cont_max_loc sc)) in
  let clamped := wmt_feature_cont_max sc r_ptr r_len in
  let sc' := wmt_cont_max_parse sc r_ptr r_len in
  (decoded = 0 -> sc' = sc)
  /\ (MAX_MT_SLOTS < decoded -> clamped = MAX_MT_SLOTS)
  /\ (decoded <= MAX_MT_SLOTS -> clamped = decoded)
  /\ (clamped <> 0 -> ai_max (sc_ai sc' WMT_SLOT) = clamped - 1)
  /\ (clamped <> 0 -> clamped <> ai_max (sc_ai sc WMT_SLOT) + 1 ->
      sc_ai sc' WMT_SLOT
      = mk_absinfo (ai_min (sc_ai sc WMT_SLOT)) (clamped - 1)
          (ai_res (sc_ai sc WMT_SLOT)))
  /\ (clamped = 0 \/ clamped = ai_max (sc_ai sc WMT_SLOT) + 1 -> sc' = sc).
Proof.
  intros Hmax Hai. cbn zeta.
  unfold wmt_cont_max_parse, wmt_feature_cont_max.
  pose proof (to_uint32_range
                (hid_get_data_unsigned r_ptr r_len (sc_cont_max_loc sc)))
    as Hd.
  set (d := to_uint32 (hid_get_data_unsigned r_ptr r_len (sc_cont_max_loc sc)))
    in *.
  rewrite (to_uint32_small MAX_MT_SLOTS) by lia.
  rewrite !Z.gtb_ltb.
  set (m := ai_max (sc_ai sc WMT_SLOT)) in *.
  assert (Hm : forall c, 0 <= c < 2 ^ 31 ->
                 (c =? to_uint32 (m + 1)) = (c =? m + 1)).
  { intros c Hc. unfold to_uint32.
    destruct (Z.ltb_spec (m + 1) 0).
    - replace ((m + 1) mod 2 ^ 32) with (m + 1 + 2 ^ 32).
      + destruct (Z.eqb_spec c (m + 1 + 2 ^ 32)); [lia|].
        destruct (Z.eqb_spec c (m + 1)); [lia | reflexivity].
      + apply Z.mod_unique with (q := -1); lia.
    - rewrite Z.mod_small by lia. reflexivity. }
  destruct (Z.ltb_spec MAX_MT_SLOTS d) as [Hgt|Hle].
  - rewrite Hm by lia.
    destruct (Z.ltb_spec 0 MAX_MT_SLOTS) as [Hp|Hz];
      destruct (Z.eqb_spec MAX_MT_SLOTS (m + 1)) as [He|He];
      cbn [negb andb set_ai sc_ai upd Nat.eqb WMT_SLOT WMT_TIP_SWITCH ai_max];
      rewrite ?to_int32_small by lia;
      repeat split; intros; try reflexivity; try lia;
      try (destruct H; lia).
  - rewrite Hm by lia.
    destruct (Z.ltb_spec 0 d) as [Hp|Hz];
      destruct (Z.eqb_spec d (m + 1)) as [He|He];
      cbn [negb andb set_ai sc_ai upd Nat.eqb WMT_SLOT WMT_TIP_SWITCH ai_max];
      rewrite ?to_int32_small by lia;
      repeat split; intros; try reflexivity; try lia;
      try (destruct H; lia).
Qed.

End FeatureRefinement.

(** ** Mode Selector *)

Section ModeSelector.

Context {usbhid : UsbHid} {iichid_if : Iichid}.

(** C10.  The guard of [imt_set_input_mode] is false for every report
    length, 0 and lengths above [WMT_BSIZE] included, so the function never
    returns at the guard.  It always reads the report with that length,
    zeroes the first [input_mode_rlen] bytes of the buffer when the read
    failed, stores the mode in the buffer and writes the report with that
    buffer and length.  What it returns is the error code of the write: it
    is [EINVAL] exactly when the write gives [EINVAL]. *)
Theorem imt_set_input_mode_guard_dead (sc : imt_softc)
  (io : list iichid_call) (mode : Z) :
  let rlen := sc_input_mode_rlen sc in
  let rid := sc_input_mode_rid sc in
  let get := GetReport rlen I2C_HID_REPORT_TYPE_FEATURE rid in
  let read :=
    iichid_get_report io (sc_buf sc) rlen I2C_HID_REPORT_TYPE_FEATURE rid in
  let buf :=
    hid_put_data_unsigned
      (if fst read =? 0 then snd read
       else bzero (snd read) 0 (Z.to_nat rlen))
      rlen (sc_input_mode_loc sc) mode in
  let error :=
    iichid_set_report (io ++ [get]) buf rlen I2C_HID_REPORT_TYPE_FEATURE
      rid in
  imt_input_mode_guard sc = false
  /\ imt_set_input_mode sc io mode
     = (error, set_buf sc buf,
        (io ++ [get])
        ++ [SetReport buf rlen I2C_HID_REPORT_TYPE_FEATURE rid])
  /\ (fst (fst (imt_set_input_mode sc io mode)) = EINVAL
      <-> error = EINVAL).
Proof.
  cbn zeta.
  assert (Hg : imt_input_mode_guard sc = false).
  { unfold imt_input_mode_guard, WMT_BSIZE.
    destruct (Z.eqb_spec (sc_input_mode_rlen sc) 0) as [->|]; reflexivity. }
  split; [exact Hg|].
  unfold imt_set_input_mode. rewrite Hg.
  destruct (iichid_get_report io (sc_buf sc) (sc_input_mode_rlen sc)
              I2C_HID_REPORT_TYPE_FEATURE (sc_input_mode_rid sc))
    as [error buf].
  cbn [fst snd].
  destruct (error =? 0); cbn [negb fst]; split; reflexivity.
Qed.

End ModeSelector.

(** * The driver on the sample environment *)

(** ** Report Size Calculator *)

(** C3 as stated fails on a field of [2^32 - 1] bits: the rounding
    [temp + 7] wraps around and the calculator returns 0 bytes, where the
    span in bytes, rounded up, is [2^29]. *)
Lemma wmt_hid_report_size_wraps :
  @wmt_hid_report_size sample_usbhid huge_field 0 hid_input 1 = 0
  /\ spec_report_size (sample_start_parse huge_field 0 1) hid_input 1
     = 536870912
  /\ @wmt_hid_report_size sample_usbhid huge_field 0 hid_input 1
     <> spec_report_size (sample_start_parse huge_field 0 1) hid_input 1.
Proof.
  split; [vm_compute; reflexivity|]. split; [vm_compute; reflexivity|].
  vm_compute. discriminate.
Qed.

Lemma wmt_hid_report_size_spec_witness :
  (forall h,
      In h (matching_items
              (@hid_start_parse sample_usbhid
                 (touch_descriptor 5 finger_fields) 0
                 (Z.shiftl 1 (@hid_kind_code sample_usbhid hid_input)))
              hid_input 1) ->
      item_in_range h)
  /\ @wmt_hid_report_size sample_usbhid (touch_descriptor 5 finger_fields) 0
       hid_input 1
     = spec_report_size
         (@hid_start_parse sample_usbhid
            (touch_descriptor 5 finger_fields) 0
            (Z.shiftl 1 (@hid_kind_code sample_usbhid hid_input)))
         hid_input 1.
Proof.
  assert (H : forall h,
             In h (matching_items
                     (@hid_start_parse sample_usbhid
                        (touch_descriptor 5 finger_fields) 0
                        (Z.shiftl 1 (@hid_kind_code sample_usbhid hid_input)))
                     hid_input 1) ->
             item_in_range h).
  { assert (E : matching_items
                   (@hid_start_parse sample_usbhid
                      (touch_descriptor 5 finger_fields) 0
                      (Z.shiftl 1 (@hid_kind_code sample_usbhid hid_input)))
                   hid_input 1
                 = [field hid_input 1 U_CONTACTCOUNT 1 16 8 0;
                    field hid_input 1 U_SCAN_TIME 1 65535 16 8]
                   ++ finger_fields)
      by (vm_compute; reflexivity).
    intros h Hin. rewrite E in Hin.
    repeat (destruct Hin as [<-|Hin];
            [unfold item_in_range, item_end; cbn; lia|]).
    contradiction. }
  split; [exact H|].
  exact (proj1 (proj2 (proj2 (@wmt_hid_report_size_spec sample_usbhid
                                (touch_descriptor 5 finger_fields) 0
                                hid_input 1)))
           H).
Defined.

(** ** Descriptor Analyzer *)

Lemma wmt_hid_parse_missing_required_witness :
  map_required (@wmt_hid_map sample_usbhid WMT_Y) = true
  /\ (forall hi,
         In hi (@wmt_finger_fields sample_usbhid sample_evdev
                  (Some softc_zero)
                  (touch_descriptor 5 (removelast finger_fields)) 0) ->
         usage hi <> map_usage (@wmt_hid_map sample_usbhid WMT_Y))
  /\ fst (@wmt_hid_parse sample_usbhid sample_evdev (Some softc_zero)
            (touch_descriptor 5 (removelast finger_fields)) 0) = 0.
Proof.
  assert (H : forall hi,
             In hi (@wmt_finger_fields sample_usbhid sample_evdev
                      (Some softc_zero)
                      (touch_descriptor 5 (removelast finger_fields)) 0) ->
             usage hi <> map_usage (@wmt_hid_map sample_usbhid WMT_Y)).
  { assert (E : @wmt_finger_fields sample_usbhid sample_evdev
                   (Some softc_zero)
                   (touch_descriptor 5 (removelast finger_fields)) 0
                 = removelast finger_fields)
      by (vm_compute; reflexivity).
    intros hi Hin. rewrite E in Hin.
    repeat (destruct Hin as [<-|Hin]; [vm_compute; discriminate|]).
    contradiction. }
  assert (R : map_required (@wmt_hid_map sample_usbhid WMT_Y) = true)
    by (vm_compute; reflexivity).
  split; [exact R|]. split; [exact H|].
  exact (proj1 (@wmt_hid_parse_missing_required sample_usbhid sample_evdev
                  (Some softc_zero)
                  (touch_descriptor 5 (removelast finger_fields))
                  0 WMT_Y R H)).
Defined.

(** C5 fails on the code.  In the first walk the end of a configuration
    collection leaves [conf_coll] set (the end of a touchscreen collection
    does clear [touch_coll]), so that an input mode feature declared after
    the configuration collection was closed is still recorded. *)
Theorem parse_features_conf_coll_not_cleared :
  conf_coll
    (snd (@wmt_parse_features sample_usbhid None
            [coll 1 U_CONFIG 0; endcoll 0] 0)) = true
  /\ touch_coll
       (snd (@wmt_parse_features sample_usbhid None
               [coll 1 U_TOUCHSCREEN 0; endcoll 0] 0)) = false
  /\ input_mode_rid
       (snd (@wmt_parse_features sample_usbhid None
               closed_config_descriptor 0)) = 7.
Proof. repeat split; vm_compute; reflexivity. Qed.

Lemma wmt_hid_parse_slot_axis_witness :
  fst (@wmt_hid_parse sample_usbhid sample_evdev (Some softc_zero)
         (touch_descriptor 5 finger_fields) 0) <> 0
  /\ @wmt_declared_cont_max sample_usbhid (Some softc_zero)
       (touch_descriptor 5 finger_fields) 0 = 5
  /\ exists s',
       snd (@wmt_hid_parse sample_usbhid sample_evdev (Some softc_zero)
              (touch_descriptor 5 finger_fields) 0) = Some s'
       /\ ai_min (sc_ai s' WMT_SLOT) = 0
       /\ ai_max (sc_ai s' WMT_SLOT) = 5 - 1.
Proof.
  assert (H : fst (@wmt_hid_parse sample_usbhid sample_evdev
                     (Some softc_zero)
                     (touch_descriptor 5 finger_fields) 0) <> 0)
    by (vm_compute; discriminate).
  assert (EN : @wmt_declared_cont_max sample_usbhid (Some softc_zero)
                 (touch_descriptor 5 finger_fields) 0 = 5)
    by (vm_compute; reflexivity).
  assert (HN : 1 <= 5 <= @MAX_MT_SLOTS sample_evdev)
    by (vm_compute; split; discriminate).
  split; [exact H|]. split; [exact EN|].
  destruct (@wmt_hid_parse_slot_axis sample_usbhid sample_evdev softc_zero
              (touch_descriptor 5 finger_fields) 0 H)
    as (s' & Hs & Hmin & Hmax & _).
  rewrite EN in Hmax.
  exists s'. split; [exact Hs|]. split; [exact Hmin | exact (Hmax HN)].
Defined.

(** C9 as stated fails.  On a finger whose X field is declared twice with
    zero width the probe computes a capability set with the TOOL_X bit and
    the attach one without it; and on a softc whose location table already
    holds a location for X the attach rejects the sample touchscreen that
    the probe accepts. *)
Lemma wmt_hid_parse_probe_attach_differ :
  caps (snd (@wmt_parse_walks sample_usbhid sample_evdev None
               (touch_descriptor 5 zero_width_fields) 0))
  <> caps (snd (@wmt_parse_walks sample_usbhid sample_evdev (Some softc_zero)
                  (touch_descriptor 5 zero_width_fields) 0))
  /\ fst (sample_parse None (touch_descriptor 5 finger_fields))
     <> fst (sample_parse
               (Some (set_locs softc_zero (fun _ _ => mk_loc 1 1 0)))
               (touch_descriptor 5 finger_fields)).
Proof. split; vm_compute; discriminate. Qed.

Lemma wmt_hid_parse_probe_attach_witness :
  @wmt_required_first sample_usbhid = true
  /\ (forall i, size (sc_locs softc_zero 0 i) = 0)
  /\ fst (@wmt_hid_parse sample_usbhid sample_evdev None
            (touch_descriptor 5 zero_width_fields) 0)
     = fst (@wmt_hid_parse sample_usbhid sample_evdev (Some softc_zero)
              (touch_descriptor 5 zero_width_fields) 0).
Proof.
  assert (R : @wmt_required_first sample_usbhid = true)
    by (vm_compute; reflexivity).
  assert (Z0 : forall i, size (sc_locs softc_zero 0 i) = 0)
    by (intro i; reflexivity).
  split; [exact R|]. split; [exact Z0|].
  exact (proj1 (@wmt_hid_parse_probe_attach sample_usbhid sample_evdev
                  softc_zero (touch_descriptor 5 zero_width_fields) 0 R Z0)).
Defined.

(** ** Feature Refinement *)

Lemma wmt_cont_max_parse_spec_witness :
  0 <= @MAX_MT_SLOTS sample_evdev < 2 ^ 31
  /\ - 2 ^ 31 <= ai_max (sc_ai sample_softc WMT_SLOT) < 2 ^ 31
  /\ @wmt_feature_cont_max sample_usbhid sample_evdev sample_softc [10] 1 = 10
  /\ ai_max
       (sc_ai
          (@wmt_cont_max_parse sample_usbhid sample_evdev sample_softc [10] 1)
          WMT_SLOT) = 10 - 1.
Proof.
  assert (H1 : 0 <= @MAX_MT_SLOTS sample_evdev < 2 ^ 31)
    by (vm_compute; split; [discriminate | reflexivity]).
  assert (H2 : - 2 ^ 31 <= ai_max (sc_ai sample_softc WMT_SLOT) < 2 ^ 31)
    by (vm_compute; split; [discriminate | reflexivity]).
  assert (EC : @wmt_feature_cont_max sample_usbhid sample_evdev sample_softc
                 [10] 1 = 10)
    by (vm_compute; reflexivity).
  split; [exact H1|]. split; [exact H2|]. split; [exact EC|].
  destruct (@wmt_cont_max_parse_spec sample_usbhid sample_evdev sample_softc
              [10] 1 H1 H2) as (_ & _ & _ & Hmax & _).
  rewrite EC in Hmax. apply Hmax. discriminate.
Defined.

(** ** Report Decoder *)

Lemma imt_intr_hybrid_delivery_witness :
  sc_nconts_todo sample_softc = 0
  /\ sc_nconts_per_report sample_softc = 1
  /\ @imt_cont_count sample_usbhid sample_softc
       (sample_report 3 1 1 0 10 20) 8 = 3
  /\ @imt_cont_count sample_usbhid sample_softc
       (sample_report 0 1 1 1 30 40) 8 = 0
  /\ @imt_cont_count sample_usbhid sample_softc
       (sample_report 0 1 1 2 50 60) 8 = 0
  /\ (let id := sc_report_id sample_softc in
      let r1 :=
        @imt_intr sample_usbhid sample_evdev sample_softc []
          (sample_report 3 1 1 0 10 20) 8 id in
      let r2 :=
        @imt_intr sample_usbhid sample_evdev (fst r1) (snd r1)
          (sample_report 0 1 1 1 30 40) 8 id in
      let r3 :=
        @imt_intr sample_usbhid sample_evdev (fst r2) (snd r2)
          (sample_report 0 1 1 2 50 60) 8 id in
      sync_count (snd r1) = sync_count []
      /\ sync_count (snd r2) = sync_count []
      /\ sync_count (snd r3) = S (sync_count [])
      /\ sc_nconts_todo (fst r3) = 0).
Proof.
  assert (H1 : sc_nconts_todo sample_softc = 0) by (vm_compute; reflexivity).
  assert (H2 : sc_nconts_per_report sample_softc = 1)
    by (vm_compute; reflexivity).
  assert (H3 : @imt_cont_count sample_usbhid sample_softc
                 (sample_report 3 1 1 0 10 20) 8 = 3)
    by (vm_compute; reflexivity).
  assert (H4 : @imt_cont_count sample_usbhid sample_softc
                 (sample_report 0 1 1 1 30 40) 8 = 0)
    by (vm_compute; reflexivity).
  assert (H5 : @imt_cont_count sample_usbhid sample_softc
                 (sample_report 0 1 1 2 50 60) 8 = 0)
    by (vm_compute; reflexivity).
  repeat (split; [assumption|]).
  destruct (@imt_intr_hybrid_delivery sample_usbhid sample_evdev
              sample_softc []
              (sample_report 3 1 1 0 10 20) (sample_report 0 1 1 1 30 40)
              (sample_report 0 1 1 2 50 60) 8 8 8 H1 H2 H3 H4 H5)
    as (_ & _ & _ & _ & _ & _ & D3 & Y1 & Y2 & Y3 & _).
  cbv zeta. split; [exact Y1|]. split; [exact Y2|].
  split; [exact Y3 | exact D3].
Defined.

(** C2 as stated fails: a report with a zero count field that arrives
    while the counter is 0 does emit a sync, although the call does not
    take the session from a counter above 0 to 0. *)
Lemma imt_intr_idle_zero_count_syncs :
  sc_nconts_todo sample_softc = 0
  /\ @imt_cont_count sample_usbhid sample_softc
       (sample_report 0 0 0 0 0 0) 8 = 0
  /\ snd (sample_intr (sample_softc, []) (sample_report 0 0 0 0 0 0))
     = [EvSync]
  /\ ~ (In EvSync
          (snd (sample_intr (sample_softc, []) (sample_report 0 0 0 0 0 0)))
        <-> 0 < sc_nconts_todo sample_softc
            /\ sc_nconts_todo
                 (fst (sample_intr (sample_softc, [])
                         (sample_report 0 0 0 0 0 0))) = 0).
Proof.
  assert (E : sc_nconts_todo sample_softc = 0) by (vm_compute; reflexivity).
  split; [exact E|].
  split; [vm_compute; reflexivity|]. split; [vm_compute; reflexivity|].
  intros [H _]. rewrite E in H.
  assert (Hin : In EvSync
                  (snd (sample_intr (sample_softc, [])
                          (sample_report 0 0 0 0 0 0))))
    by (vm_compute; left; reflexivity).
  destruct (H Hin) as [Hlt _]. lia.
Qed.

Lemma imt_intr_sync_witness :
  sc_nconts_todo sample_softc = 0
  /\ @imt_cont_count sample_usbhid sample_softc
       (sample_report 0 0 0 0 0 0) 8 = 0
  /\ 0 <= sc_nconts_per_report sample_softc
  /\ snd (@imt_intr sample_usbhid sample_evdev sample_softc
            [EvAbs ABS_MT_SLOT 0] (sample_report 0 0 0 0 0 0) 8
            (sc_report_id sample_softc))
     = [EvAbs ABS_MT_SLOT 0] ++ [EvSync].
Proof.
  assert (H1 : sc_nconts_todo sample_softc = 0) by (vm_compute; reflexivity).
  assert (H2 : @imt_cont_count sample_usbhid sample_softc
                 (sample_report 0 0 0 0 0 0) 8 = 0)
    by (vm_compute; reflexivity).
  assert (H3 : 0 <= sc_nconts_per_report sample_softc)
    by (vm_compute; discriminate).
  split; [exact H1|]. split; [exact H2|]. split; [exact H3|].
  destruct (@imt_intr_sync sample_usbhid sample_evdev sample_softc
              [EvAbs ABS_MT_SLOT 0] (sample_report 0 0 0 0 0 0) 8)
    as (_ & _ & Hidle).
  exact (proj2 (Hidle H1 H2 H3)).
Defined.

(** C8 as stated fails: two reports in a row for the same touching contact,
    both with the in-range flag set, give the in-range values 0 and 0, not
    alternating ones. *)
Lemma imt_intr_in_range_constant :
  abs_values ABS_MT_DISTANCE
    (snd (sample_intr
            (sample_intr (sample_softc, []) (sample_report 1 1 1 2 100 200))
            (sample_report 1 1 1 2 101 200)))
  = [0; 0].
Proof. vm_compute. reflexivity. Qed.

Lemma imt_intr_contact_in_range_witness :
  @evdev_get_mt_slot_by_tracking_id sample_evdev []
    (to_int32
       (@imt_slot_data sample_usbhid sample_softc
          (sample_report 1 1 1 2 100 200) 8 0 WMT_CONTACTID)) <> -1
  /\ imt_contact_active sample_softc
       (@imt_slot_data sample_usbhid sample_softc
          (sample_report 1 1 1 2 100 200) 8 0) = true
  /\ USAGE_SUPPORTED (sc_caps sample_softc) WMT_IN_RANGE = true
  /\ abs_values ABS_MT_DISTANCE
       (snd (@imt_intr_contact sample_usbhid sample_evdev
               (sample_report 1 1 1 2 100 200) 8 (sample_softc, []) 0))
     = abs_values ABS_MT_DISTANCE [] ++ [0].
Proof.
  assert (H1 : @evdev_get_mt_slot_by_tracking_id sample_evdev []
                 (to_int32
                    (@imt_slot_data sample_usbhid sample_softc
                       (sample_report 1 1 1 2 100 200) 8 0 WMT_CONTACTID))
               <> -1)
    by (vm_compute; discriminate).
  assert (H2 : imt_contact_active sample_softc
                 (@imt_slot_data sample_usbhid sample_softc
                    (sample_report 1 1 1 2 100 200) 8 0) = true)
    by (vm_compute; reflexivity).
  assert (H3 : USAGE_SUPPORTED (sc_caps sample_softc) WMT_IN_RANGE = true)
    by (vm_compute; reflexivity).
  assert (E : c_not (@imt_slot_data sample_usbhid sample_softc
                       (sample_report 1 1 1 2 100 200) 8 0 WMT_IN_RANGE) = 0)
    by (vm_compute; reflexivity).
  split; [exact H1|]. split; [exact H2|]. split; [exact H3|].
  rewrite <- E.
  exact (proj1 (@imt_intr_contact_in_range sample_usbhid sample_evdev
                  (sample_report 1 1 1 2 100 200) 8 sample_softc [] 0
                  H1 H2 H3)).
Defined.

(** ** Mode Selector *)

(** C10 as stated fails: the function can return [EINVAL].  The guard is
    not taken, but the value returned is that of the write, and on a
    transport that refuses the write with [EINVAL] the mode selector
    returns [EINVAL], after the read and the write were made. *)
Lemma imt_set_input_mode_returns_einval :
  imt_input_mode_guard (mode_softc 2) = false
  /\ @imt_set_input_mode sample_usbhid rejecting_iichid (mode_softc 2) []
       IMT_INPUT_MODE_MT_TOUCHPAD
     = (@EINVAL rejecting_iichid, set_buf (mode_softc 2) [3; 0],
        [GetReport 2 3 7; SetReport [3; 0] 2 3 7])
  /\ fst (fst (@imt_set_input_mode sample_usbhid rejecting_iichid
                 (mode_softc 2) [] IMT_INPUT_MODE_MT_TOUCHPAD))
     = @EINVAL rejecting_iichid.
Proof. repeat split; vm_compute; reflexivity. Qed.

(** With a report length of 0 and with one above [WMT_BSIZE] alike, the
    mode selector reads the report, stores the mode and writes the report. *)
Example imt_set_input_mode_any_length :
  @imt_set_input_mode sample_usbhid sample_iichid (mode_softc 0) []
    IMT_INPUT_MODE_MT_TOUCHPAD
  = (0, set_buf (mode_softc 0) [3; 0],
     [GetReport 0 3 7; SetReport [3; 0] 0 3 7])
  /\ @imt_set_input_mode sample_usbhid sample_iichid (mode_softc 2000) []
       IMT_INPUT_MODE_MT_TOUCHPAD
     = (0, set_buf (mode_softc 2000) [3; 0],
        [GetReport 2000 3 7; SetReport [3; 0] 2000 3 7]).
Proof. split; vm_compute; reflexivity. Qed.

(** * Further properties *)

(** ** Report Decoder: session state, sink and buffer *)

Section DecoderSession.

Context {usbhid : UsbHid} {evdev_if : Evdev}.

Lemma same_profile_refl s : same_profile s s.
Proof. unfold same_profile. destruct s. reflexivity. Qed.

Lemma same_profile_trans s1 s2 s3 :
  same_profile s1 s2 -> same_profile s2 s3 -> same_profile s1 s3.
Proof.
  unfold same_profile. intros H1 H2. rewrite H2. rewrite H1.
  destruct s1. reflexivity.
Qed.

Lemma same_profile_set_slot_data s v : same_profile s (set_slot_data s v).
Proof. unfold same_profile. destruct s. reflexivity. Qed.

Lemma same_profile_set_nconts_todo s v :
  same_profile s (set_nconts_todo s v).
Proof. unfold same_profile. destruct s. reflexivity. Qed.

Lemma same_profile_fields s s' :
  same_profile s s' ->
  sc_report_id s' = sc_report_id s
  /\ sc_nconts_per_report s' = sc_nconts_per_report s
  /\ sc_isize s' = sc_isize s
  /\ sc_cont_count_loc s' = sc_cont_count_loc s
  /\ sc_caps s' = sc_caps s
  /\ sc_locs s' = sc_locs s
  /\ sc_ai s' = sc_ai s.
Proof. unfold same_profile. intros ->. repeat split. Qed.

Lemma imt_intr_contact_profile buf len sc evdev cont :
  same_profile sc (fst (imt_intr_contact buf len (sc, evdev) cont)).
Proof.
  unfold imt_intr_contact.
  destruct (_ =? -1); [apply same_profile_set_slot_data|].
  destruct (imt_contact_active _ _); apply same_profile_set_slot_data.
Qed.

Lemma imt_intr_contacts_profile buf len conts :
  forall sc evdev,
    same_profile sc
      (fst (fold_left (imt_intr_contact buf len) conts (sc, evdev))).
Proof.
  induction conts as [|c conts IH]; intros sc evdev; cbn [fold_left].
  - apply same_profile_refl.
  - pose proof (imt_intr_contact_profile buf len sc evdev c) as H.
    destruct (imt_intr_contact buf len (sc, evdev) c) as [sc1 ev1].
    eapply same_profile_trans; [exact H | apply IH].
Qed.

Lemma imt_intr_same_profile (sc : imt_softc) (evdev : evdev_dev)
  (buf : list Z) (len id : Z) :
  same_profile sc (fst (imt_intr sc evdev buf len id)).
Proof.
  unfold imt_intr.
  destruct (negb (sc_report_id sc =? id)); [apply same_profile_refl|].
  pose proof (imt_intr_contacts_profile (imt_intr_buf sc buf len) len
                (seq 0 (Z.to_nat (imt_nconts sc buf len)))
                (set_nconts_todo sc (imt_nconts_todo sc buf len)) evdev) as H.
  destruct (fold_left _ _ _) as [sc1 ev1]. cbn [fst] in H.
  assert (H2 : same_profile sc
                 (set_nconts_todo sc1
                    (to_uint32 (sc_nconts_todo sc1 - imt_nconts sc buf len)))).
  { eapply same_profile_trans; [apply same_profile_set_nconts_todo|].
    eapply same_profile_trans; [exact H|].
    apply same_profile_set_nconts_todo. }
  destruct (_ =? 0); exact H2.
Qed.

Lemma imt_intr_all_profile reports :
  forall st, same_profile (fst st) (fst (imt_intr_all st reports)).
Proof.
  unfold imt_intr_all.
  induction reports as [|r reports IH]; intro st; cbn [fold_left].
  - apply same_profile_refl.
  - eapply same_profile_trans; [|apply IH]. apply imt_intr_same_profile.
Qed.

(** X1.  Whatever the reports, [imt_intr] leaves the device profile alone,
    in one call and over any sequence of calls: of [*sc] only the
    remaining-contacts counter and the scratch values can change. *)
Theorem imt_intr_profile (sc : imt_softc) (evdev : evdev_dev)
  (reports : list (list Z * Z * Z)) :
  (forall buf len id, same_profile sc (fst (imt_intr sc evdev buf len id)))
  /\ same_profile sc (fst (imt_intr_all (sc, evdev) reports)).
Proof.
  split.
  - intros buf len id. apply imt_intr_same_profile.
  - exact (imt_intr_all_profile reports (sc, evdev)).
Qed.

(** X2.  Reports with an unexpected id are ignored wherever they come in a
    sequence: the state and the sink end as if they had not been sent. *)
Theorem imt_intr_all_foreign (st : imt_softc * evdev_dev)
  (reports : list (list Z * Z * Z)) :
  imt_intr_all st reports
  = imt_intr_all st
      (filter (fun r => snd r =? sc_report_id (fst st)) reports).
Proof.
  revert st. induction reports as [|r reports IH]; intro st; [reflexivity|].
  cbn [filter].
  destruct (Z.eqb_spec (snd r) (sc_report_id (fst st))) as [He|Hne].
  - unfold imt_intr_all in *. cbn [fold_left]. rewrite IH.
    destruct (same_profile_fields _ _
                (imt_intr_same_profile (fst st) (snd st) (fst (fst r))
                   (snd (fst r)) (snd r))) as (Hid & _).
    rewrite Hid. reflexivity.
  - unfold imt_intr_all at 1. cbn [fold_left].
    assert (Hskip : imt_intr (fst st) (snd st) (fst (fst r)) (snd (fst r))
                      (snd r) = st).
    { unfold imt_intr.
      destruct (Z.eqb_spec (sc_report_id (fst st)) (snd r)) as [E|_];
        [symmetry in E; contradiction|].
      cbn [negb]. destruct st. reflexivity. }
    rewrite Hskip. apply IH.
Qed.

Lemma imt_cont_count_range sc buf len :
  0 <= imt_cont_count sc buf len < 2 ^ 32.
Proof. unfold imt_cont_count. apply to_uint32_range. Qed.

Lemma imt_nconts_todo_range (sc : imt_softc) (buf : list Z) (len : Z) :
  0 <= sc_nconts_todo sc < 2 ^ 32 ->
  0 <= imt_nconts_todo sc buf len < 2 ^ 32.
Proof.
  intro Ht. unfold imt_nconts_todo.
  pose proof (imt_cont_count_range sc buf len).
  destruct (negb _); assumption.
Qed.

Lemma imt_nconts_min (sc : imt_softc) (buf : list Z) (len : Z) :
  imt_nconts sc buf len
  = Z.min (imt_nconts_todo sc buf len) (sc_nconts_per_report sc).
Proof.
  unfold imt_nconts, MIN.
  destruct (Z.ltb_spec (imt_nconts_todo sc buf len)
              (sc_nconts_per_report sc)); lia.
Qed.

Lemma imt_intr_counter_step (sc : imt_softc) (evdev : evdev_dev)
  (buf : list Z) (len : Z) :
  0 <= sc_nconts_todo sc < 2 ^ 32 ->
  0 <= sc_nconts_per_report sc ->
  let todo := imt_nconts_todo sc buf len in
  imt_nconts sc buf len = Z.min todo (sc_nconts_per_report sc)
  /\ sc_nconts_todo (fst (imt_intr sc evdev buf len (sc_report_id sc)))
     = Z.max 0 (todo - sc_nconts_per_report sc).
Proof.
  intros Ht Hp. cbn zeta.
  destruct (imt_intr_run sc evdev buf len) as (H1 & _).
  assert (Hr : 0 <= imt_nconts_todo sc buf len < 2 ^ 32).
  { unfold imt_nconts_todo. pose proof (imt_cont_count_range sc buf len).
    destruct (negb _); assumption. }
  assert (Hn : imt_nconts sc buf len
               = Z.min (imt_nconts_todo sc buf len) (sc_nconts_per_report sc)).
  { unfold imt_nconts, MIN.
    destruct (Z.ltb_spec (imt_nconts_todo sc buf len)
                (sc_nconts_per_report sc)); lia. }
  split; [exact Hn|].
  rewrite H1, Hn. rewrite to_uint32_small by lia. lia.
Qed.

(** X3.  The counter never wraps: with a counter and a number of contacts
    per report in the range of their type, a call with the expected id
    processes [min(todo, per report)] contacts and leaves
    [max(0, todo - per report)], where [todo] is the count field of the
    report, or the old counter when that field is 0. *)
Theorem imt_intr_counter (sc : imt_softc) (evdev : evdev_dev)
  (buf : list Z) (len : Z) :
  0 <= sc_nconts_todo sc < 2 ^ 32 ->
  0 <= sc_nconts_per_report sc ->
  let todo := imt_nconts_todo sc buf len in
  imt_nconts sc buf len = Z.min todo (sc_nconts_per_report sc)
  /\ sc_nconts_todo (fst (imt_intr sc evdev buf len (sc_report_id sc)))
     = Z.max 0 (todo - sc_nconts_per_report sc).
Proof.
  intros Ht Hp. cbn zeta.
  pose proof (imt_nconts_todo_range sc buf len Ht) as Hr.
  pose proof (imt_nconts_min sc buf len) as Hn.
  split; [exact Hn|].
  destruct (imt_intr_run sc evdev buf len) as (H1 & _).
  rewrite H1, Hn.
  destruct (Z.le_ge_cases (imt_nconts_todo sc buf len)
              (sc_nconts_per_report sc)) as [Hle|Hge].
  - rewrite Z.min_l by exact Hle. rewrite Z.sub_diag.
    rewrite Z.max_l by lia. apply to_uint32_small. lia.
  - rewrite Z.min_r by exact Hge. rewrite Z.max_r by lia.
    apply to_uint32_small. lia.
Qed.

Lemma continuation_profile sc sc' r :
  same_profile sc sc' -> continuation sc r -> continuation sc' r.
Proof.
  intros Hp [Hid Hc].
  destruct (same_profile_fields _ _ Hp) as (E1 & _ & E3 & E4 & _).
  split; [congruence|].
  rewrite (imt_cont_count_frame sc sc'); assumption.
Qed.

(** A continuation report on a draining session: the counter goes down by
    the number of contacts per report, and the sync comes exactly when it
    reaches 0. *)
Lemma imt_intr_continuation sc evdev r k c :
  continuation sc r ->
  sc_nconts_per_report sc = k -> 0 < k ->
  sc_nconts_todo sc = c -> 0 < c < 2 ^ 32 ->
  let st := imt_intr sc evdev (fst (fst r)) (snd (fst r)) (snd r) in
  sc_nconts_todo (fst st) = Z.max 0 (c - k)
  /\ sync_count (snd st)
     = (sync_count evdev + (if (c <=? k)%Z then 1 else 0))%nat.
Proof.
  intros [Hid Hc] Hk Hk0 Hcnt Hcr. cbn zeta. rewrite Hid.
  assert (T : imt_nconts_todo sc (fst (fst r)) (snd (fst r)) = c).
  { unfold imt_nconts_todo. rewrite Hc. exact Hcnt. }
  destruct (imt_intr_counter_step sc evdev (fst (fst r)) (snd (fst r))
              ltac:(lia) ltac:(lia)) as [_ Hcount].
  rewrite T, Hk in Hcount.
  destruct (imt_intr_run sc evdev (fst (fst r)) (snd (fst r)))
    as (H1 & _ & _ & _ & _ & abs & Ho & He).
  split; [exact Hcount|].
  rewrite <- H1, Hcount in He.
  rewrite He, app_assoc, sync_count_app, sync_count_only_abs by exact Ho.
  destruct (Z.leb_spec c k), (Z.eqb_spec (Z.max 0 (c - k)) 0);
    try reflexivity; lia.
Qed.

(** Continuation reports that do not exhaust the counter. *)
Lemma imt_intr_all_draining conts :
  forall sc evdev k c,
    Forall (continuation sc) conts ->
    sc_nconts_per_report sc = k -> 0 < k ->
    sc_nconts_todo sc = c -> c < 2 ^ 32 ->
    Z.of_nat (length conts) * k < c ->
    let st := imt_intr_all (sc, evdev) conts in
    sc_nconts_todo (fst st) = c - Z.of_nat (length conts) * k
    /\ sync_count (snd st) = sync_count evdev.
Proof.
  induction conts as [|r conts IH]; intros sc evdev k c Hall Hk Hk0 Hc Hcr Hlt.
  - cbn. split; [lia | reflexivity].
  - inversion Hall as [|r' conts' Hr Hrest]; subst r' conts'.
    cbn [length] in Hlt. rewrite Nat2Z.inj_succ in Hlt.
    destruct (imt_intr_continuation sc evdev r k c Hr Hk Hk0 Hc ltac:(lia))
      as [Hcount Hsync].
    pose proof (imt_intr_same_profile sc evdev (fst (fst r)) (snd (fst r)) (snd r))
      as Hp.
    cbn zeta. unfold imt_intr_all. cbn [fold_left fst snd].
    set (st1 := imt_intr sc evdev (fst (fst r)) (snd (fst r)) (snd r)) in *.
    assert (Hall1 : Forall (continuation (fst st1)) conts).
    { eapply Forall_impl; [|exact Hrest].
      intros a Ha. eapply continuation_profile; eassumption. }
    destruct (same_profile_fields _ _ Hp) as (_ & Ek & _).
    specialize (IH (fst st1) (snd st1) k (Z.max 0 (c - k)) Hall1
                  ltac:(congruence) Hk0 Hcount ltac:(lia) ltac:(nia)).
    cbn zeta in IH. unfold imt_intr_all in IH.
    rewrite <- surjective_pairing in IH.
    destruct IH as [IH1 IH2]. split.
    + rewrite IH1. cbn [length]. rewrite Nat2Z.inj_succ. nia.
    + rewrite IH2, Hsync.
      destruct (Z.leb_spec c k); [nia | lia].
Qed.

Lemma in_firstn {A} (x : A) n l : In x (firstn n l) -> In x l.
Proof.
  revert l. induction n as [|n IH]; intros [|a l] H; cbn in *; try tauto.
  destruct H as [->|H]; [left; reflexivity | right; apply IH; exact H].
Qed.

(** X4.  Hybrid delivery in general.  On a device with [k] contacts per
    report, a report announcing [n] contacts followed by [m] continuation
    reports, with [m*k < n <= (m+1)*k], gives no sync during the first [m]
    calls, where the counter is [n - j*k] after the [j]th, and one sync
    with a counter of 0 at the end of the last call. *)
Theorem imt_intr_burst (sc : imt_softc) (evdev : evdev_dev)
  (first : list Z * Z * Z) (conts : list (list Z * Z * Z)) (n k : Z) :
  snd first = sc_report_id sc ->
  imt_cont_count sc (fst (fst first)) (snd (fst first)) = n -> 0 < n ->
  sc_nconts_per_report sc = k ->
  Forall (continuation sc) conts ->
  Z.of_nat (length conts) * k < n <= (Z.of_nat (length conts) + 1) * k ->
  let after j := imt_intr_all (sc, evdev) (firstn j (first :: conts)) in
  (forall j, (1 <= j <= length conts)%nat ->
     sc_nconts_todo (fst (after j)) = n - Z.of_nat j * k
     /\ sync_count (snd (after j)) = sync_count evdev)
  /\ sc_nconts_todo (fst (after (S (length conts)))) = 0
  /\ sync_count (snd (after (S (length conts)))) = S (sync_count evdev).
Proof.
  intros Hid Hn Hn0 Hk Hall Hm. cbn zeta.
  assert (Hk0 : 0 < k) by nia.
  pose proof (imt_cont_count_range sc (fst (fst first)) (snd (fst first)))
    as Hnr. rewrite Hn in Hnr.
  (* the first report *)
  assert (T : imt_nconts_todo sc (fst (fst first)) (snd (fst first)) = n).
  { unfold imt_nconts_todo. rewrite Hn.
    destruct (Z.eqb_spec n 0); [lia | reflexivity]. }
  destruct (imt_intr_run sc evdev (fst (fst first)) (snd (fst first)))
    as (H1 & _ & _ & _ & _ & abs & Ho & He).
  assert (Hc1 : imt_nconts sc (fst (fst first)) (snd (fst first))
                = Z.min n k).
  { unfold imt_nconts, MIN. rewrite T, Hk. destruct (Z.ltb_spec n k); lia. }
  rewrite T, Hc1 in H1, He. rewrite to_uint32_small in H1, He by lia.
  rewrite <- Hid in H1, He.
  pose proof (imt_intr_same_profile sc evdev (fst (fst first)) (snd (fst first))
                (snd first)) as Hp.
  set (st1 := imt_intr sc evdev (fst (fst first)) (snd (fst first))
                (snd first)) in *.
  assert (Hsync1 : sync_count (snd st1)
                   = (sync_count evdev + (if (n <=? k)%Z then 1 else 0))%nat).
  { rewrite He, app_assoc, sync_count_app, sync_count_only_abs by exact Ho.
    destruct (Z.leb_spec n k), (Z.eqb_spec (n - Z.min n k) 0);
      try reflexivity; lia. }
  destruct (same_profile_fields _ _ Hp) as (_ & Ek & _).
  assert (Hall1 : Forall (continuation (fst st1)) conts).
  { eapply Forall_impl; [|exact Hall].
    intros a Ha. eapply continuation_profile; eassumption. }
  assert (Hstep : forall j, (j <= length conts)%nat ->
            imt_intr_all (sc, evdev) (firstn (S j) (first :: conts))
            = imt_intr_all st1 (firstn j conts)).
  { intros j _. cbn [firstn]. unfold imt_intr_all. cbn [fold_left fst snd].
    reflexivity. }
  assert (Hpre : forall j, (j <= length conts)%nat ->
            (Z.of_nat j + 1) * k < n ->
            sc_nconts_todo (fst (imt_intr_all st1 (firstn j conts)))
            = n - Z.min n k - Z.of_nat j * k
            /\ sync_count (snd (imt_intr_all st1 (firstn j conts)))
               = sync_count (snd st1)).
  { intros j Hj Hjk.
    assert (Hlen : length (firstn j conts) = j)
      by (apply firstn_length_le; exact Hj).
    pose proof (imt_intr_all_draining (firstn j conts) (fst st1) (snd st1) k
                  (n - Z.min n k)) as D.
    rewrite Hlen in D. rewrite <- surjective_pairing in D.
    apply D; try assumption; try congruence; try lia; try nia.
    apply Forall_forall. intros a Ha.
    rewrite Forall_forall in Hall1. apply Hall1.
    eapply in_firstn. exact Ha. }
  split; [|split].
  - intros j [Hj1 Hj2]. destruct j as [|j]; [lia|].
    rewrite Hstep by lia.
    assert (Hjk : Z.of_nat (S j) * k < n).
    { rewrite Nat2Z.inj_succ in *. nia. }
    destruct (Hpre j ltac:(lia) ltac:(rewrite Nat2Z.inj_succ in Hjk; lia))
      as [P1 P2].
    rewrite P1, P2, Hsync1.
    assert (k < n) by (rewrite Nat2Z.inj_succ in Hjk; nia).
    destruct (Z.leb_spec n k); [lia|].
    split; [rewrite Nat2Z.inj_succ; lia | lia].
  - rewrite Hstep by lia. rewrite firstn_all.
    destruct (Nat.eq_dec (length conts) 0) as [E0|Hne].
    + destruct conts; [|discriminate E0]. cbn.
      rewrite H1. cbn [length] in Hm. lia.
    + (* all but the last continuation, then the last *)
      destruct (exists_last (fun E => Hne (f_equal (@length _) E)))
        as (front & r & Econts).
      assert (Hlen : length conts = S (length front)).
      { rewrite Econts, length_app. cbn. lia. }
      rewrite Hlen, Nat2Z.inj_succ in Hm.
      destruct (Hpre (length front) ltac:(lia) ltac:(nia)) as [P1 P2].
      assert (Efront : firstn (length front) conts = front).
      { rewrite Econts, firstn_app, Nat.sub_diag, firstn_all. cbn.
        apply app_nil_r. }
      rewrite Efront in P1, P2.
      rewrite Econts. unfold imt_intr_all in *. rewrite fold_left_app.
      cbn [fold_left].
      set (st2 := fold_left _ front st1) in *.
      assert (Hp2 : same_profile (fst st1) (fst st2))
        by (apply (imt_intr_all_profile front st1)).
      destruct (same_profile_fields _ _ Hp2) as (_ & Ek2 & _).
      assert (Hr : continuation (fst st2) r).
      { eapply continuation_profile; [exact Hp2|].
        rewrite Forall_forall in Hall1. apply Hall1.
        rewrite Econts. apply in_or_app. right. left. reflexivity. }
      destruct (imt_intr_continuation (fst st2) (snd st2) r k
                  (n - Z.min n k - Z.of_nat (length front) * k) Hr
                  ltac:(congruence) Hk0 P1 ltac:(nia)) as [Q1 _].
      cbn zeta in Q1. rewrite Q1. nia.
  - rewrite Hstep by lia. rewrite firstn_all.
    destruct (Nat.eq_dec (length conts) 0) as [E0|Hne].
    + destruct conts; [|discriminate E0]. cbn.
      rewrite Hsync1. cbn [length] in Hm.
      destruct (Z.leb_spec n k); lia.
    + destruct (exists_last (fun E => Hne (f_equal (@length _) E)))
        as (front & r & Econts).
      assert (Hlen : length conts = S (length front)).
      { rewrite Econts, length_app. cbn. lia. }
      rewrite Hlen, Nat2Z.inj_succ in Hm.
      destruct (Hpre (length front) ltac:(lia) ltac:(nia)) as [P1 P2].
      assert (Efront : firstn (length front) conts = front).
      { rewrite Econts, firstn_app, Nat.sub_diag, firstn_all. cbn.
        apply app_nil_r. }
      rewrite Efront in P1, P2.
      rewrite Econts. unfold imt_intr_all in *. rewrite fold_left_app.
      cbn [fold_left].
      set (st2 := fold_left _ front st1) in *.
      assert (Hp2 : same_profile (fst st1) (fst st2))
        by (apply (imt_intr_all_profile front st1)).
      destruct (same_profile_fields _ _ Hp2) as (_ & Ek2 & _).
      assert (Hr : continuation (fst st2) r).
      { eapply continuation_profile; [exact Hp2|].
        rewrite Forall_forall in Hall1. apply Hall1.
        rewrite Econts. apply in_or_app. right. left. reflexivity. }
      destruct (imt_intr_continuation (fst st2) (snd st2) r k
                  (n - Z.min n k - Z.of_nat (length front) * k) Hr
                  ltac:(congruence) Hk0 P1 ltac:(nia)) as [_ Q2].
      cbn zeta in Q2. rewrite Q2, P2, Hsync1.
      assert (k < n) by nia.
      destruct (Z.leb_spec n k); [lia|].
      destruct (Z.leb_spec (n - Z.min n k - Z.of_nat (length front) * k) k);
        [lia | nia].
Qed.

End DecoderSession.

(** ** Report Decoder: what reaches the sink *)

Section DecoderEvents.

Context {usbhid : UsbHid} {evdev_if : Evdev}.

Lemma imt_push_slot_coded caps slot_data idx :
  forall evdev,
  exists new,
    fold_left
      (fun ev usage =>
         if USAGE_SUPPORTED caps usage
            && negb (abs_code_eqb (map_code (wmt_hid_map usage)) WMT_NO_CODE)
         then evdev_push_abs ev (map_code (wmt_hid_map usage))
                (to_int32 (slot_data usage))
         else ev) idx evdev = evdev ++ new
    /\ Forall coded new.
Proof.
  induction idx as [|i idx IH]; intro evdev; cbn [fold_left].
  - exists []. split; [symmetry; apply app_nil_r | constructor].
  - destruct (USAGE_SUPPORTED caps i) ; cbn [andb]; [|apply IH].
    destruct (abs_code_eqb (map_code (wmt_hid_map i)) WMT_NO_CODE) eqn:Hc;
      cbn [negb]; [apply IH|].
    destruct (IH (evdev_push_abs evdev (map_code (wmt_hid_map i))
                    (to_int32 (slot_data i)))) as (new & -> & Hn).
    unfold evdev_push_abs. rewrite <- app_assoc.
    eexists. split; [reflexivity|].
    constructor; [|exact Hn].
    cbn. intro E. rewrite E in Hc. discriminate Hc.
Qed.

Lemma imt_intr_contact_coded buf len sc evdev cont :
  exists new,
    snd (imt_intr_contact buf len (sc, evdev) cont) = evdev ++ new
    /\ Forall coded new.
Proof.
  unfold imt_intr_contact.
  destruct (_ =? -1).
  - exists []. split; [symmetry; apply app_nil_r | constructor].
  - destruct (imt_contact_active _ _); cbn [snd].
    + apply imt_push_slot_coded.
    + unfold evdev_push_abs. rewrite <- app_assoc.
      eexists. split; [reflexivity|].
      repeat constructor; discriminate.
Qed.

Lemma imt_intr_contacts_coded buf len conts :
  forall sc evdev,
  exists new,
    snd (fold_left (imt_intr_contact buf len) conts (sc, evdev))
    = evdev ++ new
    /\ Forall coded new.
Proof.
  induction conts as [|c conts IH]; intros sc evdev; cbn [fold_left].
  - exists []. split; [symmetry; apply app_nil_r | constructor].
  - destruct (imt_intr_contact_coded buf len sc evdev c) as (n1 & E1 & F1).
    destruct (imt_intr_contact buf len (sc, evdev) c) as [sc1 ev1].
    cbn [snd] in E1. subst ev1.
    destruct (IH sc1 (evdev ++ n1)) as (n2 & E2 & F2).
    exists (n1 ++ n2). rewrite E2, app_assoc.
    split; [reflexivity | apply Forall_app; split; assumption].
Qed.

(** X5.  Whatever the report, [imt_intr] only appends to the sink, and what
    it appends never carries [WMT_NO_CODE]: the confidence value, which has
    no code, is never handed to the sink. *)
Theorem imt_intr_coded (sc : imt_softc) (evdev : evdev_dev) (buf : list Z)
  (len id : Z) :
  exists new,
    snd (imt_intr sc evdev buf len id) = evdev ++ new /\ Forall coded new.
Proof.
  unfold imt_intr.
  destruct (negb (sc_report_id sc =? id)).
  - exists []. split; [symmetry; apply app_nil_r | constructor].
  - destruct (imt_intr_contacts_coded (imt_intr_buf sc buf len) len
                (seq 0 (Z.to_nat (imt_nconts sc buf len)))
                (set_nconts_todo sc (imt_nconts_todo sc buf len)) evdev)
      as (new & E & F).
    destruct (fold_left _ _ _) as [sc1 ev1]. cbn [snd] in E. subst ev1.
    destruct (_ =? 0); cbn [snd].
    + exists (new ++ [EvSync]). unfold evdev_sync. rewrite app_assoc.
      split; [reflexivity|].
      apply Forall_app. split; [exact F | repeat constructor].
    + exists new. split; [reflexivity | exact F].
Qed.

Lemma imt_intr_contacts_overflow buf len evdev conts :
  (forall id, evdev_get_mt_slot_by_tracking_id evdev id = -1) ->
  forall sc,
    snd (fold_left (imt_intr_contact buf len) conts (sc, evdev)) = evdev.
Proof.
  intro Hfull. induction conts as [|c conts IH]; intro sc; cbn [fold_left];
    [reflexivity|].
  unfold imt_intr_contact at 2. rewrite Hfull. cbn [Z.eqb Pos.eqb]. apply IH.
Qed.

(** X6.  Slot overflow is not fatal.  While the allocator has no slot to
    give, a report adds no contact event to the sink, but its contacts are
    counted all the same: the counter goes down as usual and the sync comes
    when it reaches 0. *)
Theorem imt_intr_slot_overflow (sc : imt_softc) (evdev : evdev_dev)
  (buf : list Z) (len : Z) :
  (forall id, evdev_get_mt_slot_by_tracking_id evdev id = -1) ->
  let r := imt_intr sc evdev buf len (sc_report_id sc) in
  sc_nconts_todo (fst r)
  = to_uint32 (imt_nconts_todo sc buf len - imt_nconts sc buf len)
  /\ snd r = evdev ++ (if sc_nconts_todo (fst r) =? 0 then [EvSync] else []).
Proof.
  intro Hfull. cbn zeta.
  destruct (imt_intr_run sc evdev buf len) as (H1 & _).
  split; [exact H1|].
  unfold imt_intr in *. rewrite Z.eqb_refl in *. cbn [negb] in *.
  pose proof (imt_intr_contacts_overflow (imt_intr_buf sc buf len) len evdev
                (seq 0 (Z.to_nat (imt_nconts sc buf len))) Hfull
                (set_nconts_todo sc (imt_nconts_todo sc buf len))) as E.
  destruct (fold_left _ _ _) as [sc1 ev1]. cbn [snd] in E. subst ev1.
  destruct (_ =? 0) eqn:Hz; cbn [fst snd];
    rewrite Hz; [reflexivity | symmetry; apply app_nil_r].
Qed.

(** A report that carries one contact. *)
Lemma imt_intr_single sc evdev buf len :
  imt_nconts sc buf len = 1 ->
  let c :=
    imt_intr_contact (imt_intr_buf sc buf len) len
      (set_nconts_todo sc (imt_nconts_todo sc buf len), evdev) 0 in
  let todo := to_uint32 (imt_nconts_todo sc buf len - 1) in
  snd (imt_intr sc evdev buf len (sc_report_id sc))
  = snd c ++ (if todo =? 0 then [EvSync] else []).
Proof.
  intro Hn. cbn zeta. unfold imt_intr. rewrite Z.eqb_refl, Hn.
  change (Z.to_nat 1) with 1%nat. cbn [negb seq fold_left].
  pose proof (imt_intr_contact_frame (imt_intr_buf sc buf len) len
                (set_nconts_todo sc (imt_nconts_todo sc buf len)) evdev 0)
    as [(Ht & _) _].
  destruct (imt_intr_contact _ _ _ _) as [sc1 ev1].
  cbn [fst snd sc_nconts_todo set_nconts_todo] in *. rewrite Ht.
  unfold evdev_sync.
  destruct (_ =? 0); cbn [snd];
    [reflexivity | symmetry; apply app_nil_r].
Qed.

(** X7.  Release.  A report whose one contact is not active (tip switch 0,
    or a supported confidence of 0) and has a slot gives the sink the slot
    and the tracking id -1, nothing of the other channels, and then the sync
    if the frame is complete. *)
Theorem imt_intr_release (sc : imt_softc) (evdev : evdev_dev) (buf : list Z)
  (len : Z) :
  let d := imt_slot_data sc (imt_intr_buf sc buf len) len 0 in
  let slot :=
    evdev_get_mt_slot_by_tracking_id evdev (to_int32 (d WMT_CONTACTID)) in
  imt_nconts sc buf len = 1 ->
  slot <> -1 -> imt_contact_active sc d = false ->
  snd (imt_intr sc evdev buf len (sc_report_id sc))
  = evdev
    ++ [EvAbs ABS_MT_SLOT slot; EvAbs ABS_MT_TRACKING_ID (-1)]
    ++ (if to_uint32 (imt_nconts_todo sc buf len - 1) =? 0
        then [EvSync] else []).
Proof.
  cbn zeta. intros Hn Hslot Hact.
  rewrite (imt_intr_single sc evdev buf len Hn).
  unfold imt_intr_contact.
  change (imt_slot_data (set_nconts_todo sc (imt_nconts_todo sc buf len))
            (imt_intr_buf sc buf len) len 0)
    with (imt_slot_data sc (imt_intr_buf sc buf len) len 0).
  change (imt_contact_active
            (set_nconts_todo sc (imt_nconts_todo sc buf len)))
    with (imt_contact_active sc).
  apply Z.eqb_neq in Hslot. rewrite Hslot, Hact. cbn [snd].
  unfold evdev_push_abs. rewrite <- !app_assoc. reflexivity.
Qed.

Lemma imt_slot_data_range sc buf len cont usage :
  0 <= imt_slot_data sc buf len cont usage < 2 ^ 32.
Proof.
  unfold imt_slot_data. destruct (_ && _); [apply to_uint32_range | lia].
Qed.

(** X8.  Touch geometry.  For an active contact on a device with width and
    height, the sink gets as major and minor axis the larger and the smaller
    of half the width and half the height, so that the major axis is never
    below the minor one and neither is negative, and as orientation 1 when
    half the width is above half the height, 0 otherwise. *)
Theorem imt_intr_contact_geometry (buf : list Z) (len : Z) (sc : imt_softc)
  (evdev : evdev_dev) (cont : nat) :
  let d := imt_slot_data sc buf len cont in
  let slot :=
    evdev_get_mt_slot_by_tracking_id evdev (to_int32 (d WMT_CONTACTID)) in
  let w := d WMT_WIDTH / 2 in
  let h := d WMT_HEIGHT / 2 in
  let ev := snd (imt_intr_contact buf len (sc, evdev) cont) in
  slot <> -1 -> imt_contact_active sc d = true ->
  USAGE_SUPPORTED (sc_caps sc) WMT_WIDTH = true ->
  USAGE_SUPPORTED (sc_caps sc) WMT_HEIGHT = true ->
  USAGE_SUPPORTED (sc_caps sc) WMT_ORIENTATION = true ->
  abs_values ABS_MT_TOUCH_MAJOR ev
  = abs_values ABS_MT_TOUCH_MAJOR evdev ++ [Z.max w h]
  /\ abs_values ABS_MT_TOUCH_MINOR ev
     = abs_values ABS_MT_TOUCH_MINOR evdev ++ [Z.min w h]
  /\ abs_values ABS_MT_ORIENTATION ev
     = abs_values ABS_MT_ORIENTATION evdev ++ [if h <? w then 1 else 0]
  /\ 0 <= Z.min w h <= Z.max w h.
Proof.
  cbn zeta. intros Hslot Hact Hw Hh Ho.
  pose proof (imt_slot_data_range sc buf len cont WMT_WIDTH) as Rw.
  pose proof (imt_slot_data_range sc buf len cont WMT_HEIGHT) as Rh.
  set (d := imt_slot_data sc buf len cont) in *.
  assert (Rw2 : 0 <= d WMT_WIDTH / 2 < 2 ^ 31).
  { split; [apply Z.div_pos; lia | apply Z.div_lt_upper_bound; lia]. }
  assert (Rh2 : 0 <= d WMT_HEIGHT / 2 < 2 ^ 31).
  { split; [apply Z.div_pos; lia | apply Z.div_lt_upper_bound; lia]. }
  unfold imt_intr_contact. fold d.
  apply Z.eqb_neq in Hslot. rewrite Hslot, Hact. cbn [snd].
  unfold imt_push_slot. rewrite !abs_values_push_slot.
  unfold WMT_N_USAGES.
  unfold WMT_WIDTH, WMT_HEIGHT, WMT_ORIENTATION in *.
  cbn [seq flat_map wmt_hid_map map_code abs_code_eqb negb andb app].
  rewrite !andb_false_r, !andb_true_r. cbn [app].
  rewrite Hw, Hh, Ho. cbn [app].
  unfold imt_active_slot_data, upd.
  cbn [Nat.eqb WMT_IN_RANGE WMT_SLOT WMT_TIP_SWITCH WMT_ORIENTATION
       WMT_MAJOR WMT_MINOR WMT_WIDTH WMT_HEIGHT].
  rewrite !Z.shiftr_div_pow2 by lia. change (2 ^ 1) with 2.
  unfold MAX, MIN, c_bool. rewrite !Z.gtb_ltb.
  unfold WMT_WIDTH, WMT_HEIGHT in *.
  repeat split.
  - f_equal. f_equal.
    destruct (Z.ltb_spec (d 2%nat / 2) (d 1%nat / 2));
      rewrite to_int32_small by lia; lia.
  - f_equal. f_equal.
    destruct (Z.ltb_spec (d 1%nat / 2) (d 2%nat / 2));
      rewrite to_int32_small by lia; lia.
  - f_equal. f_equal.
    destruct (Z.ltb_spec (d 2%nat / 2) (d 1%nat / 2)); reflexivity.
  - lia.
  - lia.
Qed.

End DecoderEvents.

(** ** Report Decoder: the zero-extended buffer *)

Section DecoderBuffer.

Lemma bzero_length buf : forall off n, length (bzero buf off n) = length buf.
Proof.
  induction buf as [|b buf IH]; intros off n; [reflexivity|].
  cbn [bzero]. destruct off as [|off]; [destruct n as [|n]|];
    cbn [length]; try rewrite IH; reflexivity.
Qed.

Lemma bzero_nth buf d :
  forall off n i,
    nth i (bzero buf off n) d
    = if (off <=? i)%nat && (i <? off + n)%nat && (i <? length buf)%nat
      then 0 else nth i buf d.
Proof.
  induction buf as [|b buf IH]; intros off n i.
  - cbn [bzero length]. destruct i; cbn [nth];
      rewrite andb_false_r; reflexivity.
  - cbn [bzero]. destruct off as [|off].
    + destruct n as [|n].
      * replace (i <? 0 + 0)%nat with false
          by (symmetry; apply Nat.ltb_ge; lia).
        rewrite andb_false_r. reflexivity.
      * destruct i as [|i]; [reflexivity|].
        cbn [nth length]. rewrite IH.
        replace (S i <? 0 + S n)%nat with (i <? 0 + n)%nat
          by (destruct (Nat.ltb_spec i (0 + n)),
                       (Nat.ltb_spec (S i) (0 + S n)); lia || reflexivity).
        replace (S i <? S (length buf))%nat with (i <? length buf)%nat
          by (destruct (Nat.ltb_spec i (length buf)),
                       (Nat.ltb_spec (S i) (S (length buf)));
              lia || reflexivity).
        reflexivity.
    + destruct i as [|i]; [reflexivity|].
      cbn [nth length]. rewrite IH.
      replace (S off <=? S i)%nat with (off <=? i)%nat by reflexivity.
      replace (S i <? S off + n)%nat with (i <? off + n)%nat
        by (destruct (Nat.ltb_spec i (off + n)),
                     (Nat.ltb_spec (S i) (S off + n)); lia || reflexivity).
      replace (S i <? S (length buf))%nat with (i <? length buf)%nat
        by (destruct (Nat.ltb_spec i (length buf)),
                     (Nat.ltb_spec (S i) (S (length buf)));
            lia || reflexivity).
      reflexivity.
Qed.

(** X9.  Short reports.  The buffer that [imt_intr] decodes has the bytes
    of the report below its length [len] and zeros from [len] up to the
    input report size; bytes beyond that size are left as they are, and a
    report of full length is decoded as it came. *)
Theorem imt_intr_buf_spec (sc : imt_softc) (buf : list Z) (len : Z) :
  0 <= len < 2 ^ 32 -> 0 <= sc_isize sc < 2 ^ 32 ->
  length (imt_intr_buf sc buf len) = length buf
  /\ (forall i,
        nth i (imt_intr_buf sc buf len) 0
        = if (len <=? Z.of_nat i) && (Z.of_nat i <? sc_isize sc)
          then 0 else nth i buf 0)
  /\ (sc_isize sc <= len -> imt_intr_buf sc buf len = buf).
Proof.
  intros Hl Hs. unfold imt_intr_buf. rewrite (to_uint32_small len) by lia.
  destruct (Z.ltb_spec len (sc_isize sc)) as [Hlt|Hge].
  - rewrite to_uint32_small by lia.
    split; [apply bzero_length|]. split; [|lia].
    intro i. rewrite bzero_nth.
    destruct (Nat.leb_spec (Z.to_nat len) i),
             (Nat.ltb_spec i (Z.to_nat len + Z.to_nat (sc_isize sc - len))),
             (Z.leb_spec len (Z.of_nat i)),
             (Z.ltb_spec (Z.of_nat i) (sc_isize sc));
      cbn [andb]; try lia; try reflexivity.
    destruct (Nat.ltb_spec i (length buf)); [reflexivity|].
    apply nth_overflow. lia.
  - split; [reflexivity|]. split; [|reflexivity].
    intro i.
    destruct (Z.leb_spec len (Z.of_nat i)),
             (Z.ltb_spec (Z.of_nat i) (sc_isize sc));
      cbn [andb]; try lia; reflexivity.
Qed.

End DecoderBuffer.

(** ** Report Size Calculator: order and foreign items *)

Section ReportSizeOrder.

Lemma report_size_item_comm k id acc h1 h2 :
  report_size_item k id (report_size_item k id acc h1) h2
  = report_size_item k id (report_size_item k id acc h2) h1.
Proof.
  destruct acc as [hpos lpos]. unfold report_size_item.
  destruct (hid_kind_eqb (kind h1) k && (report_ID h1 =? id));
    destruct (hid_kind_eqb (kind h2) k && (report_ID h2 =? id));
    try reflexivity.
  set (e1 := to_uint32 (pos (loc h1) + to_uint32 (size (loc h1) * count (loc h1)))).
  set (e2 := to_uint32 (pos (loc h2) + to_uint32 (size (loc h2) * count (loc h2)))).
  rewrite !Z.gtb_ltb.
  f_equal.
  - destruct (Z.ltb_spec hpos e1), (Z.ltb_spec hpos e2);
      repeat match goal with
             | |- context [?a <? ?b] => destruct (Z.ltb_spec a b)
             end; lia.
  - destruct (Z.ltb_spec (pos (loc h1)) lpos),
             (Z.ltb_spec (pos (loc h2)) lpos);
      repeat match goal with
             | |- context [?a <? ?b] => destruct (Z.ltb_spec a b)
             end; lia.
Qed.

Lemma report_size_fold_perm k id l l' :
  Permutation l l' ->
  forall acc,
    fold_left (report_size_item k id) l acc
    = fold_left (report_size_item k id) l' acc.
Proof.
  induction 1 as [|x l l' _ IH|x y l|l l' l'' _ IH1 _ IH2]; intro acc;
    cbn [fold_left].
  - reflexivity.
  - apply IH.
  - rewrite report_size_item_comm. reflexivity.
  - rewrite IH1. apply IH2.
Qed.

Lemma report_size_fold_matching k id items :
  forall acc,
    fold_left (report_size_item k id) items acc
    = fold_left (report_size_item k id) (matching_items items k id) acc.
Proof.
  induction items as [|h items IH]; intro acc; [reflexivity|].
  unfold matching_items in *. cbn [filter fold_left].
  destruct (item_matches k id h) eqn:Hm.
  - cbn [fold_left]. apply IH.
  - rewrite <- IH. f_equal.
    destruct acc as [hpos lpos]. unfold report_size_item.
    unfold item_matches in Hm. rewrite Hm. reflexivity.
Qed.

Lemma report_size_of_items_perm (items items' : list hid_item)
  (k : hid_kind) (id : Z) :
  Permutation (matching_items items k id) (matching_items items' k id) ->
  report_size_of_items items k id = report_size_of_items items' k id.
Proof.
  intro Hp. unfold report_size_of_items.
  rewrite (report_size_fold_matching k id items).
  rewrite (report_size_fold_matching k id items').
  rewrite (report_size_fold_perm k id _ _ Hp). reflexivity.
Qed.

Context {usbhid : UsbHid}.

(** X10.  The size rests on the matching items only, in any order: two
    descriptors whose items of the kind and report id are the same up to
    order give the same size, whatever else they hold.  This holds with the
    32-bit wrap-around as well. *)
Theorem wmt_hid_report_size_order_independent
  (buf buf' : hid_descriptor) (len len' : Z) (k : hid_kind) (id : Z) :
  Permutation
    (matching_items
       (hid_start_parse buf len (Z.shiftl 1 (hid_kind_code k))) k id)
    (matching_items
       (hid_start_parse buf' len' (Z.shiftl 1 (hid_kind_code k))) k id) ->
  wmt_hid_report_size buf len k id = wmt_hid_report_size buf' len' k id.
Proof.
  intro Hp. unfold wmt_hid_report_size.
  apply report_size_of_items_perm. exact Hp.
Qed.

End ReportSizeOrder.

(** ** Descriptor Analyzer: rejection, result and tables *)

Section AnalyzerTables.

Context {usbhid : UsbHid} {evdev_if : Evdev}.

Ltac case_ifs :=
  repeat match goal with
         | |- context [if ?c then _ else _] => destruct c eqn:?
         | |- context [match ?x with Some _ => _ | None => _ end] =>
             destruct x eqn:?
         end.

(** An invariant of a walk that may use the items walked over. *)
Lemma parse_items_invariant_in
  (P : option imt_softc -> parse_locals -> Prop)
  (step : option imt_softc -> parse_locals -> hid_item ->
          option imt_softc * parse_locals)
  (items : list hid_item)
  (Hstep : forall sc l hi, In hi items -> P sc l ->
             P (fst (step sc l hi)) (snd (step sc l hi))) :
  forall sc l, P sc l ->
    P (fst (parse_items step items sc l)) (snd (parse_items step items sc l)).
Proof.
  unfold parse_items. revert Hstep.
  induction items as [|hi items IH]; intros Hstep sc l HP; [exact HP|].
  cbn [fold_left fst snd].
  rewrite (surjective_pairing (step sc l hi)).
  apply IH.
  - intros sc' l' h Hin. apply Hstep. right. exact Hin.
  - apply Hstep; [left; reflexivity | exact HP].
Qed.

(** X11.  The contact count maximum must come with a report id.  When no
    feature item with the contact count maximum usage has a report id
    other than 0 (there is none, or the device does not number its
    reports), [wmt_hid_parse] returns 0 after the first walk, without
    walking the input items. *)
Theorem wmt_hid_parse_needs_cont_max_id (sc : option imt_softc)
  (d_ptr : hid_descriptor) (d_len : Z) :
  (forall hi,
      In hi (hid_start_parse d_ptr d_len
               (Z.shiftl 1 (hid_kind_code hid_feature))) ->
      kind hi = hid_feature ->
      usage hi = HID_USAGE2 HUP_DIGITIZERS HUD_CONTACT_MAX ->
      report_ID hi = 0) ->
  wmt_hid_parse sc d_ptr d_len
  = (0, fst (wmt_parse_features sc d_ptr d_len)).
Proof.
  intro Hno.
  assert (H : cont_max_rid (snd (wmt_parse_features sc d_ptr d_len)) = 0).
  { unfold wmt_parse_features.
    apply (parse_items_invariant_in (fun _ l => cont_max_rid l = 0));
      [|reflexivity].
    intros sc' l hi Hin Hl. specialize (Hno hi Hin).
    unfold parse_feature_item.
    destruct (kind hi); try exact Hl.
    - (* hid_feature *)
      specialize (Hno eq_refl).
      destruct ((collevel hi =? 1) && touch_coll l
                && (usage hi =? HID_USAGE2 HUP_MICROSOFT HUMS_THQA_CERT));
        [exact Hl|].
      destruct ((collevel hi =? 1) && touch_coll l && WMT_HI_ABSOLUTE hi
                && (usage hi =? HID_USAGE2 HUP_DIGITIZERS HUD_CONTACT_MAX))
        eqn:Hc.
      + apply andb_true_iff in Hc. destruct Hc as [_ Hu].
        apply Z.eqb_eq in Hu.
        case_ifs; cbn; apply Hno; exact Hu.
      + case_ifs; cbn; exact Hl.
    - case_ifs; cbn; exact Hl.
    - case_ifs; cbn; exact Hl. }
  unfold wmt_hid_parse.
  destruct (wmt_parse_features sc d_ptr d_len) as [sc1 l1].
  cbn [fst snd] in *. rewrite H. reflexivity.
Qed.

(** The type is set with the touch collection, and the contact count can
    only be found inside one. *)
Lemma parse_input_item_type sc l hi :
  let T l :=
    type l = HUD_TOUCHSCREEN \/ type l = HUD_TOUCHPAD in
  ((touch_coll l = true -> T l) /\ (cont_count_found l = true -> T l)) ->
  let l' := snd (parse_input_item sc l hi) in
  (touch_coll l' = true -> T l') /\ (cont_count_found l' = true -> T l').
Proof.
  cbn zeta. intros [H1 H2]. unfold parse_input_item.
  destruct (kind hi); try (split; assumption).
  - (* hid_input *)
    destruct (WMT_HI_ABSOLUTE hi && touch_coll l
              && ((report_id l =? 0) || (report_id l =? report_ID hi)))
      eqn:Hc; [|split; assumption].
    apply andb_true_iff in Hc. destruct Hc as [Hc _].
    apply andb_true_iff in Hc. destruct Hc as [_ Ht].
    specialize (H1 Ht).
    case_ifs; cbn [snd]; try rewrite wmt_bind_usage_locals;
      cbn; split; intros; exact H1.
  - (* hid_collection *)
    case_ifs; cbn; split; intros; auto.
  - (* hid_endcollection *)
    case_ifs; cbn; split; intros; auto; discriminate.
Qed.

Lemma parse_feature_item_found sc l hi :
  cont_count_found (snd (parse_feature_item sc l hi)) = cont_count_found l.
Proof.
  unfold parse_feature_item.
  destruct (kind hi); try reflexivity; case_ifs; reflexivity.
Qed.

(** X12.  [wmt_hid_parse] returns 0 or the usage of the touch collection:
    [HUD_TOUCHSCREEN] or [HUD_TOUCHPAD], in the probe and in the attach. *)
Theorem wmt_hid_parse_type (sc : option imt_softc) (d_ptr : hid_descriptor)
  (d_len : Z) :
  let r := fst (wmt_hid_parse sc d_ptr d_len) in
  r = 0 \/ r = HUD_TOUCHSCREEN \/ r = HUD_TOUCHPAD.
Proof.
  cbn zeta. unfold wmt_hid_parse.
  assert (H0 : cont_count_found (snd (wmt_parse_features sc d_ptr d_len))
               = false).
  { unfold wmt_parse_features.
    apply (parse_items_invariant (fun _ l => cont_count_found l = false));
      [|reflexivity].
    intros sc' l hi Hl. rewrite parse_feature_item_found. exact Hl. }
  destruct (wmt_parse_features sc d_ptr d_len) as [sc1 l1].
  cbn [snd] in H0.
  destruct (cont_max_rid l1 =? 0); [left; reflexivity|].
  assert (H : let l' := snd (wmt_parse_inputs sc1 l1 d_ptr d_len) in
              cont_count_found l' = true ->
              type l' = HUD_TOUCHSCREEN \/ type l' = HUD_TOUCHPAD).
  { cbn zeta. unfold wmt_parse_inputs.
    apply (parse_items_invariant
             (fun _ l =>
                (touch_coll l = true ->
                 type l = HUD_TOUCHSCREEN \/ type l = HUD_TOUCHPAD)
                /\ (cont_count_found l = true ->
                    type l = HUD_TOUCHSCREEN \/ type l = HUD_TOUCHPAD))).
    - intros sc' l hi Hl. apply (parse_input_item_type sc' l hi Hl).
    - cbn. split; [discriminate | rewrite H0; discriminate]. }
  destruct (wmt_parse_inputs sc1 l1 d_ptr d_len) as [sc2 l2].
  cbn [snd] in H.
  destruct (wmt_found_all l2) eqn:Hf; cbn [negb]; [|left; reflexivity].
  destruct (wmt_required_present (caps l2)); cbn [negb];
    [|left; reflexivity].
  unfold wmt_found_all in Hf.
  apply negb_true_iff, orb_false_iff in Hf. destruct Hf as [Hf _].
  apply orb_false_iff in Hf. destruct Hf as [Hf _].
  apply negb_false_iff in Hf.
  right. destruct sc2; cbn [fst]; apply H; exact Hf.
Qed.

End AnalyzerTables.

(** ** Descriptor Analyzer: what the walks write *)

Section AnalyzerWrites.

Context {usbhid : UsbHid} {evdev_if : Evdev}.

Ltac case_ifs :=
  repeat match goal with
         | |- context [if ?c then _ else _] => destruct c eqn:?
         | |- context [match ?x with Some _ => _ | None => _ end] =>
             destruct x eqn:?
         end.

(** What binding an item can write in the attach: the location of the
    current finger for a visited channel whose location is still empty, and
    the axis of a visited channel. *)
Lemma wmt_bind_usage_writes hi idx :
  forall s l,
  exists s',
    fst (wmt_bind_usage (Some s) l hi idx) = Some s'
    /\ (forall c k,
          c <> cont l \/ ~ In k idx \/ size (sc_locs s c k) <> 0 ->
          sc_locs s' c k = sc_locs s c k)
    /\ (forall k, ~ In k idx \/ (0 < cont l)%nat ->
                  sc_ai s' k = sc_ai s k).
Proof.
  induction idx as [|i idx IH]; intros s l; cbn [wmt_bind_usage].
  - exists s. repeat split.
  - assert (Hrec : exists s',
               fst (wmt_bind_usage (Some s) l hi idx) = Some s'
               /\ (forall c k,
                     c <> cont l \/ ~ In k (i :: idx)
                     \/ size (sc_locs s c k) <> 0 ->
                     sc_locs s' c k = sc_locs s c k)
               /\ (forall k, ~ In k (i :: idx) \/ (0 < cont l)%nat ->
                             sc_ai s' k = sc_ai s k)).
    { destruct (IH s l) as (s' & E & L & A). exists s'.
      split; [exact E|]. split.
      - intros c k [H|[H|H]]; apply L; auto.
        right. left. intro Hin. apply H. right. exact Hin.
      - intros k [H|H]; apply A; auto.
        left. intro Hin. apply H. right. exact Hin. }
    destruct (usage hi =? map_usage (wmt_hid_map i)); [|exact Hrec].
    destruct (size (sc_locs s (cont l) i) =? 0) eqn:Hz; cbn [negb];
      [|exact Hrec].
    apply Z.eqb_eq in Hz.
    assert (Hl : forall c k,
               c <> cont l \/ ~ In k (i :: idx)
               \/ size (sc_locs s c k) <> 0 ->
               upd2 (sc_locs s) (cont l) i (loc hi) c k = sc_locs s c k).
    { intros c k Hck. unfold upd2.
      destruct (Nat.eqb_spec c (cont l)) as [->|]; [|reflexivity].
      destruct (Nat.eqb_spec k i) as [->|]; [|reflexivity].
      cbn [andb]. destruct Hck as [H|[H|H]];
        [contradiction | contradiction H; left; reflexivity | contradiction]. }
    destruct (Nat.ltb_spec 0 (cont l)) as [Hlt|Hge].
    + eexists. split; [reflexivity|]. split; [exact Hl | reflexivity].
    + eexists. split; [reflexivity|]. split; [exact Hl|].
      intros k [H|H]; [|lia].
      cbn [sc_ai set_ai set_locs]. unfold upd.
      destruct (Nat.eqb_spec k i) as [->|]; [|reflexivity].
      contradiction H. left. reflexivity.
Qed.

(** One step of the second walk in the attach. *)
Lemma parse_input_item_writes s l hi :
  exists s',
    fst (parse_input_item (Some s) l hi) = Some s'
    /\ (forall c k,
          to_size_t MAX_MT_SLOTS <= Z.of_nat c
          \/ (WMT_N_USAGES <= k)%nat
          \/ size (sc_locs s c k) <> 0 ->
          sc_locs s' c k = sc_locs s c k)
    /\ (forall k, (WMT_N_USAGES <= k)%nat \/ (0 < cont l)%nat ->
                  sc_ai s' k = sc_ai s k)
    /\ ((0 < cont l)%nat ->
        caps (snd (parse_input_item (Some s) l hi)) = caps l)
    /\ (cont l <= cont (snd (parse_input_item (Some s) l hi)))%nat.
Proof.
  unfold parse_input_item.
  destruct (kind hi);
    try (exists s; repeat split; intros; try reflexivity; lia).
  - (* hid_input *)
    destruct (WMT_HI_ABSOLUTE hi && touch_coll l
              && ((report_id l =? 0) || (report_id l =? report_ID hi)));
      [|exists s; repeat split; intros; try reflexivity; lia].
    destruct ((collevel hi =? 1)
              && (usage hi =? HID_USAGE2 HUP_DIGITIZERS HUD_CONTACTCOUNT)).
    { eexists. cbn [fst snd option_map].
      repeat split; intros; try reflexivity; cbn; lia. }
    destruct ((collevel hi =? 1)
              && (usage hi =? HID_USAGE2 HUP_DIGITIZERS HUD_SCAN_TIME)).
    { exists s. repeat split; intros; try reflexivity; cbn; lia. }
    destruct (negb (finger_coll (set_report_id l (report_ID hi)))
              || negb (collevel hi =? 2)).
    { exists s. repeat split; intros; try reflexivity; cbn; lia. }
    cbn [cont set_report_id].
    destruct (Z.geb_spec (Z.of_nat (cont l)) (to_size_t MAX_MT_SLOTS))
      as [Hge|Hlt].
    { exists s. repeat split; intros; try reflexivity; cbn; lia. }
    destruct (wmt_bind_usage_writes hi (seq 0 WMT_N_USAGES) s
                (set_report_id l (report_ID hi))) as (s' & E & L & A).
    destruct (wmt_bind_usage_attach hi (seq 0 WMT_N_USAGES) s
                (set_report_id l (report_ID hi))) as (s2 & E2 & _ & C).
    cbn [cont set_report_id] in *.
    exists s'. split; [exact E|]. split; [|split; [|split]].
    + intros c k [H|[H|H]]; apply L.
      * left. lia.
      * right. left. intro Hin. apply in_seq in Hin. lia.
      * right. right. exact H.
    + intros k [H|H]; apply A.
      * left. intro Hin. apply in_seq in Hin. lia.
      * right. exact H.
    + intro Hc. rewrite (C Hc). reflexivity.
    + rewrite wmt_bind_usage_locals. cbn. lia.
  - (* hid_collection *)
    case_ifs; exists s; cbn; repeat split; intros; try reflexivity; lia.
  - (* hid_endcollection *)
    case_ifs; exists s; cbn; repeat split; intros; try reflexivity; lia.
Qed.

Lemma parse_inputs_writes items :
  forall s l,
  exists s',
    fst (parse_items parse_input_item items (Some s) l) = Some s'
    /\ (forall c k,
          to_size_t MAX_MT_SLOTS <= Z.of_nat c
          \/ (WMT_N_USAGES <= k)%nat
          \/ size (sc_locs s c k) <> 0 ->
          sc_locs s' c k = sc_locs s c k)
    /\ (forall k, (WMT_N_USAGES <= k)%nat \/ (0 < cont l)%nat ->
                  sc_ai s' k = sc_ai s k)
    /\ ((0 < cont l)%nat ->
        caps (snd (parse_items parse_input_item items (Some s) l)) = caps l)
    /\ (cont l
        <= cont (snd (parse_items parse_input_item items (Some s) l)))%nat.
Proof.
  unfold parse_items.
  induction items as [|hi items IH]; intros s l; cbn [fold_left fst snd].
  - exists s. repeat split; intros; reflexivity || lia.
  - destruct (parse_input_item_writes s l hi) as (s1 & E1 & L1 & A1 & C1 & M1).
    destruct (parse_input_item (Some s) l hi) as [sc1 l1].
    cbn [fst snd] in *. subst sc1.
    destruct (IH s1 l1) as (s2 & E2 & L2 & A2 & C2 & M2).
    exists s2. split; [exact E2|]. split; [|split; [|split]].
    + intros c k H. rewrite L2, L1; try reflexivity; try exact H.
      destruct H as [H|[H|H]]; auto.
      right. right. rewrite L1 by (right; right; exact H). exact H.
    + intros k H. rewrite A2, A1; try reflexivity; try exact H.
      destruct H as [H|H]; [left; exact H | right; lia].
    + intro H. rewrite C2 by lia. apply C1. exact H.
    + lia.
Qed.

Lemma parse_feature_item_tables s l hi :
  exists s',
    fst (parse_feature_item (Some s) l hi) = Some s'
    /\ sc_locs s' = sc_locs s /\ sc_ai s' = sc_ai s.
Proof.
  unfold parse_feature_item.
  destruct (kind hi); try solve [exists s; repeat split];
    case_ifs; cbn [fst option_map]; eexists; repeat split.
Qed.

Lemma wmt_parse_features_tables s d_ptr d_len :
  exists s',
    fst (wmt_parse_features (Some s) d_ptr d_len) = Some s'
    /\ sc_locs s' = sc_locs s /\ sc_ai s' = sc_ai s.
Proof.
  unfold wmt_parse_features.
  apply (parse_items_invariant
           (fun sc' _ => exists s', sc' = Some s'
                                    /\ sc_locs s' = sc_locs s
                                    /\ sc_ai s' = sc_ai s)).
  - intros sc' l hi (s1 & -> & L & A).
    destruct (parse_feature_item_tables s1 l hi) as (s2 & E & L2 & A2).
    exists s2. split; [exact E|]. split; congruence.
  - exists s. repeat split.
Qed.

(** X13.  The tables stay in their bounds.  Whatever the descriptor, the
    attach writes no location for a finger index of [MAX_MT_SLOTS] or more
    or for a channel index of [WMT_N_USAGES] or more, and no axis for such
    a channel index: fingers beyond the capacity are dropped. *)
Theorem wmt_hid_parse_table_bounds (s : imt_softc) (d_ptr : hid_descriptor)
  (d_len : Z) :
  0 <= MAX_MT_SLOTS < 2 ^ 64 ->
  exists s',
    snd (wmt_hid_parse (Some s) d_ptr d_len) = Some s'
    /\ (forall c k,
          MAX_MT_SLOTS <= Z.of_nat c \/ (WMT_N_USAGES <= k)%nat ->
          sc_locs s' c k = sc_locs s c k)
    /\ (forall k, (WMT_N_USAGES <= k)%nat -> sc_ai s' k = sc_ai s k).
Proof.
  intro Hmax.
  assert (Hsz : to_size_t MAX_MT_SLOTS = MAX_MT_SLOTS)
    by (unfold to_size_t; apply Z.mod_small; exact Hmax).
  unfold wmt_hid_parse.
  destruct (wmt_parse_features_tables s d_ptr d_len) as (s1 & E1 & L1 & A1).
  destruct (wmt_parse_features (Some s) d_ptr d_len) as [sc1 l1].
  cbn [fst] in E1. subst sc1.
  destruct (cont_max_rid l1 =? 0).
  { exists s1. cbn [snd]. repeat split; intros; congruence. }
  unfold wmt_parse_inputs.
  destruct (parse_inputs_writes
              (hid_start_parse d_ptr d_len
                 (Z.shiftl 1 (hid_kind_code hid_input)))
              s1 (set_touch_coll l1 false)) as (s2 & E2 & L2 & A2 & _).
  destruct (parse_items parse_input_item _ (Some s1) _) as [sc2 l2].
  cbn [fst] in E2. subst sc2.
  assert (HL : forall c k,
             MAX_MT_SLOTS <= Z.of_nat c \/ (WMT_N_USAGES <= k)%nat ->
             sc_locs s2 c k = sc_locs s c k).
  { intros c k H. rewrite L2, L1; [reflexivity|].
    destruct H as [H|H]; [left; lia | right; left; exact H]. }
  assert (HA : forall k, (WMT_N_USAGES <= k)%nat -> sc_ai s2 k = sc_ai s k).
  { intros k H. rewrite A2, A1; [reflexivity | left; exact H]. }
  destruct (negb (wmt_found_all l2));
    [exists s2; cbn [snd]; repeat split; assumption|].
  destruct (negb (wmt_required_present (caps l2)));
    [exists s2; cbn [snd]; repeat split; assumption|].
  eexists. cbn [snd]. split; [reflexivity|]. split.
  - intros c k H. cbn [wmt_hid_publish sc_locs]. apply HL. exact H.
  - intros k H. unfold wmt_hid_publish. cbn [sc_ai].
    unfold WMT_N_USAGES in H.
    assert (Hk0 : Nat.eqb k WMT_SLOT = false)
      by (apply Nat.eqb_neq; unfold WMT_SLOT, WMT_TIP_SWITCH; lia).
    assert (Hk3 : Nat.eqb k WMT_ORIENTATION = false)
      by (apply Nat.eqb_neq; unfold WMT_ORIENTATION; lia).
    destruct (USAGE_SUPPORTED (caps l2) WMT_WIDTH
              && USAGE_SUPPORTED (caps l2) WMT_HEIGHT);
      unfold upd; rewrite ?Hk3, Hk0; apply HA; exact H.
Qed.

(** X14.  The first match wins.  From any point of the second walk on, a
    location of the table that is not empty (its width is not 0) is never
    written again: a later field with the same usage for the same finger
    does not replace it. *)
Theorem parse_inputs_first_match_wins (items : list hid_item)
  (s : imt_softc) (l : parse_locals) (c k : nat) :
  size (sc_locs s c k) <> 0 ->
  exists s',
    fst (parse_items parse_input_item items (Some s) l) = Some s'
    /\ sc_locs s' c k = sc_locs s c k.
Proof.
  intro H.
  destruct (parse_inputs_writes items s l) as (s' & E & L & _).
  exists s'. split; [exact E|]. apply L. right. right. exact H.
Qed.

(** X15.  Only the first finger sets axes and capabilities.  Once a finger
    collection has been closed, the rest of the second walk changes
    neither the capability set nor any axis range; it can only record
    locations of later fingers. *)
Theorem parse_inputs_first_finger_only (items : list hid_item)
  (s : imt_softc) (l : parse_locals) :
  (0 < cont l)%nat ->
  exists s',
    fst (parse_items parse_input_item items (Some s) l) = Some s'
    /\ (forall k, sc_ai s' k = sc_ai s k)
    /\ (forall k, sc_locs s' 0 k = sc_locs s 0 k)
    /\ caps (snd (parse_items parse_input_item items (Some s) l)) = caps l.
Proof.
  intro H.
  assert (Hgen : forall items s l, (0 < cont l)%nat ->
            exists s',
              fst (parse_items parse_input_item items (Some s) l) = Some s'
              /\ forall k, sc_locs s' 0 k = sc_locs s 0 k).
  { clear. unfold parse_items.
    induction items as [|hi items IH]; intros s l H; cbn [fold_left fst snd].
    - exists s. split; reflexivity.
    - destruct (parse_input_item_writes s l hi) as (s1 & E1 & _ & _ & _ & M1).
      assert (L0 : forall k, sc_locs s1 0 k = sc_locs s 0 k).
      { unfold parse_input_item in E1.
        destruct (kind hi); try (injection E1 as <-; reflexivity).
        - revert E1. case_ifs; cbn [fst option_map]; intro E1;
            try (injection E1 as <-; reflexivity).
          destruct (wmt_bind_usage_attach hi (seq 0 WMT_N_USAGES) s
                      (set_report_id l (report_ID hi))) as (s2 & E2 & L2 & _).
          rewrite E1 in E2. injection E2 as <-.
          intro k. apply L2. right. cbn [cont set_report_id]. lia.
        - revert E1. case_ifs; cbn [fst]; intro E1; injection E1 as <-;
            reflexivity.
        - revert E1. case_ifs; cbn [fst]; intro E1; injection E1 as <-;
            reflexivity. }
      destruct (parse_input_item (Some s) l hi) as [sc1 l1].
      cbn [fst snd] in *. subst sc1.
      destruct (IH s1 l1 ltac:(lia)) as (s2 & E2 & L2).
      exists s2. split; [exact E2|].
      intro k. rewrite L2. apply L0. }
  destruct (parse_inputs_writes items s l) as (s' & E & _ & A & C & _).
  destruct (Hgen items s l H) as (s2 & E2 & L0).
  rewrite E in E2. injection E2 as <-.
  exists s'. split; [exact E|]. split; [|split; [exact L0 | apply C; exact H]].
  intro k. apply A. right. exact H.
Qed.

Lemma parse_input_item_report_id sc l hi :
  report_id l <> 0 ->
  report_id (snd (parse_input_item sc l hi)) = report_id l.
Proof.
  intro Hr. unfold parse_input_item.
  destruct (kind hi); try reflexivity.
  - destruct (WMT_HI_ABSOLUTE hi && touch_coll l
              && ((report_id l =? 0) || (report_id l =? report_ID hi)))
      eqn:Hc; [|reflexivity].
    apply andb_true_iff in Hc. destruct Hc as [_ Hc].
    apply orb_true_iff in Hc.
    destruct Hc as [Hc|Hc]; apply Z.eqb_eq in Hc; [contradiction|].
    case_ifs; cbn [snd]; try rewrite wmt_bind_usage_locals; cbn;
      symmetry; exact Hc.
  - case_ifs; reflexivity.
  - case_ifs; reflexivity.
Qed.

Lemma parse_input_item_foreign sc l hi :
  report_id l <> 0 -> kind hi = hid_input -> report_ID hi <> report_id l ->
  parse_input_item sc l hi = (sc, l).
Proof.
  intros Hr Hk Hne. unfold parse_input_item. rewrite Hk.
  destruct (Z.eqb_spec (report_id l) 0); [contradiction|].
  destruct (Z.eqb_spec (report_id l) (report_ID hi));
    [symmetry in e; contradiction|].
  cbn [orb]. rewrite andb_false_r. reflexivity.
Qed.

(** X16.  One report.  Once the report id is pinned (it is not 0), the
    second walk keeps it to the end, and input items that belong to
    another report are ignored wherever they come: the walk ends as if they
    were not in the descriptor. *)
Theorem parse_inputs_one_report (items : list hid_item)
  (sc : option imt_softc) (l : parse_locals) :
  report_id l <> 0 ->
  report_id (snd (parse_items parse_input_item items sc l)) = report_id l
  /\ parse_items parse_input_item items sc l
     = parse_items parse_input_item
         (filter
            (fun hi =>
               negb (hid_kind_eqb (kind hi) hid_input
                     && negb (report_ID hi =? report_id l)))
            items) sc l.
Proof.
  unfold parse_items. revert sc l.
  induction items as [|hi items IH]; intros sc l Hr; [split; reflexivity|].
  cbn [fold_left filter fst snd].
  pose proof (parse_input_item_report_id sc l hi Hr) as Hid.
  destruct (hid_kind_eqb (kind hi) hid_input
            && negb (report_ID hi =? report_id l)) eqn:Hf; cbn [negb].
  - apply andb_true_iff in Hf. destruct Hf as [Hk Hne].
    assert (Hk' : kind hi = hid_input)
      by (destruct (kind hi); cbn in Hk; congruence).
    apply negb_true_iff, Z.eqb_neq in Hne.
    rewrite (parse_input_item_foreign sc l hi Hr Hk' Hne).
    cbn [fst snd]. apply IH. exact Hr.
  - cbn [fold_left fst snd].
    destruct (parse_input_item sc l hi) as [sc1 l1]. cbn [fst snd] in *.
    destruct (IH sc1 l1 ltac:(congruence)) as [I1 I2].
    rewrite Hid in I1, I2. split; assumption.
Qed.

(** What the acceptance of a descriptor in the attach means. *)
Lemma wmt_hid_parse_accepted s d_ptr d_len :
  fst (wmt_hid_parse (Some s) d_ptr d_len) <> 0 ->
  exists s2 l2,
    wmt_parse_walks (Some s) d_ptr d_len = (Some s2, l2)
    /\ cont_max_rid l2 <> 0
    /\ wmt_found_all l2 = true
    /\ wmt_required_present (caps l2) = true
    /\ wmt_hid_parse (Some s) d_ptr d_len
       = (type l2, Some (wmt_hid_publish s2 l2 d_ptr d_len)).
Proof.
  unfold wmt_hid_parse, wmt_parse_walks.
  pose proof (wmt_parse_features_frame (Some s) d_ptr d_len) as [Hf _].
  destruct (wmt_parse_features (Some s) d_ptr d_len) as [sc1 l1].
  cbn [fst snd] in *.
  destruct (Z.eqb_spec (cont_max_rid l1) 0) as [|Hrid];
    [intro H; contradiction H; reflexivity|].
  pose proof (wmt_parse_inputs_frame sc1 l1 d_ptr d_len) as (Hf2 & _ & Hm).
  destruct (wmt_parse_inputs sc1 l1 d_ptr d_len) as [sc2 l2].
  cbn [fst snd] in *.
  destruct (wmt_found_all l2) eqn:Hfa; cbn [negb];
    [|intro H; contradiction H; reflexivity].
  destruct (wmt_required_present (caps l2)) eqn:Hreq; cbn [negb];
    [|intro H; contradiction H; reflexivity].
  destruct sc1 as [s1|]; [|contradiction Hf].
  destruct sc2 as [s2|]; [|contradiction Hf2].
  intros _. exists s2, l2. repeat split; congruence.
Qed.

(** X17.  The profile of an accepted device.  When the attach accepts a
    descriptor, the capability set it stores has every required channel
    (tip switch, X, Y, contact id), and the orientation with an axis
    maximum of 1 when it has width and height; the contact count maximum
    has a report id, and at least one finger collection was counted. *)
Theorem wmt_hid_parse_profile (s : imt_softc) (d_ptr : hid_descriptor)
  (d_len : Z) :
  fst (wmt_hid_parse (Some s) d_ptr d_len) <> 0 ->
  exists s',
    snd (wmt_hid_parse (Some s) d_ptr d_len) = Some s'
    /\ (forall i, map_required (wmt_hid_map i) = true ->
                  USAGE_SUPPORTED (sc_caps s') i = true)
    /\ (USAGE_SUPPORTED (sc_caps s') WMT_WIDTH = true ->
        USAGE_SUPPORTED (sc_caps s') WMT_HEIGHT = true ->
        USAGE_SUPPORTED (sc_caps s') WMT_ORIENTATION = true
        /\ ai_max (sc_ai s' WMT_ORIENTATION) = 1)
    /\ sc_cont_max_rid s' <> 0
    /\ sc_nconts_per_report s'
       = to_uint32 (Z.of_nat (wmt_finger_collections (Some s) d_ptr d_len))
    /\ (1 <= wmt_finger_collections (Some s) d_ptr d_len)%nat.
Proof.
  intro Hacc.
  destruct (wmt_hid_parse_accepted s d_ptr d_len Hacc)
    as (s2 & l2 & Ew & Hrid & Hfa & Hreq & Ep).
  rewrite Ep. cbn [snd]. unfold wmt_finger_collections. rewrite Ew. cbn [snd].
  eexists. split; [reflexivity|].
  unfold wmt_hid_publish. cbn [sc_caps sc_ai sc_cont_max_rid
                               sc_nconts_per_report].
  split; [|split; [|split; [exact Hrid | split; [reflexivity|]]]].
  - intros i Hi. pose proof (wmt_required_present_bit _ i Hi Hreq) as Hb.
    destruct (USAGE_SUPPORTED (caps l2) WMT_WIDTH
              && USAGE_SUPPORTED (caps l2) WMT_HEIGHT); [|exact Hb].
    rewrite USAGE_SUPPORTED_caps_set, Hb. apply orb_true_r.
  - destruct (USAGE_SUPPORTED (caps l2) WMT_WIDTH
              && USAGE_SUPPORTED (caps l2) WMT_HEIGHT) eqn:Hwh.
    + intros _ _. split.
      * rewrite USAGE_SUPPORTED_caps_set, Nat.eqb_refl. reflexivity.
      * unfold upd. cbn. reflexivity.
    + intros Hw Hh. rewrite Hw, Hh in Hwh. discriminate Hwh.
  - unfold wmt_found_all in Hfa.
    apply negb_true_iff, orb_false_iff in Hfa. destruct Hfa as [_ Hc].
    apply Nat.eqb_neq in Hc. lia.
Qed.

End AnalyzerWrites.

(** ** Feature Refinement: what the feature report can change *)

Section FeatureFrame.

Context {usbhid : UsbHid} {evdev_if : Evdev}.

Lemma wmt_feature_cont_max_range sc r_ptr r_len :
  0 <= MAX_MT_SLOTS < 2 ^ 32 ->
  0 <= wmt_feature_cont_max sc r_ptr r_len <= MAX_MT_SLOTS.
Proof.
  intro Hm. unfold wmt_feature_cont_max.
  pose proof (to_uint32_range
                (hid_get_data_unsigned r_ptr r_len (sc_cont_max_loc sc)))
    as Hd.
  rewrite (to_uint32_small MAX_MT_SLOTS) by lia.
  rewrite Z.gtb_ltb. destruct (Z.ltb_spec MAX_MT_SLOTS
    (to_uint32 (hid_get_data_unsigned r_ptr r_len (sc_cont_max_loc sc))));
    lia.
Qed.

Lemma wmt_cont_max_parse_others sc r_ptr r_len :
  same_but_slot_max sc (wmt_cont_max_parse sc r_ptr r_len).
Proof.
  unfold wmt_cont_max_parse, same_but_slot_max.
  destruct ((wmt_feature_cont_max sc r_ptr r_len >? 0)
            && negb (wmt_feature_cont_max sc r_ptr r_len
                     =? to_uint32 (ai_max (sc_ai sc WMT_SLOT) + 1))).
  - cbn [set_ai sc_ai]. repeat split.
    + destruct sc; reflexivity.
    + intros i Hi. unfold upd.
      destruct (Nat.eqb_spec i WMT_SLOT); [contradiction | reflexivity].
  - repeat split. destruct sc; reflexivity.
Qed.

Lemma wmt_cont_max_parse_bound sc r_ptr r_len :
  0 <= MAX_MT_SLOTS < 2 ^ 31 ->
  ai_max (sc_ai (wmt_cont_max_parse sc r_ptr r_len) WMT_SLOT)
  = ai_max (sc_ai sc WMT_SLOT)
  \/ 0 <= ai_max (sc_ai (wmt_cont_max_parse sc r_ptr r_len) WMT_SLOT)
     <= MAX_MT_SLOTS - 1.
Proof.
  intro Hm. unfold wmt_cont_max_parse.
  pose proof (wmt_feature_cont_max_range sc r_ptr r_len ltac:(lia)) as Hr.
  destruct ((wmt_feature_cont_max sc r_ptr r_len >? 0)
            && negb (wmt_feature_cont_max sc r_ptr r_len
                     =? to_uint32 (ai_max (sc_ai sc WMT_SLOT) + 1))) eqn:Hc;
    [right | left; reflexivity].
  apply andb_true_iff in Hc. destruct Hc as [Hp _].
  rewrite Z.gtb_ltb in Hp. apply Z.ltb_lt in Hp.
  cbn [set_ai sc_ai]. unfold upd. cbn [Nat.eqb WMT_SLOT WMT_TIP_SWITCH ai_max].
  rewrite to_int32_small by lia. lia.
Qed.

(** X18.  The feature report refines one number.  Whatever the report
    holds, [wmt_cont_max_parse] leaves every field of the device state as it
    was but the maximum of the slot axis, and a maximum it changes lies
    between 0 and [MAX_MT_SLOTS - 1]. *)
Theorem wmt_cont_max_parse_frame (sc : imt_softc) (r_ptr : list Z)
  (r_len : Z) :
  0 <= MAX_MT_SLOTS < 2 ^ 31 ->
  let sc' := wmt_cont_max_parse sc r_ptr r_len in
  same_but_slot_max sc sc'
  /\ (ai_max (sc_ai sc' WMT_SLOT) = ai_max (sc_ai sc WMT_SLOT)
      \/ 0 <= ai_max (sc_ai sc' WMT_SLOT) <= MAX_MT_SLOTS - 1).
Proof.
  intro Hm. cbn zeta. split.
  - apply wmt_cont_max_parse_others.
  - apply wmt_cont_max_parse_bound. exact Hm.
Qed.

End FeatureFrame.

(** ** Mode Selector: a device whose input mode cannot be read *)

Section ModeRead.

Context {usbhid : UsbHid} {evdev_if : Evdev} {iichid_if : Iichid}.

Lemma imt_input_mode_guard_false sc : imt_input_mode_guard sc = false.
Proof.
  unfold imt_input_mode_guard, WMT_BSIZE. rewrite Z.gtb_ltb.
  destruct (Z.eqb_spec (sc_input_mode_rlen sc) 0); [|reflexivity].
  destruct (Z.ltb_spec 1024 (sc_input_mode_rlen sc)); [lia | reflexivity].
Qed.

(** X19.  The input mode is written even when it cannot be read.  When
    the read of the input mode report fails, the report that is sent is
    built from a buffer whose first [input_mode_rlen] bytes are zero,
    whatever the failed read left there, and whose other bytes are
    untouched; the value returned is that of the write. *)
Theorem imt_set_input_mode_unreadable (sc : imt_softc)
  (io : list iichid_call) (mode : Z) :
  let rlen := sc_input_mode_rlen sc in
  let rid := sc_input_mode_rid sc in
  let read :=
    iichid_get_report io (sc_buf sc) rlen I2C_HID_REPORT_TYPE_FEATURE rid in
  let io1 := io ++ [GetReport rlen I2C_HID_REPORT_TYPE_FEATURE rid] in
  fst read <> 0 ->
  exists zeroed,
    length zeroed = length (snd read)
    /\ (forall i, (i < Z.to_nat rlen)%nat -> nth i zeroed 0 = 0)
    /\ (forall i, (Z.to_nat rlen <= i)%nat ->
                  nth i zeroed 0 = nth i (snd read) 0)
    /\ let out :=
         hid_put_data_unsigned zeroed rlen (sc_input_mode_loc sc) mode in
       imt_set_input_mode sc io mode
       = (iichid_set_report io1 out rlen I2C_HID_REPORT_TYPE_FEATURE rid,
          set_buf sc out,
          io1 ++ [SetReport out rlen I2C_HID_REPORT_TYPE_FEATURE rid]).
Proof.
  cbn zeta. intro Herr.
  exists (bzero (snd (iichid_get_report io (sc_buf sc) (sc_input_mode_rlen sc)
                        I2C_HID_REPORT_TYPE_FEATURE (sc_input_mode_rid sc)))
            0 (Z.to_nat (sc_input_mode_rlen sc))).
  split; [apply bzero_length|]. split; [|split].
  - intros i Hi. rewrite bzero_nth. cbn [Nat.leb Nat.add andb].
    destruct (Nat.ltb_spec i (Z.to_nat (sc_input_mode_rlen sc))); [|lia].
    cbn [andb].
    destruct (Nat.ltb_spec i (length (snd (iichid_get_report io (sc_buf sc)
      (sc_input_mode_rlen sc) I2C_HID_REPORT_TYPE_FEATURE
      (sc_input_mode_rid sc))))); [reflexivity|].
    apply nth_overflow. assumption.
  - intros i Hi. rewrite bzero_nth. cbn [Nat.leb Nat.add andb].
    destruct (Nat.ltb_spec i (Z.to_nat (sc_input_mode_rlen sc))); [lia|].
    reflexivity.
  - unfold imt_set_input_mode. rewrite imt_input_mode_guard_false.
    destruct (iichid_get_report io (sc_buf sc) (sc_input_mode_rlen sc)
                I2C_HID_REPORT_TYPE_FEATURE (sc_input_mode_rid sc))
      as [error buf].
    cbn [fst snd] in *.
    destruct (Z.eqb_spec error 0); [contradiction|]. reflexivity.
Qed.

End ModeRead.

(** ** Probe and attach *)

Section Attach.

Context {usbhid : UsbHid} {evdev_if : Evdev} {iichid_if : Iichid}
        {newbus : Newbus}.

Lemma attach_refines_refl s : attach_refines s s.
Proof.
  exists (sc_buf s). unfold same_but_slot_max.
  repeat split; try (destruct s; reflexivity).
Qed.

Lemma attach_refines_fields s s' :
  attach_refines s s' ->
  sc_type s' = sc_type s /\ sc_caps s' = sc_caps s
  /\ sc_cont_max_rid s' = sc_cont_max_rid s
  /\ sc_thqa_cert_rid s' = sc_thqa_cert_rid s
  /\ sc_input_mode_rlen s' = sc_input_mode_rlen s
  /\ sc_input_mode_rid s' = sc_input_mode_rid s.
Proof.
  intros (b & E & _).
  repeat split;
    [ exact (f_equal sc_type E) | exact (f_equal sc_caps E)
    | exact (f_equal sc_cont_max_rid E) | exact (f_equal sc_thqa_cert_rid E)
    | exact (f_equal sc_input_mode_rlen E)
    | exact (f_equal sc_input_mode_rid E) ].
Qed.

Lemma attach_refines_trans s s1 s2 :
  attach_refines s s1 -> attach_refines s1 s2 -> attach_refines s s2.
Proof.
  intros (b1 & E1 & A1 & M1 & R1) (b2 & E2 & A2 & M2 & R2).
  exists b2. unfold same_but_slot_max in *.
  cbn [set_buf sc_ai] in *. repeat split.
  - clear A1 M1 R1 A2 M2 R2. destruct s, s1, s2.
    unfold set_ai, set_buf in *. cbn in *.
    injection E1 as <-. injection E2 as <-. subst. reflexivity.
  - intros i Hi. rewrite A2, A1 by assumption. reflexivity.
  - congruence.
  - congruence.
Qed.

Lemma attach_refines_set_buf s b : attach_refines s (set_buf s b).
Proof.
  exists b. unfold same_but_slot_max.
  repeat split; try (destruct s; reflexivity).
Qed.

Lemma attach_call_refines s s' c :
  attach_refines s s' -> attach_call s c -> attach_call s' c.
Proof.
  intro H. destruct (attach_refines_fields s s' H)
    as (Ht & _ & Hc & Hq & Hl & Hi).
  unfold attach_call. rewrite Ht, Hc, Hq, Hl, Hi. exact id.
Qed.

Lemma imt_attach_cont_max_stage s io :
  let r := imt_attach_cont_max s io in
  attach_refines s (fst r)
  /\ (0 <= MAX_MT_SLOTS < 2 ^ 31 ->
      ai_max (sc_ai (fst r) WMT_SLOT) = ai_max (sc_ai s WMT_SLOT)
      \/ 0 <= ai_max (sc_ai (fst r) WMT_SLOT) <= MAX_MT_SLOTS - 1)
  /\ exists new, snd r = io ++ new /\ Forall (attach_call s) new
                 /\ (length new <= 1)%nat.
Proof.
  cbn zeta. unfold imt_attach_cont_max.
  destruct ((sc_cont_max_rlen s >? 0) && (sc_cont_max_rlen s <=? WMT_BSIZE))
    eqn:Hc.
  - apply andb_true_iff in Hc. destruct Hc as [Hp Hb].
    rewrite Z.gtb_ltb in Hp. apply Z.ltb_lt in Hp. apply Z.leb_le in Hb.
    assert (Hcalls : exists new,
               io ++ [GetReport (sc_cont_max_rlen s)
                        I2C_HID_REPORT_TYPE_FEATURE (sc_cont_max_rid s)]
               = io ++ new
               /\ Forall (attach_call s) new /\ (length new <= 1)%nat).
    { eexists. split; [reflexivity|]. split; [|cbn; lia].
      constructor; [|constructor]. cbn. split; [reflexivity|].
      left. split; [lia | left; reflexivity]. }
    destruct (iichid_get_report io (sc_buf s) (sc_cont_max_rlen s)
                I2C_HID_REPORT_TYPE_FEATURE (sc_cont_max_rid s))
      as [error buf].
    destruct (error =? 0); cbn [fst snd].
    + split; [|split; [|exact Hcalls]].
      * exists buf. apply wmt_cont_max_parse_others.
      * intro Hm.
        exact (wmt_cont_max_parse_bound (set_buf s buf) _ _ Hm).
    + split; [apply attach_refines_set_buf|].
      split; [intros _; left; reflexivity | exact Hcalls].
  - cbn [fst snd]. split; [apply attach_refines_refl|].
    split; [intros _; left; reflexivity|].
    exists []. rewrite app_nil_r. repeat split; [constructor | cbn; lia].
Qed.

Lemma imt_attach_thqa_stage s io :
  let r := imt_attach_thqa s io in
  (exists b, fst r = set_buf s b)
  /\ exists new, snd r = io ++ new /\ Forall (attach_call s) new
                 /\ (length new <= 1)%nat.
Proof.
  cbn zeta. unfold imt_attach_thqa.
  destruct ((sc_thqa_cert_rlen s >? 0) && (sc_thqa_cert_rlen s <=? WMT_BSIZE)
            && negb (sc_thqa_cert_rid s =? sc_cont_max_rid s)) eqn:Hc.
  - apply andb_true_iff in Hc. destruct Hc as [Hc _].
    apply andb_true_iff in Hc. destruct Hc as [Hp Hb].
    rewrite Z.gtb_ltb in Hp. apply Z.ltb_lt in Hp. apply Z.leb_le in Hb.
    destruct (iichid_get_report io (sc_buf s) (sc_thqa_cert_rlen s)
                I2C_HID_REPORT_TYPE_FEATURE (sc_thqa_cert_rid s))
      as [error buf].
    cbn [fst snd]. split; [exists buf; reflexivity|].
    eexists. split; [reflexivity|]. split; [|cbn; lia].
    constructor; [|constructor]. cbn. split; [reflexivity|].
    left. split; [lia | right; reflexivity].
  - cbn [fst snd]. split; [exists (sc_buf s); destruct s; reflexivity|].
    exists []. rewrite app_nil_r. repeat split; [constructor | cbn; lia].
Qed.

Lemma imt_set_input_mode_stage s io mode :
  sc_type s = HUD_TOUCHPAD -> sc_input_mode_rlen s <> 0 ->
  let r := imt_set_input_mode s io mode in
  (exists b, snd (fst r) = set_buf s b)
  /\ exists new, snd r = io ++ new /\ Forall (attach_call s) new
                 /\ (length new <= 2)%nat.
Proof.
  intros Ht Hl. cbn zeta. unfold imt_set_input_mode.
  rewrite imt_input_mode_guard_false.
  destruct (iichid_get_report io (sc_buf s) (sc_input_mode_rlen s)
              I2C_HID_REPORT_TYPE_FEATURE (sc_input_mode_rid s))
    as [error buf].
  cbn [fst snd]. split; [eexists; reflexivity|].
  rewrite <- app_assoc. eexists. split; [reflexivity|].
  split; [|cbn; lia].
  constructor; [|constructor; [|constructor]]; cbn.
  - split; [reflexivity|]. right. repeat split; assumption.
  - repeat split; assumption.
Qed.

(** The ways an attach can go: it stops before anything was done, or the
    descriptor was accepted and the state it ends with is the published one
    but for the buffer and the maximum of the slot axis. *)
Lemma imt_attach_cases e d_ptr d_len hw sc io :
  let a := imt_attach (e, d_ptr, d_len) hw sc io in
  let parsed := wmt_hid_parse (Some sc) d_ptr d_len in
  (at_error a = ENXIO /\ at_io a = io /\ at_evdev a = []
   /\ at_lock a = false /\ at_intr a = false
   /\ (e <> 0 \/ fst parsed = 0))
  \/ (e = 0 /\ fst parsed <> 0
      /\ exists pub,
           snd parsed = Some pub
           /\ attach_refines (set_sc_type pub (fst parsed)) (at_sc a)
           /\ (0 <= MAX_MT_SLOTS < 2 ^ 31 ->
               ai_max (sc_ai (at_sc a) WMT_SLOT)
               = ai_max (sc_ai pub WMT_SLOT)
               \/ 0 <= ai_max (sc_ai (at_sc a) WMT_SLOT)
                  <= MAX_MT_SLOTS - 1)
           /\ (exists new, at_io a = io ++ new
                           /\ Forall (attach_call (at_sc a)) new
                           /\ (length new <= 4)%nat)
           /\ ((at_error a = ENXIO /\ at_lock a = false
                /\ at_intr a = false)
               \/ (at_error a = 0 /\ at_lock a = true /\ at_intr a = true
                   /\ at_evdev a = imt_evdev_setup (at_sc a) hw
                   /\ evdev_register_mtx (at_evdev a) = 0))).
Proof.
  cbn zeta. unfold imt_attach.
  destruct (Z.eqb_spec e 0) as [He|He]; cbn [negb];
    [|left; cbn; repeat split; left; exact He].
  pose proof (wmt_hid_parse_accepted sc d_ptr d_len) as Hacc.
  destruct (wmt_hid_parse (Some sc) d_ptr d_len) as [ty osc].
  cbn [fst snd] in *.
  replace (sc_type (set_sc_type match osc with Some s => s | None => sc end ty))
    with ty by reflexivity.
  destruct (Z.eqb_spec ty 0) as [Hty|Hty];
    [left; cbn; repeat split; right; exact Hty|].
  right. split; [exact He|]. split; [exact Hty|].
  destruct (Hacc Hty) as (s2 & l2 & _ & _ & _ & _ & Ep).
  injection Ep as _ Eo. subst osc.
  set (pub := wmt_hid_publish s2 l2 d_ptr d_len).
  exists pub. split; [reflexivity|].
  set (s0 := set_sc_type pub ty).
  destruct (imt_attach_cont_max_stage s0 io) as (R1 & B1 & n1 & E1 & F1 & L1).
  destruct (imt_attach_cont_max s0 io) as [s1 io1]. cbn [fst snd] in *.
  destruct (imt_attach_thqa_stage s1 io1) as ((b2 & R2) & n2 & E2 & F2 & L2).
  destruct (imt_attach_thqa s1 io1) as [s2' io2]. cbn [fst snd] in *.
  assert (R12 : attach_refines s0 s2').
  { apply attach_refines_trans with s1; [exact R1|].
    rewrite R2. apply attach_refines_set_buf. }
  assert (A2 : sc_ai s2' = sc_ai s1) by (rewrite R2; reflexivity).
  assert (Hstage : exists s3 io3 err n3,
             (if (sc_type s2' =? HUD_TOUCHPAD)
                 && negb (sc_input_mode_rlen s2' =? 0)
              then imt_set_input_mode s2' io2 IMT_INPUT_MODE_MT_TOUCHPAD
              else (0, s2', io2)) = (err, s3, io3)
             /\ (exists b, s3 = set_buf s2' b)
             /\ io3 = io2 ++ n3 /\ Forall (attach_call s2') n3
             /\ (length n3 <= 2)%nat).
  { destruct ((sc_type s2' =? HUD_TOUCHPAD)
              && negb (sc_input_mode_rlen s2' =? 0)) eqn:Hc.
    - apply andb_true_iff in Hc. destruct Hc as [Hp Hl].
      apply Z.eqb_eq in Hp. apply negb_true_iff, Z.eqb_neq in Hl.
      destruct (imt_set_input_mode_stage s2' io2 IMT_INPUT_MODE_MT_TOUCHPAD
                  Hp Hl) as ((b & Hb) & n3 & E3 & F3 & L3).
      destruct (imt_set_input_mode s2' io2 IMT_INPUT_MODE_MT_TOUCHPAD)
        as [[err s3] io3]. cbn [fst snd] in *.
      exists s3, io3, err, n3. repeat split; try assumption.
      exists b. exact Hb.
    - exists s2', io2, 0, []. rewrite app_nil_r.
      repeat split; [|constructor | cbn; lia].
      exists (sc_buf s2'). destruct s2'; reflexivity. }
  destruct Hstage as (s3 & io3 & err & n3 & Es & (b3 & R3) & E3 & F3 & L3).
  rewrite Es.
  assert (R23 : attach_refines s2' s3)
    by (rewrite R3; apply attach_refines_set_buf).
  assert (R03 : attach_refines s0 s3)
    by (apply attach_refines_trans with s2'; assumption).
  assert (A3 : sc_ai s3 = sc_ai s1) by (rewrite R3; exact A2).
  assert (Hcalls : exists new, io3 = io ++ new
                               /\ Forall (attach_call s3) new
                               /\ (length new <= 4)%nat).
  { exists (n1 ++ n2 ++ n3). subst io3 io2 io1. rewrite <- !app_assoc.
    split; [reflexivity|]. split.
    - apply Forall_app. split; [|apply Forall_app; split].
      + eapply Forall_impl; [|exact F1]. intro c.
        apply attach_call_refines. exact R03.
      + eapply Forall_impl; [|exact F2]. intro c.
        apply attach_call_refines.
        apply attach_refines_trans with s2'; [|exact R23].
        rewrite R2. apply attach_refines_set_buf.
      + eapply Forall_impl; [|exact F3]. intro c.
        apply attach_call_refines. exact R23.
    - rewrite !length_app. lia. }
  assert (Hb : 0 <= MAX_MT_SLOTS < 2 ^ 31 ->
               ai_max (sc_ai s3 WMT_SLOT) = ai_max (sc_ai pub WMT_SLOT)
               \/ 0 <= ai_max (sc_ai s3 WMT_SLOT) <= MAX_MT_SLOTS - 1).
  { rewrite A3. exact B1. }
  destruct (Z.eqb_spec err 0) as [Herr|Herr]; cbn [negb].
  - destruct (Z.eqb_spec (evdev_register_mtx (imt_evdev_setup s3 hw)) 0)
      as [Hreg|Hreg]; cbn.
    + repeat split; try assumption. right. repeat split. exact Hreg.
    + repeat split; try assumption. left. repeat split.
  - cbn. repeat split; try assumption. left. repeat split.
Qed.

(** X20.  How an attach ends.  [imt_attach] returns 0 or [ENXIO].  When it
    returns 0 the descriptor had been read and accepted, the type it stores
    is the one the analysis returned, the evdev device it registered is the
    one configured from the final state, and the lock and the interrupt
    handler are in place.  When it fails, neither the lock nor the handler
    is left behind. *)
Theorem imt_attach_outcome (desc : Z * hid_descriptor * Z) (hw : iichid_hw)
  (sc : imt_softc) (io : list iichid_call) :
  ENXIO <> 0 ->
  let a := imt_attach desc hw sc io in
  (at_error a = 0 \/ at_error a = ENXIO)
  /\ (at_error a = 0 ->
      fst (fst desc) = 0
      /\ sc_type (at_sc a)
         = fst (wmt_hid_parse (Some sc) (snd (fst desc)) (snd desc))
      /\ sc_type (at_sc a) <> 0
      /\ at_evdev a = imt_evdev_setup (at_sc a) hw
      /\ evdev_register_mtx (at_evdev a) = 0
      /\ at_lock a = true /\ at_intr a = true)
  /\ (at_error a <> 0 -> at_lock a = false /\ at_intr a = false).
Proof.
  intro Hnx. destruct desc as [[e d_ptr] d_len]. cbn zeta. cbn [fst snd].
  destruct (imt_attach_cases e d_ptr d_len hw sc io)
    as [(He & _ & _ & Hl & Hi & _)
       |(He & Hty & pub & _ & R & _ & _ & [(Hf & Hl & Hi)|(Hs & Hl & Hi & Hev & Hreg)])].
  - split; [right; exact He|]. split; [intro H; congruence|].
    intros _. split; assumption.
  - split; [right; exact Hf|]. split; [intro H; congruence|].
    intros _. split; assumption.
  - split; [left; exact Hs|]. split; [|intro H; contradiction].
    intros _. destruct (attach_refines_fields _ _ R) as (Ht & _).
    cbn [set_sc_type sc_type] in Ht. rewrite Ht. repeat split; assumption.
Qed.

(** X21.  What an attach sends to the device.  The transport calls of an
    attach are added after those made before, there are at most four, and
    each is a feature report request: a read of the contact count maximum
    or of the certificate whose length is between 1 and [WMT_BSIZE], or,
    for a touchpad only, the read and the write of an input mode report of
    a length that is not 0. *)
Theorem imt_attach_calls (desc : Z * hid_descriptor * Z) (hw : iichid_hw)
  (sc : imt_softc) (io : list iichid_call) :
  let a := imt_attach desc hw sc io in
  exists new,
    at_io a = io ++ new
    /\ Forall (attach_call (at_sc a)) new
    /\ (length new <= 4)%nat.
Proof.
  destruct desc as [[e d_ptr] d_len]. cbn zeta.
  destruct (imt_attach_cases e d_ptr d_len hw sc io)
    as [(_ & Hio & _)|(_ & _ & pub & _ & _ & _ & Hc & _)].
  - exists []. rewrite app_nil_r. repeat split;
      [exact Hio | constructor | cbn; lia].
  - exact Hc.
Qed.

Lemma wmt_hid_publish_slot s l d_ptr d_len :
  sc_ai (wmt_hid_publish s l d_ptr d_len) WMT_SLOT
  = mk_absinfo 0 (wmt_descr_cont_max l - 1) 0.
Proof.
  unfold wmt_hid_publish. cbn [sc_ai].
  destruct (USAGE_SUPPORTED (caps l) WMT_WIDTH
            && USAGE_SUPPORTED (caps l) WMT_HEIGHT); reflexivity.
Qed.

Lemma wmt_hid_publish_required s l d_ptr d_len i :
  map_required (wmt_hid_map i) = true ->
  wmt_required_present (caps l) = true ->
  USAGE_SUPPORTED (sc_caps (wmt_hid_publish s l d_ptr d_len)) i = true.
Proof.
  intros Hi Hreq. pose proof (wmt_required_present_bit _ i Hi Hreq) as Hb.
  unfold wmt_hid_publish. cbn [sc_caps].
  destruct (USAGE_SUPPORTED (caps l) WMT_WIDTH
            && USAGE_SUPPORTED (caps l) WMT_HEIGHT); [|exact Hb].
  rewrite USAGE_SUPPORTED_caps_set, Hb. apply orb_true_r.
Qed.

Lemma wmt_descr_cont_max_range l :
  1 <= MAX_MT_SLOTS -> (1 <= cont l)%nat -> Z.of_nat (cont l) < 2 ^ 31 ->
  1 <= wmt_descr_cont_max l <= MAX_MT_SLOTS.
Proof.
  intros Hm Hc Hb. unfold wmt_descr_cont_max.
  rewrite to_int32_small by lia. rewrite Z.gtb_ltb.
  destruct (Z.ltb_spec (cont_count_max l) 1);
    match goal with
    | |- context [?a <? ?b] => destruct (Z.ltb_spec a b)
    end; lia.
Qed.

(** X22.  The slots announced to evdev.  When an attach succeeds, the
    device it registered declares the axis [ABS_MT_SLOT] with the minimum
    0 and a maximum between 0 and [MAX_MT_SLOTS - 1], whatever the
    descriptor and the feature report said. *)
Theorem imt_attach_slot_axis (desc : Z * hid_descriptor * Z)
  (hw : iichid_hw) (sc : imt_softc) (io : list iichid_call) :
  1 <= MAX_MT_SLOTS < 2 ^ 31 ->
  ENXIO <> 0 ->
  Z.of_nat (wmt_finger_collections (Some sc) (snd (fst desc)) (snd desc))
  < 2 ^ 31 ->
  at_error (imt_attach desc hw sc io) = 0 ->
  exists m,
    0 <= m <= MAX_MT_SLOTS - 1
    /\ In (EvSupportAbs ABS_MT_SLOT 0 0 m 0 0 0)
          (at_evdev (imt_attach desc hw sc io)).
Proof.
  intros Hm Hnx. destruct desc as [[e d_ptr] d_len]. cbn [fst snd].
  intros Hfing Hok.
  destruct (imt_attach_cases e d_ptr d_len hw sc io)
    as [(He & _)
       |(_ & Hty & pub & Hpub & R & Hb & _ & [(Hf & _)|(_ & _ & _ & Hev & _)])];
    [congruence | congruence |].
  destruct (wmt_hid_parse_accepted sc d_ptr d_len Hty)
    as (s2 & l2 & Ew & _ & Hfa & Hreq & Ep).
  rewrite Ep in Hpub. cbn [snd] in Hpub. injection Hpub as <-.
  unfold wmt_finger_collections in Hfing. rewrite Ew in Hfing.
  cbn [snd] in Hfing.
  assert (Hc : (1 <= cont l2)%nat).
  { unfold wmt_found_all in Hfa.
    apply negb_true_iff, orb_false_iff in Hfa. destruct Hfa as [_ Hc].
    apply Nat.eqb_neq in Hc. lia. }
  pose proof (wmt_descr_cont_max_range l2 ltac:(lia) Hc Hfing) as Hd.
  pose proof (wmt_hid_publish_slot s2 l2 d_ptr d_len) as Hslot.
  pose proof (wmt_hid_publish_required s2 l2 d_ptr d_len WMT_SLOT
                eq_refl Hreq) as Hcap.
  set (pub := wmt_hid_publish s2 l2 d_ptr d_len) in *.
  set (a := imt_attach (e, d_ptr, d_len) hw sc io) in *.
  destruct (attach_refines_fields _ _ R) as (_ & Hcaps & _).
  destruct R as (b & _ & _ & Hmin & Hres).
  cbn [set_buf set_sc_type sc_ai sc_caps] in Hmin, Hres, Hcaps.
  rewrite Hslot in Hmin, Hres. cbn [ai_min ai_res] in Hmin, Hres.
  exists (ai_max (sc_ai (at_sc a) WMT_SLOT)). split.
  - destruct (Hb ltac:(lia)) as [E|E]; [|exact E].
    rewrite E, Hslot. cbn [ai_max]. lia.
  - rewrite Hev. unfold imt_evdev_setup.
    apply in_or_app. right. apply in_or_app. right.
    apply in_or_app. right. unfold imt_support_abs.
    apply in_flat_map. exists WMT_SLOT. split; [cbn; left; reflexivity|].
    rewrite Hcaps, Hcap. cbn [map_code wmt_hid_map WMT_SLOT WMT_TIP_SWITCH
                              abs_code_eqb negb andb].
    left. rewrite Hmin, Hres. reflexivity.
Qed.

Lemma wmt_hid_parse_probe_type s d_ptr d_len :
  wmt_required_first = true ->
  (forall i, size (sc_locs s 0 i) = 0) ->
  fst (wmt_hid_parse None d_ptr d_len)
  = fst (wmt_hid_parse (Some s) d_ptr d_len).
Proof.
  intros Hrf Hz.
  pose proof (wmt_parse_walks_sim s d_ptr d_len Hz)
    as (s2 & HsA & HsP & Hl & Hb).
  assert (Hreq : wmt_required_present
                   (caps (snd (wmt_parse_walks None d_ptr d_len)))
                 = wmt_required_present
                     (caps (snd (wmt_parse_walks (Some s) d_ptr d_len)))).
  { apply wmt_required_present_sim; [exact Hrf|].
    intros i Hi. symmetry. apply Hb. exact Hi. }
  assert (Hfa : wmt_found_all (snd (wmt_parse_walks None d_ptr d_len))
                = wmt_found_all (snd (wmt_parse_walks (Some s) d_ptr d_len)))
    by (rewrite Hl; reflexivity).
  assert (Hty : type (snd (wmt_parse_walks None d_ptr d_len))
                = type (snd (wmt_parse_walks (Some s) d_ptr d_len)))
    by (rewrite Hl; reflexivity).
  unfold wmt_hid_parse. unfold wmt_parse_walks in *.
  pose proof (wmt_parse_features_locals (Some s) d_ptr d_len) as Hloc.
  destruct (wmt_parse_features (Some s) d_ptr d_len) as [scA l1A].
  destruct (wmt_parse_features None d_ptr d_len) as [scP l1P].
  cbn [fst snd] in Hloc. subst l1P.
  destruct (cont_max_rid l1A =? 0); [reflexivity|].
  destruct (wmt_parse_inputs scA l1A d_ptr d_len) as [sc2A l2A].
  destruct (wmt_parse_inputs scP l1A d_ptr d_len) as [sc2P l2P].
  cbn [fst snd] in *. subst sc2A sc2P.
  rewrite Hfa, Hreq.
  destruct (wmt_found_all l2A); [|reflexivity].
  destruct (wmt_required_present (caps l2A)); [|reflexivity].
  cbn [negb fst]. exact Hty.
Qed.

(** X23.  Probe and attach on the same device.  For a device state whose
    locations of the first finger are empty, as in a new softc: a device
    the probe refuses is refused by the attach before any transport call,
    with no evdev device, lock or handler left; a device the probe takes
    passes the analysis of the attach, which stores the type the probe
    saw. *)
Theorem imt_probe_attach (desc : Z * hid_descriptor * Z) (hw : iichid_hw)
  (sc : imt_softc) (io : list iichid_call) :
  wmt_required_first = true ->
  (forall i, size (sc_locs sc 0 i) = 0) ->
  BUS_PROBE_DEFAULT <> ENXIO ->
  let a := imt_attach desc hw sc io in
  (fst (imt_probe desc) <> BUS_PROBE_DEFAULT ->
   at_error a = ENXIO /\ at_io a = io /\ at_evdev a = []
   /\ at_lock a = false /\ at_intr a = false)
  /\ (fst (imt_probe desc) = BUS_PROBE_DEFAULT ->
      sc_type (at_sc a) <> 0
      /\ sc_type (at_sc a)
         = fst (wmt_hid_parse None (snd (fst desc)) (snd desc))).
Proof.
  intros Hrf Hz Hne. destruct desc as [[e d_ptr] d_len].
  cbn zeta. cbn [fst snd].
  pose proof (wmt_hid_parse_probe_type sc d_ptr d_len Hrf Hz) as Hty.
  assert (Hp : fst (imt_probe (e, d_ptr, d_len)) = BUS_PROBE_DEFAULT
               <-> e = 0 /\ fst (wmt_hid_parse None d_ptr d_len) <> 0).
  { unfold imt_probe. cbn [fst].
    destruct (Z.eqb_spec e 0) as [He|He]; cbn [negb].
    - destruct (Z.eqb_spec (fst (wmt_hid_parse None d_ptr d_len)) 0)
        as [H0|H0]; cbn [negb]; split; intro H;
        try (split; assumption); try reflexivity.
      + congruence.
      + destruct H as [_ H]. contradiction.
    - split; intro H; [congruence | destruct H; contradiction]. }
  destruct (imt_attach_cases e d_ptr d_len hw sc io)
    as [(He & Hio & Hev & Hl & Hi & Hwhy)|(He & Ht & pub & _ & R & _)].
  - split; [intros _; repeat split; assumption|].
    intro H. apply Hp in H. destruct H as [H1 H2].
    destruct Hwhy as [Hw|Hw]; [contradiction|].
    rewrite Hty in H2. contradiction.
  - split.
    + intro H. contradiction H. apply Hp. split; [exact He|].
      rewrite Hty. exact Ht.
    + intros _. destruct (attach_refines_fields _ _ R) as (Hs & _).
      cbn [set_sc_type sc_type] in Hs. rewrite Hs, Hty.
      split; [exact Ht | reflexivity].
Qed.

End Attach.

(** * Further properties on the sample environment *)

(** ** Report Decoder, continued *)

Lemma imt_intr_counter_witness :
  0 <= sc_nconts_todo sample_softc < 2 ^ 32
  /\ 0 <= sc_nconts_per_report sample_softc
  /\ @imt_nconts sample_usbhid sample_softc (sample_report 3 1 1 2 10 20) 8
     = Z.min (@imt_nconts_todo sample_usbhid sample_softc
                (sample_report 3 1 1 2 10 20) 8)
         (sc_nconts_per_report sample_softc).
Proof.
  assert (H1 : 0 <= sc_nconts_todo sample_softc < 2 ^ 32)
    by (vm_compute; split; [discriminate | reflexivity]).
  assert (H2 : 0 <= sc_nconts_per_report sample_softc)
    by (vm_compute; discriminate).
  split; [exact H1|]. split; [exact H2|].
  exact (proj1 (@imt_intr_counter sample_usbhid sample_evdev sample_softc []
                  (sample_report 3 1 1 2 10 20) 8 H1 H2)).
Defined.

Lemma imt_intr_burst_witness :
  snd (sample_report 2 1 1 4 10 20, 8, 1) = sc_report_id sample_softc
  /\ Forall (@continuation sample_usbhid sample_softc)
       [(sample_report 0 1 1 5 30 40, 8, 1)]
  /\ sync_count
       (snd (@imt_intr_all sample_usbhid sample_evdev (sample_softc, [])
               (firstn 2 [(sample_report 2 1 1 4 10 20, 8, 1);
                          (sample_report 0 1 1 5 30 40, 8, 1)])))
     = S (sync_count []).
Proof.
  assert (H1 : snd (sample_report 2 1 1 4 10 20, 8, 1)
               = sc_report_id sample_softc)
    by (vm_compute; reflexivity).
  assert (H2 : @imt_cont_count sample_usbhid sample_softc
                 (fst (fst (sample_report 2 1 1 4 10 20, 8, 1)))
                 (snd (fst (sample_report 2 1 1 4 10 20, 8, 1))) = 2)
    by (vm_compute; reflexivity).
  assert (H3 : 0 < 2) by reflexivity.
  assert (H4 : sc_nconts_per_report sample_softc = 1)
    by (vm_compute; reflexivity).
  assert (H5 : Forall (@continuation sample_usbhid sample_softc)
                 [(sample_report 0 1 1 5 30 40, 8, 1)]).
  { constructor; [|constructor]. split; vm_compute; reflexivity. }
  assert (H6 : Z.of_nat (length [(sample_report 0 1 1 5 30 40, 8, 1)]) * 1 < 2
               <= (Z.of_nat (length [(sample_report 0 1 1 5 30 40, 8, 1)]) + 1)
                  * 1)
    by (vm_compute; split; [reflexivity | discriminate]).
  split; [exact H1|]. split; [exact H5|].
  exact (proj2 (proj2 (@imt_intr_burst sample_usbhid sample_evdev sample_softc
                         [] (sample_report 2 1 1 4 10 20, 8, 1)
                         [(sample_report 0 1 1 5 30 40, 8, 1)] 2 1
                         H1 H2 H3 H4 H5 H6))).
Defined.

Lemma imt_intr_slot_overflow_witness :
  (forall id, @evdev_get_mt_slot_by_tracking_id full_evdev [] id = -1)
  /\ snd (@imt_intr sample_usbhid full_evdev sample_softc []
            (sample_report 1 1 1 4 10 20) 8 (sc_report_id sample_softc))
     = [] ++ (if sc_nconts_todo
                   (fst (@imt_intr sample_usbhid full_evdev sample_softc []
                           (sample_report 1 1 1 4 10 20) 8
                           (sc_report_id sample_softc))) =? 0
              then [EvSync] else []).
Proof.
  assert (H : forall id,
             @evdev_get_mt_slot_by_tracking_id full_evdev [] id = -1)
    by (intro id; reflexivity).
  split; [exact H|].
  exact (proj2 (@imt_intr_slot_overflow sample_usbhid full_evdev sample_softc
                  [] (sample_report 1 1 1 4 10 20) 8 H)).
Defined.

Lemma imt_intr_release_witness :
  @imt_nconts sample_usbhid sample_softc (sample_report 1 0 0 3 10 20) 8 = 1
  /\ imt_contact_active sample_softc
       (@imt_slot_data sample_usbhid sample_softc
          (imt_intr_buf sample_softc (sample_report 1 0 0 3 10 20) 8) 8 0)
     = false
  /\ snd (@imt_intr sample_usbhid sample_evdev sample_softc []
            (sample_report 1 0 0 3 10 20) 8 (sc_report_id sample_softc))
     = [EvAbs ABS_MT_SLOT 3; EvAbs ABS_MT_TRACKING_ID (-1); EvSync].
Proof.
  assert (H1 : @imt_nconts sample_usbhid sample_softc
                 (sample_report 1 0 0 3 10 20) 8 = 1)
    by (vm_compute; reflexivity).
  assert (H2 : @evdev_get_mt_slot_by_tracking_id sample_evdev []
                 (to_int32
                    (@imt_slot_data sample_usbhid sample_softc
                       (imt_intr_buf sample_softc
                          (sample_report 1 0 0 3 10 20) 8) 8 0
                       WMT_CONTACTID)) <> -1)
    by (vm_compute; discriminate).
  assert (H3 : imt_contact_active sample_softc
                 (@imt_slot_data sample_usbhid sample_softc
                    (imt_intr_buf sample_softc
                       (sample_report 1 0 0 3 10 20) 8) 8 0) = false)
    by (vm_compute; reflexivity).
  split; [exact H1|]. split; [exact H3|].
  rewrite (@imt_intr_release sample_usbhid sample_evdev sample_softc []
             (sample_report 1 0 0 3 10 20) 8 H1 H2 H3).
  vm_compute. reflexivity.
Defined.

Lemma imt_intr_contact_geometry_witness :
  USAGE_SUPPORTED (sc_caps wide_softc) WMT_ORIENTATION = true
  /\ abs_values ABS_MT_ORIENTATION
       (snd (@imt_intr_contact sample_usbhid sample_evdev
               (sample_report 1 1 1 3 10 20 ++ [40; 30]) 10
               (wide_softc, []) 0))
     = abs_values ABS_MT_ORIENTATION [] ++ [1].
Proof.
  assert (H1 : @evdev_get_mt_slot_by_tracking_id sample_evdev []
                 (to_int32
                    (@imt_slot_data sample_usbhid wide_softc
                       (sample_report 1 1 1 3 10 20 ++ [40; 30]) 10 0
                       WMT_CONTACTID)) <> -1)
    by (vm_compute; discriminate).
  assert (H2 : imt_contact_active wide_softc
                 (@imt_slot_data sample_usbhid wide_softc
                    (sample_report 1 1 1 3 10 20 ++ [40; 30]) 10 0) = true)
    by (vm_compute; reflexivity).
  assert (H3 : USAGE_SUPPORTED (sc_caps wide_softc) WMT_WIDTH = true)
    by (vm_compute; reflexivity).
  assert (H4 : USAGE_SUPPORTED (sc_caps wide_softc) WMT_HEIGHT = true)
    by (vm_compute; reflexivity).
  assert (H5 : USAGE_SUPPORTED (sc_caps wide_softc) WMT_ORIENTATION = true)
    by (vm_compute; reflexivity).
  split; [exact H5|].
  pose proof (proj1 (proj2 (proj2
                (@imt_intr_contact_geometry sample_usbhid sample_evdev
                   (sample_report 1 1 1 3 10 20 ++ [40; 30]) 10 wide_softc
                   [] 0 H1 H2 H3 H4 H5)))) as G.
  cbv zeta in G. etransitivity; [exact G | vm_compute; reflexivity].
Defined.

Lemma imt_intr_buf_spec_witness :
  0 <= 4 < 2 ^ 32 /\ 0 <= sc_isize sample_softc < 2 ^ 32
  /\ length (imt_intr_buf sample_softc [1; 2; 3; 4; 5; 6; 7; 8] 4)
     = length [1; 2; 3; 4; 5; 6; 7; 8].
Proof.
  assert (H1 : 0 <= 4 < 2 ^ 32)
    by (split; [discriminate | reflexivity]).
  assert (H2 : 0 <= sc_isize sample_softc < 2 ^ 32)
    by (vm_compute; split; [discriminate | reflexivity]).
  split; [exact H1|]. split; [exact H2|].
  exact (proj1 (imt_intr_buf_spec sample_softc [1; 2; 3; 4; 5; 6; 7; 8] 4
                  H1 H2)).
Defined.

(** ** Report Size Calculator, continued *)

Lemma wmt_hid_report_size_order_independent_witness :
  Permutation
    (matching_items
       (@hid_start_parse sample_usbhid (touch_descriptor 5 finger_fields) 0
          (Z.shiftl 1 (@hid_kind_code sample_usbhid hid_input)))
       hid_input 1)
    (matching_items
       (@hid_start_parse sample_usbhid
          (touch_descriptor 5 (rev finger_fields)) 0
          (Z.shiftl 1 (@hid_kind_code sample_usbhid hid_input)))
       hid_input 1)
  /\ @wmt_hid_report_size sample_usbhid (touch_descriptor 5 finger_fields) 0
       hid_input 1
     = @wmt_hid_report_size sample_usbhid
         (touch_descriptor 5 (rev finger_fields)) 0 hid_input 1.
Proof.
  assert (E1 : matching_items
                 (@hid_start_parse sample_usbhid
                    (touch_descriptor 5 finger_fields) 0
                    (Z.shiftl 1 (@hid_kind_code sample_usbhid hid_input)))
                 hid_input 1
               = [field hid_input 1 U_CONTACTCOUNT 1 16 8 0;
                  field hid_input 1 U_SCAN_TIME 1 65535 16 8]
                 ++ finger_fields)
    by (vm_compute; reflexivity).
  assert (E2 : matching_items
                 (@hid_start_parse sample_usbhid
                    (touch_descriptor 5 (rev finger_fields)) 0
                    (Z.shiftl 1 (@hid_kind_code sample_usbhid hid_input)))
                 hid_input 1
               = [field hid_input 1 U_CONTACTCOUNT 1 16 8 0;
                  field hid_input 1 U_SCAN_TIME 1 65535 16 8]
                 ++ rev finger_fields)
    by (vm_compute; reflexivity).
  assert (P : Permutation
                (matching_items
                   (@hid_start_parse sample_usbhid
                      (touch_descriptor 5 finger_fields) 0
                      (Z.shiftl 1 (@hid_kind_code sample_usbhid hid_input)))
                   hid_input 1)
                (matching_items
                   (@hid_start_parse sample_usbhid
                      (touch_descriptor 5 (rev finger_fields)) 0
                      (Z.shiftl 1 (@hid_kind_code sample_usbhid hid_input)))
                   hid_input 1)).
  { rewrite E1, E2. apply Permutation_app_head. apply Permutation_rev. }
  split; [exact P|].
  exact (@wmt_hid_report_size_order_independent sample_usbhid
           (touch_descriptor 5 finger_fields)
           (touch_descriptor 5 (rev finger_fields)) 0 0 hid_input 1 P).
Defined.

(** ** Descriptor Analyzer, continued *)

Lemma wmt_hid_parse_needs_cont_max_id_witness :
  (forall hi,
      In hi (@hid_start_parse sample_usbhid closed_config_descriptor 0
               (Z.shiftl 1 (@hid_kind_code sample_usbhid hid_feature))) ->
      kind hi = hid_feature ->
      usage hi = @HID_USAGE2 sample_usbhid
                   (@HUP_DIGITIZERS sample_usbhid)
                   (@HUD_CONTACT_MAX sample_usbhid) ->
      report_ID hi = 0)
  /\ @wmt_hid_parse sample_usbhid sample_evdev None closed_config_descriptor 0
     = (0, fst (@wmt_parse_features sample_usbhid None
                  closed_config_descriptor 0)).
Proof.
  assert (H : forall hi,
             In hi (@hid_start_parse sample_usbhid closed_config_descriptor 0
                      (Z.shiftl 1 (@hid_kind_code sample_usbhid hid_feature)))
             ->
             kind hi = hid_feature ->
             usage hi = @HID_USAGE2 sample_usbhid
                          (@HUP_DIGITIZERS sample_usbhid)
                          (@HUD_CONTACT_MAX sample_usbhid) ->
             report_ID hi = 0).
  { assert (E : @hid_start_parse sample_usbhid closed_config_descriptor 0
                  (Z.shiftl 1 (@hid_kind_code sample_usbhid hid_feature))
                = closed_config_descriptor)
      by (vm_compute; reflexivity).
    intros hi Hin. rewrite E in Hin. unfold closed_config_descriptor in Hin.
    repeat (destruct Hin as [<-|Hin];
            [first [ intros _ _; vm_compute; reflexivity
                   | intros _; vm_compute; discriminate ]|]).
    contradiction. }
  split; [exact H|].
  exact (@wmt_hid_parse_needs_cont_max_id sample_usbhid sample_evdev None
           closed_config_descriptor 0 H).
Defined.

Lemma wmt_hid_parse_table_bounds_witness :
  0 <= @MAX_MT_SLOTS sample_evdev < 2 ^ 64
  /\ exists s',
       snd (@wmt_hid_parse sample_usbhid sample_evdev (Some softc_zero)
              (touch_descriptor 5 finger_fields) 0) = Some s'
       /\ (forall k, (WMT_N_USAGES <= k)%nat ->
                     sc_ai s' k = sc_ai softc_zero k).
Proof.
  assert (H : 0 <= @MAX_MT_SLOTS sample_evdev < 2 ^ 64)
    by (vm_compute; split; [discriminate | reflexivity]).
  split; [exact H|].
  destruct (@wmt_hid_parse_table_bounds sample_usbhid sample_evdev softc_zero
              (touch_descriptor 5 finger_fields) 0 H)
    as (s' & Hs & _ & Hai).
  exists s'. split; [exact Hs | exact Hai].
Defined.

Lemma parse_inputs_first_match_wins_witness :
  size (sc_locs (set_locs softc_zero (fun _ _ => mk_loc 1 1 0)) 0 WMT_X) <> 0
  /\ exists s',
       fst (parse_items (@parse_input_item sample_usbhid sample_evdev)
              (touch_descriptor 5 finger_fields)
              (Some (set_locs softc_zero (fun _ _ => mk_loc 1 1 0)))
              locals_init) = Some s'
       /\ sc_locs s' 0 WMT_X
          = sc_locs (set_locs softc_zero (fun _ _ => mk_loc 1 1 0)) 0 WMT_X.
Proof.
  assert (H : size (sc_locs (set_locs softc_zero (fun _ _ => mk_loc 1 1 0))
                      0 WMT_X) <> 0)
    by (vm_compute; discriminate).
  split; [exact H|].
  exact (@parse_inputs_first_match_wins sample_usbhid sample_evdev
           (touch_descriptor 5 finger_fields)
           (set_locs softc_zero (fun _ _ => mk_loc 1 1 0)) locals_init
           0%nat WMT_X H).
Defined.

Lemma parse_inputs_first_finger_only_witness :
  (0 < cont second_finger_locals)%nat
  /\ exists s',
       fst (parse_items (@parse_input_item sample_usbhid sample_evdev)
              ([coll 2 U_FINGER 1] ++ finger_fields ++ [endcoll 1])
              (Some softc_zero) second_finger_locals) = Some s'
       /\ (forall k, sc_locs s' 0 k = sc_locs softc_zero 0 k).
Proof.
  assert (H : (0 < cont second_finger_locals)%nat)
    by (vm_compute; constructor).
  split; [exact H|].
  destruct (@parse_inputs_first_finger_only sample_usbhid sample_evdev
              ([coll 2 U_FINGER 1] ++ finger_fields ++ [endcoll 1])
              softc_zero second_finger_locals H)
    as (s' & Hs & _ & Hl & _).
  exists s'. split; [exact Hs | exact Hl].
Defined.

Lemma parse_inputs_one_report_witness :
  report_id second_finger_locals <> 0
  /\ report_id
       (snd (parse_items (@parse_input_item sample_usbhid sample_evdev)
               [field hid_input 1 U_X 9 4095 16 0;
                field hid_input 1 U_CONTACTCOUNT 1 16 8 0]
               None second_finger_locals))
     = report_id second_finger_locals.
Proof.
  assert (H : report_id second_finger_locals <> 0)
    by (vm_compute; discriminate).
  split; [exact H|].
  exact (proj1 (@parse_inputs_one_report sample_usbhid sample_evdev
                  [field hid_input 1 U_X 9 4095 16 0;
                   field hid_input 1 U_CONTACTCOUNT 1 16 8 0]
                  None second_finger_locals H)).
Defined.

Lemma wmt_hid_parse_profile_witness :
  fst (@wmt_hid_parse sample_usbhid sample_evdev (Some softc_zero)
         (touch_descriptor 5 wide_fields) 0) <> 0
  /\ exists s',
       snd (@wmt_hid_parse sample_usbhid sample_evdev (Some softc_zero)
              (touch_descriptor 5 wide_fields) 0) = Some s'
       /\ (forall i, map_required (@wmt_hid_map sample_usbhid i) = true ->
                     USAGE_SUPPORTED (sc_caps s') i = true)
       /\ sc_cont_max_rid s' <> 0.
Proof.
  assert (H : fst (@wmt_hid_parse sample_usbhid sample_evdev
                     (Some softc_zero)
                     (touch_descriptor 5 wide_fields) 0) <> 0)
    by (vm_compute; discriminate).
  split; [exact H|].
  destruct (@wmt_hid_parse_profile sample_usbhid sample_evdev softc_zero
              (touch_descriptor 5 wide_fields) 0 H)
    as (s' & Hs & Hreq & _ & Hrid & _).
  exists s'. split; [exact Hs|]. split; [exact Hreq | exact Hrid].
Defined.

(** ** Feature Refinement, continued *)

Lemma wmt_cont_max_parse_frame_witness :
  0 <= @MAX_MT_SLOTS sample_evdev < 2 ^ 31
  /\ same_but_slot_max sample_softc
       (@wmt_cont_max_parse sample_usbhid sample_evdev sample_softc [10] 1).
Proof.
  assert (H : 0 <= @MAX_MT_SLOTS sample_evdev < 2 ^ 31)
    by (vm_compute; split; [discriminate | reflexivity]).
  split; [exact H|].
  exact (proj1 (@wmt_cont_max_parse_frame sample_usbhid sample_evdev
                  sample_softc [10] 1 H)).
Defined.

(** ** Mode Selector, continued *)

Lemma imt_set_input_mode_unreadable_witness :
  fst (@iichid_get_report failing_iichid [] (sc_buf (mode_softc 2))
         (sc_input_mode_rlen (mode_softc 2))
         (@I2C_HID_REPORT_TYPE_FEATURE failing_iichid)
         (sc_input_mode_rid (mode_softc 2))) <> 0
  /\ exists zeroed,
       (forall i, (i < Z.to_nat (sc_input_mode_rlen (mode_softc 2)))%nat ->
                  nth i zeroed 0 = 0)
       /\ fst (fst (@imt_set_input_mode sample_usbhid failing_iichid
                      (mode_softc 2) [] IMT_INPUT_MODE_MT_TOUCHPAD))
          = @iichid_set_report failing_iichid
              ([] ++ [GetReport (sc_input_mode_rlen (mode_softc 2))
                        (@I2C_HID_REPORT_TYPE_FEATURE failing_iichid)
                        (sc_input_mode_rid (mode_softc 2))])
              (@hid_put_data_unsigned sample_usbhid zeroed
                 (sc_input_mode_rlen (mode_softc 2))
                 (sc_input_mode_loc (mode_softc 2))
                 IMT_INPUT_MODE_MT_TOUCHPAD)
              (sc_input_mode_rlen (mode_softc 2))
              (@I2C_HID_REPORT_TYPE_FEATURE failing_iichid)
              (sc_input_mode_rid (mode_softc 2)).
Proof.
  assert (H : fst (@iichid_get_report failing_iichid []
                     (sc_buf (mode_softc 2))
                     (sc_input_mode_rlen (mode_softc 2))
                     (@I2C_HID_REPORT_TYPE_FEATURE failing_iichid)
                     (sc_input_mode_rid (mode_softc 2))) <> 0)
    by (vm_compute; discriminate).
  split; [exact H|].
  destruct (@imt_set_input_mode_unreadable sample_usbhid failing_iichid
              (mode_softc 2) [] IMT_INPUT_MODE_MT_TOUCHPAD H)
    as (zeroed & _ & Hz & _ & Hr).
  exists zeroed. split; [exact Hz|].
  cbv zeta in Hr. rewrite Hr. reflexivity.
Defined.

(** ** Probe and attach *)

Lemma imt_attach_outcome_witness :
  @ENXIO sample_newbus <> 0
  /\ at_lock (@imt_attach sample_usbhid sample_evdev sample_iichid
                sample_newbus sample_desc sample_hw softc_zero []) = true
  /\ at_intr (@imt_attach sample_usbhid sample_evdev sample_iichid
                sample_newbus sample_desc sample_hw softc_zero []) = true.
Proof.
  assert (H : @ENXIO sample_newbus <> 0) by (vm_compute; discriminate).
  assert (E : at_error (@imt_attach sample_usbhid sample_evdev sample_iichid
                          sample_newbus sample_desc sample_hw softc_zero [])
              = 0)
    by (vm_compute; reflexivity).
  split; [exact H|].
  destruct (proj1 (proj2 (@imt_attach_outcome sample_usbhid sample_evdev
                            sample_iichid sample_newbus sample_desc
                            sample_hw softc_zero [] H)) E)
    as (_ & _ & _ & _ & _ & Hl & Hi).
  split; [exact Hl | exact Hi].
Defined.

Lemma imt_attach_slot_axis_witness :
  1 <= @MAX_MT_SLOTS sample_evdev < 2 ^ 31
  /\ @ENXIO sample_newbus <> 0
  /\ at_error (@imt_attach sample_usbhid sample_evdev sample_iichid
                 sample_newbus sample_desc sample_hw softc_zero []) = 0
  /\ exists m,
       0 <= m <= @MAX_MT_SLOTS sample_evdev - 1
       /\ In (EvSupportAbs ABS_MT_SLOT 0 0 m 0 0 0)
             (at_evdev (@imt_attach sample_usbhid sample_evdev sample_iichid
                          sample_newbus sample_desc sample_hw softc_zero [])).
Proof.
  assert (H1 : 1 <= @MAX_MT_SLOTS sample_evdev < 2 ^ 31)
    by (vm_compute; split; [discriminate | reflexivity]).
  assert (H2 : @ENXIO sample_newbus <> 0) by (vm_compute; discriminate).
  assert (H3 : Z.of_nat
                 (@wmt_finger_collections sample_usbhid sample_evdev
                    (Some softc_zero) (snd (fst sample_desc))
                    (snd sample_desc)) < 2 ^ 31)
    by (vm_compute; reflexivity).
  assert (H4 : at_error (@imt_attach sample_usbhid sample_evdev sample_iichid
                           sample_newbus sample_desc sample_hw softc_zero [])
               = 0)
    by (vm_compute; reflexivity).
  split; [exact H1|]. split; [exact H2|]. split; [exact H4|].
  exact (@imt_attach_slot_axis sample_usbhid sample_evdev sample_iichid
           sample_newbus sample_desc sample_hw softc_zero [] H1 H2 H3 H4).
Defined.

Lemma imt_probe_attach_witness :
  @wmt_required_first sample_usbhid = true
  /\ (forall i, size (sc_locs softc_zero 0 i) = 0)
  /\ @BUS_PROBE_DEFAULT sample_newbus <> @ENXIO sample_newbus
  /\ fst (@imt_probe sample_usbhid sample_evdev sample_newbus foreign_desc)
     <> @BUS_PROBE_DEFAULT sample_newbus
  /\ at_io (@imt_attach sample_usbhid sample_evdev sample_iichid
              sample_newbus foreign_desc sample_hw softc_zero []) = [].
Proof.
  assert (R : @wmt_required_first sample_usbhid = true)
    by (vm_compute; reflexivity).
  assert (Z0 : forall i, size (sc_locs softc_zero 0 i) = 0)
    by (intro i; reflexivity).
  assert (N : @BUS_PROBE_DEFAULT sample_newbus <> @ENXIO sample_newbus)
    by (vm_compute; discriminate).
  assert (P : fst (@imt_probe sample_usbhid sample_evdev sample_newbus
                     foreign_desc)
              <> @BUS_PROBE_DEFAULT sample_newbus)
    by (vm_compute; discriminate).
  split; [exact R|]. split; [exact Z0|]. split; [exact N|]. split; [exact P|].
  exact (proj1 (proj2 (proj1 (@imt_probe_attach sample_usbhid sample_evdev
                                sample_iichid sample_newbus foreign_desc
                                sample_hw softc_zero [] R Z0 N) P))).
Defined.
